(** * bluesky-github-action: the media-attachment pipeline

    A shallow embedding of [cmd/bluesky-github-action] (image.go, video.go,
    facet.go, embed.go and main.go) together with the properties of its
    attachment pipeline: format validation, alt-text resolution, the image
    batch, the video job-status polling loop and the embed selection done by
    [main].

    Go strings are byte strings: they are modelled by [string], whose
    characters are the bytes.  Go's [int] is modelled by [Z]; no computation
    below comes near the 64-bit range.  Pointers that may be nil are
    [option]s.  Logging is left out, except where evaluating the arguments of
    a log call can fail. *)

From Stdlib Require Import ZArith NArith Lia List Bool Ascii String DecimalString.
Import ListNotations.
Open Scope string_scope.
Open Scope Z_scope.

(** ** The parts of the Go library the program uses *)

Module Go.

(** The value of a byte. *)
Definition byteOf (c : ascii) : N := N_of_ascii c.

(** [len(s)] for a string and for a slice. *)
Definition len (s : string) : Z := Z.of_nat (String.length s).
Definition lenSlice {A : Type} (l : list A) : Z := Z.of_nat (List.length l).

(** [unicode.IsSpace]: the code points with the White_Space property. *)
Definition isSpaceRune (r : N) : bool :=
  (((9 <=? r) && (r <=? 13)) || (r =? 32) || (r =? 133) || (r =? 160)
   || (r =? 5760) || ((8192 <=? r) && (r <=? 8202))
   || (r =? 8232) || (r =? 8233) || (r =? 8239) || (r =? 8287)
   || (r =? 12288))%N.

(** UTF-8: continuation bytes, and the runes encoded on two and on three
    bytes.  Overlong forms and surrogates are not runes ([utf8.DecodeRune]
    answers [RuneError] there, which is not white space).  No rune of four
    bytes is white space. *)
Definition isCont (b : N) : bool := ((128 <=? b) && (b <=? 191))%N.

Definition rune2 (b0 b1 : N) : option N :=
  if ((194 <=? b0) && (b0 <=? 223))%N && isCont b1
  then Some (N.lor (N.shiftl (N.land b0 31) 6) (N.land b1 63))
  else None.

Definition rune3 (b0 b1 b2 : N) : option N :=
  if ((224 <=? b0) && (b0 <=? 239))%N && isCont b1 && isCont b2
     && (negb (b0 =? 224)%N || (160 <=? b1)%N)
     && (negb (b0 =? 237)%N || (b1 <=? 159)%N)
  then Some (N.lor (N.shiftl (N.land b0 15) 12)
               (N.lor (N.shiftl (N.land b1 63) 6) (N.land b2 63)))
  else None.

Definition isSpace2 (b0 b1 : ascii) : bool :=
  match rune2 (byteOf b0) (byteOf b1) with
  | Some r => isSpaceRune r
  | None => false
  end.

Definition isSpace3 (b0 b1 b2 : ascii) : bool :=
  match rune3 (byteOf b0) (byteOf b1) (byteOf b2) with
  | Some r => isSpaceRune r
  | None => false
  end.

Definition isSpace1 (b : ascii) : bool :=
  (byteOf b <? 128)%N && isSpaceRune (byteOf b).

(** [strings.TrimLeftFunc(s, unicode.IsSpace)]: drops the white-space runes
    at the front. *)
Fixpoint trimLeftSpace (s : string) : string :=
  match s with
  | EmptyString => EmptyString
  | String b0 s1 =>
      if isSpace1 b0 then trimLeftSpace s1
      else
        match s1 with
        | EmptyString => s
        | String b1 s2 =>
            if isSpace2 b0 b1 then trimLeftSpace s2
            else
              match s2 with
              | EmptyString => s
              | String b2 s3 =>
                  if isSpace3 b0 b1 b2 then trimLeftSpace s3 else s
              end
        end
  end.

(** The same from the back, on the reversed string: [utf8.DecodeLastRune]
    finds a white-space rune exactly when the string ends with its encoding,
    which the reversed string shows last byte first. *)
Fixpoint trimLeftSpaceRev (s : string) : string :=
  match s with
  | EmptyString => EmptyString
  | String b0 s1 =>
      if isSpace1 b0 then trimLeftSpaceRev s1
      else
        match s1 with
        | EmptyString => s
        | String b1 s2 =>
            if isSpace2 b1 b0 then trimLeftSpaceRev s2
            else
              match s2 with
              | EmptyString => s
              | String b2 s3 =>
                  if isSpace3 b2 b1 b0 then trimLeftSpaceRev s3 else s
              end
        end
  end.

Fixpoint revOnto (s acc : string) : string :=
  match s with
  | EmptyString => acc
  | String c s' => revOnto s' (String c acc)
  end.

Definition reverse (s : string) : string := revOnto s EmptyString.

(** [strings.TrimSpace]: all leading and trailing white space removed. *)
Definition TrimSpace (s : string) : string :=
  reverse (trimLeftSpaceRev (reverse (trimLeftSpace s))).

(** [strings.TrimRight(s, cutset)] for a cutset of ASCII bytes. *)
Fixpoint dropWhileIn (cutset : list ascii) (s : string) : string :=
  match s with
  | EmptyString => EmptyString
  | String c s' =>
      if existsb (Ascii.eqb c) cutset then dropWhileIn cutset s' else s
  end.

Definition TrimRight (s : string) (cutset : list ascii) : string :=
  reverse (dropWhileIn cutset (reverse s)).

(** [strings.Split(s, sep)] for a separator of one byte: the pieces between
    the separators, a single piece (the string itself) when there is none. *)
Fixpoint Split (s : string) (sep : ascii) : list string :=
  match s with
  | EmptyString => [EmptyString]
  | String c s' =>
      if Ascii.eqb c sep then EmptyString :: Split s' sep
      else
        match Split s' sep with
        | piece :: pieces => String c piece :: pieces
        | [] => [String c EmptyString]
        end
  end.

(** [filepath.Ext] with the separator of Unix (the action runs in a Linux
    container): the suffix that starts at the last dot of the last element
    of the path, empty when that element has no dot. *)
Definition isDotOrSeparator (c : ascii) : bool :=
  Ascii.eqb c "."%char || Ascii.eqb c "/"%char.

Fixpoint hasDotOrSeparator (s : string) : bool :=
  match s with
  | EmptyString => false
  | String c s' => isDotOrSeparator c || hasDotOrSeparator s'
  end.

Fixpoint Ext (path : string) : string :=
  match path with
  | EmptyString => EmptyString
  | String c rest =>
      if hasDotOrSeparator rest then Ext rest
      else if Ascii.eqb c "."%char then path
      else EmptyString
  end.

(** [strings.ToLower].  On a string of ASCII bytes it lowers the letters A-Z;
    on any other string it maps [unicode.ToLower] over the runes, which needs
    the case tables of the Unicode database: that branch is the parameter
    [lowerRunes]. *)
Fixpoint isASCII (s : string) : bool :=
  match s with
  | EmptyString => true
  | String c s' => (byteOf c <? 128)%N && isASCII s'
  end.

Definition lowerByte (c : ascii) : ascii :=
  let n := byteOf c in
  if ((65 <=? n) && (n <=? 90))%N then ascii_of_N (n + 32) else c.

Fixpoint lowerBytes (s : string) : string :=
  match s with
  | EmptyString => EmptyString
  | String c s' => String (lowerByte c) (lowerBytes s')
  end.

Definition ToLower (lowerRunes : string -> string) (s : string) : string :=
  if isASCII s then lowerBytes s else lowerRunes s.

(** [strings.Contains]. *)
Fixpoint Contains (s substr : string) : bool :=
  String.prefix substr s
  || match s with
     | EmptyString => false
     | String _ s' => Contains s' substr
     end.

(** [s[:n]] for [0 <= n <= len(s)]. *)
Definition slicePrefix (s : string) (n : Z) : string :=
  String.substring 0 (Z.to_nat n) s.

(** [filepath.Base] on Unix: the last element of the path, trailing slashes
    removed first; ["."] for the empty path and ["/"] for a path of slashes
    only. *)
Fixpoint hasSlash (s : string) : bool :=
  match s with
  | EmptyString => false
  | String c s' => Ascii.eqb c "/"%char || hasSlash s'
  end.

Fixpoint afterLastSlash (s : string) : string :=
  match s with
  | EmptyString => EmptyString
  | String c s' =>
      if hasSlash s' then afterLastSlash s'
      else if Ascii.eqb c "/"%char then s' else s
  end.

Definition Base (path : string) : string :=
  match path with
  | EmptyString => "."
  | _ =>
      match TrimRight path ["/"%char] with
      | EmptyString => "/"
      | stripped => afterLastSlash stripped
      end
  end.

(** The verb [%d] of [fmt]. *)
Definition fmtInt (z : Z) : string := NilZero.string_of_int (Z.to_int z).

End Go.

(** ** Data model (embed.go, video.go, main.go)

    A field [F] of a struct [T] is named [T_F]. *)

Infix "==" := String.eqb (at level 70, no associativity) : string_scope.

Record BlobRef := { BlobRef_Link : string }.

Record Blob := {
  Blob_Type : string;
  Blob_Ref : BlobRef;
  Blob_MimeType : string;
  Blob_Size : Z
}.

Record AspectRatio := { AspectRatio_Width : Z; AspectRatio_Height : Z }.

Record EmbedImage := {
  EmbedImage_Alt : string;
  EmbedImage_Image : Blob;
  EmbedImage_AspectRatio : option AspectRatio
}.

Record EmbedImages := {
  EmbedImages_Type : string;
  EmbedImages_Images : list EmbedImage
}.

Record Caption := { Caption_Lang : string; Caption_File : Blob }.

Record EmbedVideo := {
  EmbedVideo_Type : string;
  EmbedVideo_Video : Blob;
  EmbedVideo_AspectRatio : option AspectRatio;
  EmbedVideo_Alt : string;
  EmbedVideo_Captions : list Caption
}.

Record EmbedExternalContent := {
  EmbedExternalContent_URI : string;
  EmbedExternalContent_Title : string;
  EmbedExternalContent_Description : string
}.

Record EmbedExternal := {
  EmbedExternal_Type : string;
  EmbedExternal_External : EmbedExternalContent
}.

Record RichTextIndex := {
  RichTextIndex_ByteStart : Z;
  RichTextIndex_ByteEnd : Z
}.

Record RichTextFeature := {
  RichTextFeature_Type : string;
  RichTextFeature_URI : string
}.

Record RichTextFacet := {
  RichTextFacet_Index : RichTextIndex;
  RichTextFacet_Features : list RichTextFeature
}.

Record ServiceAuthResponse := { ServiceAuthResponse_Token : string }.

Record VideoJobStatus := {
  VideoJobStatus_JobID : string;
  VideoJobStatus_State : string;
  VideoJobStatus_Progress : Z;
  VideoJobStatus_Blob : option Blob;
  VideoJobStatus_Error : string;
  VideoJobStatus_Message : string
}.

Record VideoUploadResponse := {
  VideoUploadResponse_JobID : string;
  VideoUploadResponse_Status : option VideoJobStatus
}.

(** The anonymous struct [errorResp] of [getVideoJobStatus]. *)
Record JobErrorResponse := {
  JobErrorResponse_Error : string;
  JobErrorResponse_Message : string;
  JobErrorResponse_Status : option VideoJobStatus
}.

Record SessionResponse := {
  SessionResponse_AccessToken : string;
  SessionResponse_UserID : string
}.

(** The field [Embed interface{}] of a post: a nil interface, or a pointer of
    one of three types, which may itself be nil. *)
Inductive Embed : Type :=
| EmbedNil
| EmbedOfVideo (p : option EmbedVideo)
| EmbedOfImages (p : option EmbedImages)
| EmbedOfExternal (p : option EmbedExternal).

Record Post := {
  Post_Type : string;
  Post_Text : string;
  Post_CreatedAt : string;
  Post_Langs : list string;
  Post_Facets : list RichTextFacet;
  Post_Embed : Embed
}.

Record ActionInputs := {
  ActionInputs_PDSURL : string;
  ActionInputs_Handle : string;
  ActionInputs_Password : string;
  ActionInputs_Text : string;
  ActionInputs_Lang : list string;
  ActionInputs_LogLevel : string;
  ActionInputs_EnableEmbeds : bool;
  ActionInputs_ImagePaths : string;
  ActionInputs_ImageAltTexts : string;
  ActionInputs_VideoPath : string;
  ActionInputs_VideoAltText : string
}.

(** ** Errors

    One constructor for each error value the program makes with
    [fmt.Errorf]; [LibraryError] is an error made by the Go library (file
    system, transport, JSON).  [errorString] is the method [Error()]. *)

Inductive error : Type :=
| LibraryError (msg : string)
| CreateSessionRejected (code : Z)
| PublishRejected (code : Z) (body : string)
| UploadBlobRejected (code : Z) (body : string)
| ImageTooLarge (path : string) (got : Z)
| UnsupportedImageFormat (path : string)
| ReadImageFailed (path : string) (cause : error)
| UploadImageFailed (path : string) (cause : error)
| TooManyImages (got : Z)
| VideoTooLarge (path : string) (got : Z)
| UnsupportedVideoFormat (path : string)
| ReadVideoFailed (path : string) (cause : error)
| ServiceAuthRejected (code : Z)
| ServiceAuthFailed (cause : error)
| UploadVideoRejected (code : Z) (body : string)
| UploadVideoFailed (cause : error)
| JobStatusRejected (code : Z)
| ProcessingTimedOut
| ProcessingFailed (msg : string)
| VideoProcessingFailed (cause : error).

Inductive result (A : Type) : Type :=
| Ok (a : A)
| Err (e : error).

Arguments Ok {A} a.
Arguments Err {A} e.

(** Constants of image.go and video.go.  Durations are in nanoseconds, as
    [time.Duration] is. *)
Definition maxImagesPerPost : Z := 4.
Definition maxImageSize : Z := 1000000.
Definition videoServiceHost : string := "video.bsky.app".
Definition maxVideoSize : Z := 50 * 1024 * 1024.
Definition second : Z := 1000000000.
Definition minute : Z := 60 * second.
Definition videoStatusPollDelay : Z := 2 * second.
Definition videoStatusMaxWait : Z := 5 * minute.

Fixpoint errorString (e : error) : string :=
  match e with
  | LibraryError msg => msg
  | CreateSessionRejected code =>
      "failed to create session, status code: " ++ Go.fmtInt code
  | PublishRejected code body =>
      "failed to publish post, status code: " ++ Go.fmtInt code
      ++ ", body: " ++ body
  | UploadBlobRejected code body =>
      "failed to upload blob, status code: " ++ Go.fmtInt code
      ++ ", body: " ++ body
  | ImageTooLarge path got =>
      "image " ++ path ++ " exceeds maximum size of "
      ++ Go.fmtInt maxImageSize ++ " bytes (got " ++ Go.fmtInt got ++ " bytes)"
  | UnsupportedImageFormat path =>
      "unsupported image format for file " ++ path
      ++ " (supported: JPEG, PNG, GIF, WebP)"
  | ReadImageFailed path cause =>
      "failed to read image file " ++ path ++ ": " ++ errorString cause
  | UploadImageFailed path cause =>
      "failed to upload image " ++ path ++ ": " ++ errorString cause
  | TooManyImages got =>
      "maximum " ++ Go.fmtInt maxImagesPerPost
      ++ " images allowed per post, got " ++ Go.fmtInt got
  | VideoTooLarge path got =>
      "video " ++ path ++ " exceeds maximum size of "
      ++ Go.fmtInt maxVideoSize ++ " bytes (got " ++ Go.fmtInt got ++ " bytes)"
  | UnsupportedVideoFormat path =>
      "unsupported video format for file " ++ path
      ++ " (supported: MP4, MOV, WebM)"
  | ReadVideoFailed path cause =>
      "failed to read video file " ++ path ++ ": " ++ errorString cause
  | ServiceAuthRejected code =>
      "failed to get service auth token, status code: " ++ Go.fmtInt code
  | ServiceAuthFailed cause =>
      "failed to get service auth token: " ++ errorString cause
  | UploadVideoRejected code body =>
      "failed to upload video, status code: " ++ Go.fmtInt code
      ++ ", body: " ++ body
  | UploadVideoFailed cause =>
      "failed to upload video: " ++ errorString cause
  | JobStatusRejected code =>
      "failed to get job status, status code: " ++ Go.fmtInt code
  | ProcessingTimedOut => "video processing timed out after 5m0s"
  | ProcessingFailed msg => "video processing failed: " ++ msg
  | VideoProcessingFailed cause =>
      "video processing failed: " ++ errorString cause
  end.

(** ** The outside world

    Every request the program sends is a [Call], named after the function
    that sends it and carrying what that function puts into the request.  A
    request that cannot be built or sent, and a reply whose body cannot be
    read, show as [TransportError]. *)

Inductive Call : Type :=
| CallCreateSession (pdsURL handle password : string)
| CallCreateRecord (pdsURL accessToken repo : string) (post : Post)
| CallUploadBlob (pdsURL accessToken : string) (data : list Byte.byte)
    (mimeType : string)
| CallGetServiceAuth (pdsURL accessToken aud lxm : string) (exp : Z)
| CallUploadVideo (userDID serviceToken : string) (videoData : list Byte.byte)
    (filename mimeType : string)
| CallGetJobStatus (serviceToken jobID : string)
| CallGet (url : string).

Inductive HttpResult : Type :=
| TransportError (msg : string)
| Response (StatusCode : Z) (ContentType : string) (Body : string).

Inductive Event : Type :=
| EvReadFile (path : string)
| EvCall (c : Call)
| EvSleep (d : Z).

(** What the Go library computes from tables and parsers that are not part
    of the repository: Unicode case mapping, the JSON decoders of the reply
    structs, the image header decoder, the regular expressions of facet.go,
    [url.Parse] and the RFC 3339 layout of a time. *)
Record Runtime := {
  lowerRunes : string -> string;
  decodeSession : string -> result SessionResponse;
  decodeBlob : string -> result Blob;
  decodeServiceAuth : string -> result ServiceAuthResponse;
  decodeVideoUpload : string -> result VideoUploadResponse;
  decodeJobError : string -> option JobErrorResponse;
  decodeJobStatus : string -> result VideoJobStatus;
  decodeImageConfig : list Byte.byte -> option (Z * Z);
  findAllURLs : string -> list (string * (Z * Z));
  urlParses : string -> bool;
  findStringSubmatch : string -> string -> list string;
  formatRFC3339 : Z -> string
}.

(** The environment of one run.  Events are numbered in the order they
    happen: [readFile n] and [respond n] are what the file system and the
    network answer to event [n], and [elapse n] is the time, in nanoseconds,
    that event [n] takes (for a sleep: beyond the duration asked for).  The
    clock is monotonic, so no event takes negative time. *)
Record Env := {
  readFile : nat -> string -> result (list Byte.byte);
  respond : nat -> Call -> HttpResult;
  elapse : nat -> N;
  bootUnixNano : Z
}.

(** The state of a run: the monotonic clock, in nanoseconds since the
    process started, and the events so far, oldest first. *)
Record World := { now : Z; trace : list Event }.

(** How [main] ends. *)
Inductive Exit : Type :=
| Returned
| OsExit (code : Z)
| PanicNilPointer
| PanicIndexOutOfRange.

(** Computations on the world.  [None] is a loop that did not finish within
    its fuel. *)
Definition M (A : Type) : Type := World -> option (A * World).

Definition ret {A : Type} (a : A) : M A := fun w => Some (a, w).

Definition bind {A B : Type} (m : M A) (k : A -> M B) : M B :=
  fun w =>
    match m w with
    | Some (a, w') => k a w'
    | None => None
    end.

Notation "x <- m ;; k" := (bind m (fun x => k))
  (at level 61, m at next level, right associativity).

(** ** The program *)

Section Program.

Variable rt : Runtime.
Variable env : Env.

(** *** Primitive effects *)

Definition happen (ev : Event) (asked : Z) (w : World) : World :=
  {| now := now w + asked + Z.of_N (elapse env (List.length (trace w)));
     trace := (trace w ++ [ev])%list |}.

(** [client.Do(request)] and reading the reply. *)
Definition httpDo (c : Call) : M HttpResult :=
  fun w => Some (respond env (List.length (trace w)) c, happen (EvCall c) 0 w).

(** [os.ReadFile]. *)
Definition osReadFile (path : string) : M (result (list Byte.byte)) :=
  fun w =>
    Some (readFile env (List.length (trace w)) path, happen (EvReadFile path) 0 w).

(** [time.Sleep]: pauses for at least the duration asked. *)
Definition timeSleep (d : Z) : M unit :=
  fun w => Some (tt, happen (EvSleep d) d w).

(** [time.Now()], as the reading of the monotonic clock. *)
Definition timeNow : M Z := fun w => Some (now w, w).

(** [time.Now().Unix()] and the wall-clock reading in nanoseconds. *)
Definition unixNano (t : Z) : Z := bootUnixNano env + t.
Definition unixSeconds (t : Z) : Z := unixNano t / second.

(** *** main.go: session, record and blob calls *)

Definition createSession (pdsURL handle password : string)
  : M (result SessionResponse) :=
  resp <- httpDo (CallCreateSession pdsURL handle password) ;;
  match resp with
  | TransportError err => ret (Err (LibraryError err))
  | Response code _ body =>
      if negb (code =? 200) then ret (Err (CreateSessionRejected code))
      else ret (decodeSession rt body)
  end.

(** [publishPost] returns an [error], nil on success. *)
Definition publishPost (pdsURL : string) (session : SessionResponse)
    (post : Post) : M (option error) :=
  resp <- httpDo (CallCreateRecord pdsURL (SessionResponse_AccessToken session)
                    (SessionResponse_UserID session) post) ;;
  match resp with
  | TransportError err => ret (Some (LibraryError err))
  | Response code _ body =>
      if negb (code =? 200) then ret (Some (PublishRejected code body))
      else ret None
  end.

Definition uploadBlob (pdsURL accessToken : string) (data : list Byte.byte)
    (mimeType : string) : M (result Blob) :=
  resp <- httpDo (CallUploadBlob pdsURL accessToken data mimeType) ;;
  match resp with
  | TransportError err => ret (Err (LibraryError err))
  | Response code _ body =>
      if negb (code =? 200) then ret (Err (UploadBlobRejected code body))
      else ret (decodeBlob rt body)
  end.

(** *** image.go *)

Definition detectImageMimeType (filename : string) : string :=
  let ext := Go.ToLower (lowerRunes rt) (Go.Ext filename) in
  if (ext == ".jpg") || (ext == ".jpeg") then "image/jpeg"
  else if ext == ".png" then "image/png"
  else if ext == ".gif" then "image/gif"
  else if ext == ".webp" then "image/webp"
  else "".

(** [validateImageData] returns an [error], nil when the image is valid. *)
Definition validateImageData (path : string) (imageData : list Byte.byte)
  : option error :=
  if Go.lenSlice imageData >? maxImageSize
  then Some (ImageTooLarge path (Go.lenSlice imageData))
  else
    let mimeType := detectImageMimeType path in
    if mimeType == "" then Some (UnsupportedImageFormat path)
    else None.

Definition getImageDimensions (imageData : list Byte.byte)
  : option AspectRatio :=
  match decodeImageConfig rt imageData with
  | None => None
  | Some (width, height) =>
      Some {| AspectRatio_Width := width; AspectRatio_Height := height |}
  end.

(** [index] is the position of an image in the batch, as [range paths] gives
    it, hence a natural number.  [altTexts[index]] is read only when
    [index < len(altTexts)]. *)
Definition resolveAltText (index : nat) (altTexts : list string) : string :=
  if (index <? List.length altTexts)%nat
     && negb (Go.TrimSpace (nth index altTexts "") == "")
  then Go.TrimSpace (nth index altTexts "")
  else if (List.length altTexts =? 1)%nat
          && negb (Go.TrimSpace (nth 0 altTexts "") == "")
  then Go.TrimSpace (nth 0 altTexts "")
  else "Image " ++ Go.fmtInt (Z.of_nat index + 1).

Definition parseImagePaths (imagePaths : string) : list string :=
  if imagePaths == "" then []
  else
    let paths := Go.Split imagePaths ","%char in
    fold_left
      (fun validPaths path =>
         let trimmed := Go.TrimSpace path in
         if negb (trimmed == "") then (validPaths ++ [trimmed])%list
         else validPaths)
      paths [].

Definition processImage (pdsURL accessToken path altText : string)
  : M (result EmbedImage) :=
  r <- osReadFile path ;;
  match r with
  | Err err => ret (Err (ReadImageFailed path err))
  | Ok imageData =>
      match validateImageData path imageData with
      | Some err => ret (Err err)
      | None =>
          let mimeType := detectImageMimeType path in
          b <- uploadBlob pdsURL accessToken imageData mimeType ;;
          match b with
          | Err err => ret (Err (UploadImageFailed path err))
          | Ok blob =>
              let aspectRatio := getImageDimensions imageData in
              ret (Ok {| EmbedImage_Alt := altText;
                         EmbedImage_Image := blob;
                         EmbedImage_AspectRatio := aspectRatio |})
          end
      end
  end.

(** The loop [for i, path := range paths] of [processImages], from
    position [i] on, with the images collected so far. *)
Fixpoint processImagesFrom (pdsURL accessToken : string) (alts : list string)
    (i : nat) (paths : list string) (embedImages : list EmbedImage)
  : M (result (list EmbedImage)) :=
  match paths with
  | [] => ret (Ok embedImages)
  | path :: rest =>
      let altText := resolveAltText i alts in
      r <- processImage pdsURL accessToken path altText ;;
      match r with
      | Err err => ret (Err err)
      | Ok embedImage =>
          processImagesFrom pdsURL accessToken alts (S i) rest
            (embedImages ++ [embedImage])%list
      end
  end.

Definition processImages (pdsURL accessToken imagePaths altTexts : string)
  : M (result (option EmbedImages)) :=
  let paths := parseImagePaths imagePaths in
  if Go.lenSlice paths =? 0 then ret (Ok None)
  else if Go.lenSlice paths >? maxImagesPerPost
  then ret (Err (TooManyImages (Go.lenSlice paths)))
  else
    let alts := Go.Split altTexts ","%char in
    r <- processImagesFrom pdsURL accessToken alts 0 paths [] ;;
    match r with
    | Err err => ret (Err err)
    | Ok embedImages =>
        ret (Ok (Some {| EmbedImages_Type := "app.bsky.embed.images";
                         EmbedImages_Images := embedImages |}))
    end.

(** *** video.go *)

Definition detectVideoMimeType (filename : string) : string :=
  let ext := Go.ToLower (lowerRunes rt) (Go.Ext filename) in
  if ext == ".mp4" then "video/mp4"
  else if ext == ".mov" then "video/quicktime"
  else if ext == ".webm" then "video/webm"
  else "".

Definition validateVideoData (path : string) (videoData : list Byte.byte)
  : option error :=
  if Go.lenSlice videoData >? maxVideoSize
  then Some (VideoTooLarge path (Go.lenSlice videoData))
  else
    let mimeType := detectVideoMimeType path in
    if mimeType == "" then Some (UnsupportedVideoFormat path)
    else None.

(** The audience is the host of the constant [videoServiceURL], which
    [url.Parse] always parses; marshalling the request body cannot fail. *)
Definition getServiceAuthToken (pdsURL accessToken userDID : string)
  : M (result string) :=
  let audience := "did:web:" ++ videoServiceHost in
  t <- timeNow ;;
  let expiryTime := unixSeconds t + 1800 in
  resp <- httpDo (CallGetServiceAuth pdsURL accessToken audience
                    "com.atproto.repo.uploadBlob" expiryTime) ;;
  match resp with
  | TransportError err => ret (Err (LibraryError err))
  | Response code _ body =>
      if negb (code =? 200) then ret (Err (ServiceAuthRejected code))
      else
        match decodeServiceAuth rt body with
        | Err err => ret (Err err)
        | Ok authResp => ret (Ok (ServiceAuthResponse_Token authResp))
        end
  end.

Definition uploadVideoToService (userDID serviceToken : string)
    (videoData : list Byte.byte) (filename mimeType : string)
  : M (result VideoUploadResponse) :=
  resp <- httpDo (CallUploadVideo userDID serviceToken videoData filename
                    mimeType) ;;
  match resp with
  | TransportError err => ret (Err (LibraryError err))
  | Response code _ body =>
      if negb (code =? 200) && negb (code =? 201)
      then ret (Err (UploadVideoRejected code body))
      else ret (decodeVideoUpload rt body)
  end.

Definition getVideoJobStatus (serviceToken jobID : string)
  : M (result VideoJobStatus) :=
  resp <- httpDo (CallGetJobStatus serviceToken jobID) ;;
  match resp with
  | TransportError err => ret (Err (LibraryError err))
  | Response code _ body =>
      if negb (code =? 200) then
        match decodeJobError rt body with
        | Some errorResp =>
            match JobErrorResponse_Status errorResp with
            | Some status =>
                if (JobErrorResponse_Error errorResp == "already_exists")
                   && (match VideoJobStatus_Blob status with
                       | Some _ => true
                       | None => false
                       end)
                then ret (Ok status)
                else ret (Err (JobStatusRejected code))
            | None => ret (Err (JobStatusRejected code))
            end
        | None => ret (Err (JobStatusRejected code))
        end
      else ret (decodeJobStatus rt body)
  end.

(** The loop of [pollVideoJobUntilComplete]; each unit of fuel pays for one
    iteration. *)
Fixpoint pollLoop (fuel : nat) (serviceToken jobID : string) (startTime : Z)
  : M (result Blob) :=
  match fuel with
  | O => fun _ => None
  | S fuel' =>
      t <- timeNow ;;
      if t - startTime >? videoStatusMaxWait
      then ret (Err ProcessingTimedOut)
      else
        r <- getVideoJobStatus serviceToken jobID ;;
        match r with
        | Err err => ret (Err err)
        | Ok status =>
            match VideoJobStatus_Blob status with
            | Some blob => ret (Ok blob)
            | None =>
                if (VideoJobStatus_State status == "failed")
                   || negb (VideoJobStatus_Error status == "")
                then ret (Err (ProcessingFailed (VideoJobStatus_Error status)))
                else
                  _ <- timeSleep videoStatusPollDelay ;;
                  pollLoop fuel' serviceToken jobID startTime
            end
        end
  end.

Definition pollVideoJobUntilComplete (fuel : nat)
    (serviceToken jobID : string) : M (result Blob) :=
  startTime <- timeNow ;;
  pollLoop fuel serviceToken jobID startTime.

Definition processVideo (fuel : nat)
    (pdsURL accessToken userDID path altText : string)
  : M (result EmbedVideo) :=
  r <- osReadFile path ;;
  match r with
  | Err err => ret (Err (ReadVideoFailed path err))
  | Ok videoData =>
      match validateVideoData path videoData with
      | Some err => ret (Err err)
      | None =>
          let mimeType := detectVideoMimeType path in
          let filename := Go.Base path in
          tok <- getServiceAuthToken pdsURL accessToken userDID ;;
          match tok with
          | Err err => ret (Err (ServiceAuthFailed err))
          | Ok serviceToken =>
              up <- uploadVideoToService userDID serviceToken videoData
                      filename mimeType ;;
              match up with
              | Err err => ret (Err (UploadVideoFailed err))
              | Ok uploadResp =>
                  match VideoUploadResponse_Status uploadResp with
                  | Some {| VideoJobStatus_Blob := Some blob |} =>
                      ret (Ok {| EmbedVideo_Type := "app.bsky.embed.video";
                                 EmbedVideo_Video := blob;
                                 EmbedVideo_AspectRatio := None;
                                 EmbedVideo_Alt := altText;
                                 EmbedVideo_Captions := [] |})
                  | _ =>
                      p <- pollVideoJobUntilComplete fuel serviceToken
                             (VideoUploadResponse_JobID uploadResp) ;;
                      match p with
                      | Err err => ret (Err (VideoProcessingFailed err))
                      | Ok blob =>
                          ret (Ok {| EmbedVideo_Type := "app.bsky.embed.video";
                                     EmbedVideo_Video := blob;
                                     EmbedVideo_AspectRatio := None;
                                     EmbedVideo_Alt := altText;
                                     EmbedVideo_Captions := [] |})
                      end
                  end
              end
          end
      end
  end.

Definition processVideos (fuel : nat)
    (pdsURL accessToken userDID videoPath altText : string)
  : M (result (option EmbedVideo)) :=
  if videoPath == "" then ret (Ok None)
  else
    let path := Go.TrimSpace videoPath in
    if path == "" then ret (Ok None)
    else
      let altText := if altText == "" then "Video" else altText in
      r <- processVideo fuel pdsURL accessToken userDID path
             (Go.TrimSpace altText) ;;
      match r with
      | Err err => ret (Err err)
      | Ok embed => ret (Ok (Some embed))
      end.

(** *** facet.go *)

(** [findAllURLs] gives the matches of [urlRegex] in the text, each with its
    start and end index, which lie within the text. *)
Definition parseRichTextFacets (text : string) : list RichTextFacet :=
  fold_left
    (fun facets m =>
       let '(matched, (start, originalEnd)) := m in
       let cleanMatch :=
         Go.TrimRight matched
           ["."%char; ","%char; "!"%char; "?"%char; ";"%char; ":"%char] in
       if negb (urlParses rt cleanMatch) then facets
       else
         let trimmedLength := Go.len matched - Go.len cleanMatch in
         let end_ := originalEnd - trimmedLength in
         let byteStart := Go.len (Go.slicePrefix text start) in
         let byteEnd := Go.len (Go.slicePrefix text end_) in
         (facets ++
           [ {| RichTextFacet_Index :=
                  {| RichTextIndex_ByteStart := byteStart;
                     RichTextIndex_ByteEnd := byteEnd |};
                RichTextFacet_Features :=
                  [ {| RichTextFeature_Type := "app.bsky.richtext.facet#link";
                       RichTextFeature_URI := cleanMatch |} ] |} ])%list)
    (findAllURLs rt text) [].

(** The patterns of [fetchLinkMetadata]. *)
Definition dq : string := String (ascii_of_nat 34) EmptyString.
Definition titlePattern : string := "<title[^>]*>([^<]*)</title>".
Definition metaPattern (attr name : string) : string :=
  "<meta[^>]*" ++ attr ++ "=" ++ dq ++ name ++ dq ++ "[^>]*content=" ++ dq
  ++ "([^" ++ dq ++ "]*)" ++ dq.

Definition extractMetaContent (html pattern : string) : string :=
  let matches := findStringSubmatch rt ("(?i)" ++ pattern) html in
  match matches with
  | _ :: group :: _ => Go.TrimSpace group
  | _ => ""
  end.

Definition truncate (s : string) (limit : Z) : string :=
  if Go.len s >? limit then Go.slicePrefix s (limit - 3) ++ "..." else s.

Definition fetchLinkMetadata (url : string) : M (option EmbedExternal) :=
  resp <- httpDo (CallGet url) ;;
  match resp with
  | TransportError _ => ret None
  | Response _ contentType body =>
      if negb (Go.Contains (Go.ToLower (lowerRunes rt) contentType) "text/html")
      then ret None
      else
        let html := body in
        let title := extractMetaContent html titlePattern in
        let title :=
          if title == ""
          then extractMetaContent html (metaPattern "property" "og:title")
          else title in
        let description :=
          extractMetaContent html (metaPattern "property" "og:description") in
        let description :=
          if description == ""
          then extractMetaContent html (metaPattern "name" "description")
          else description in
        if title == "" then ret None
        else
          ret (Some {| EmbedExternal_Type := "app.bsky.embed.external";
                       EmbedExternal_External :=
                         {| EmbedExternalContent_URI := url;
                            EmbedExternalContent_Title := truncate title 100;
                            EmbedExternalContent_Description :=
                              truncate description 200 |} |})
  end.

(** *** main.go: the orchestrator *)

(** The embed selection of [main] either goes on with an embed or ends the
    process. *)
Inductive Selection : Type :=
| Selected (embed : Embed)
| Ended (how : Exit).

(** Lines 209-237 of [main].  The image branch reads
    [len(imageEmbed.Images)] for its log line, through a pointer that may be
    nil; the link branch reads [facets[0].Features[0]]. *)
Definition selectEmbed (fuel : nat) (args : ActionInputs)
    (session : SessionResponse) (facets : list RichTextFacet) : M Selection :=
  if negb (ActionInputs_VideoPath args == "") then
    r <- processVideos fuel (ActionInputs_PDSURL args)
           (SessionResponse_AccessToken session)
           (SessionResponse_UserID session)
           (ActionInputs_VideoPath args) (ActionInputs_VideoAltText args) ;;
    match r with
    | Err _ => ret (Ended (OsExit 1))
    | Ok videoEmbed => ret (Selected (EmbedOfVideo videoEmbed))
    end
  else if negb (ActionInputs_ImagePaths args == "") then
    r <- processImages (ActionInputs_PDSURL args)
           (SessionResponse_AccessToken session)
           (ActionInputs_ImagePaths args) (ActionInputs_ImageAltTexts args) ;;
    match r with
    | Err _ => ret (Ended (OsExit 1))
    | Ok imageEmbed =>
        match imageEmbed with
        | None => ret (Ended PanicNilPointer)
        | Some images =>
            let count := Go.lenSlice (EmbedImages_Images images) in
            ret (Selected (EmbedOfImages imageEmbed))
        end
    end
  else if ActionInputs_EnableEmbeds args && (Go.lenSlice facets >? 0) then
    match facets with
    | [] => ret (Ended PanicIndexOutOfRange)
    | facet :: _ =>
        match RichTextFacet_Features facet with
        | [] => ret (Ended PanicIndexOutOfRange)
        | feature :: _ =>
            let firstURL := RichTextFeature_URI feature in
            e <- fetchLinkMetadata firstURL ;;
            ret (Selected (EmbedOfExternal e))
        end
    end
  else ret (Selected EmbedNil).

Definition main (fuel : nat) (args : ActionInputs) : M Exit :=
  s <- createSession (ActionInputs_PDSURL args) (ActionInputs_Handle args)
         (ActionInputs_Password args) ;;
  match s with
  | Err _ => ret (OsExit 1)
  | Ok session =>
      let facets := parseRichTextFacets (ActionInputs_Text args) in
      sel <- selectEmbed fuel args session facets ;;
      match sel with
      | Ended how => ret how
      | Selected embed =>
          t <- timeNow ;;
          let post :=
            {| Post_Type := "app.bsky.feed.post";
               Post_Text := ActionInputs_Text args;
               Post_CreatedAt := formatRFC3339 rt (unixNano t);
               Post_Langs := ActionInputs_Lang args;
               Post_Facets := facets;
               Post_Embed := embed |} in
          p <- publishPost (ActionInputs_PDSURL args) session post ;;
          match p with
          | Some _ => ret (OsExit 1)
          | None => ret Returned
          end
      end
  end.

End Program.

(** ** Observing a run *)

(** The events of the video processor on the file [path]. *)
Definition videoEvent (path : string) (ev : Event) : bool :=
  match ev with
  | EvReadFile p => p == path
  | EvSleep _ => true
  | EvCall (CallGetServiceAuth _ _ _ _ _) => true
  | EvCall (CallUploadVideo _ _ _ _ _) => true
  | EvCall (CallGetJobStatus _ _) => true
  | _ => false
  end.

(** The events of the image processor on the files [paths]. *)
Definition imageEvent (paths : list string) (ev : Event) : bool :=
  match ev with
  | EvReadFile p => existsb (String.eqb p) paths
  | EvCall (CallUploadBlob _ _ _ _) => true
  | _ => false
  end.

(** A blob upload to [pdsURL] with [accessToken] that carries at most
    [maxImageSize] bytes under one of the four image types; events that are
    not calls pass. *)
Definition imageUploadWithinLimits (pdsURL accessToken : string) (ev : Event)
  : bool :=
  match ev with
  | EvCall (CallUploadBlob p t data mimeType) =>
      (p == pdsURL) && (t == accessToken)
      && (Go.lenSlice data <=? maxImageSize)
      && existsb (String.eqb mimeType)
           ["image/jpeg"; "image/png"; "image/gif"; "image/webp"]
  | EvCall _ => false
  | _ => true
  end.



(** The events of the polling loop for [jobID] with [serviceToken]: a
    job-status call for that job with that token, or a sleep of the poll
    delay. *)
Definition pollEvent (serviceToken jobID : string) (ev : Event) : bool :=
  match ev with
  | EvCall (CallGetJobStatus t j) => (t == serviceToken) && (j == jobID)
  | EvSleep d => d =? videoStatusPollDelay
  | _ => false
  end.

Fixpoint countPolls (evs : list Event) : nat :=
  match evs with
  | [] => 0
  | EvCall (CallGetJobStatus _ _) :: evs' => S (countPolls evs')
  | _ :: evs' => countPolls evs'
  end.

(** The requests of the video processor for the file [path] are well
    formed: the token exchange goes to [pdsURL] with [accessToken], for the
    audience of the video service and the right to upload a blob; the upload
    is for [userDID], under the base name of the file, and carries at most
    [maxVideoSize] bytes under one of the three video types. *)
Definition videoRequestWellFormed (pdsURL accessToken userDID path : string)
    (ev : Event) : bool :=
  match ev with
  | EvCall (CallGetServiceAuth p t aud lxm _) =>
      (p == pdsURL) && (t == accessToken)
      && (aud == "did:web:video.bsky.app")
      && (lxm == "com.atproto.repo.uploadBlob")
  | EvCall (CallUploadVideo did _ data filename mimeType) =>
      (did == userDID) && (filename == Go.Base path)
      && (Go.lenSlice data <=? maxVideoSize)
      && existsb (String.eqb mimeType)
           ["video/mp4"; "video/quicktime"; "video/webm"]
  | EvCall (CallGetJobStatus _ _) => true
  | EvCall _ => false
  | _ => true
  end.

(** The calls to the video service carry [serviceToken]. *)
Definition usesServiceToken (serviceToken : string) (ev : Event) : bool :=
  match ev with
  | EvCall (CallUploadVideo _ t _ _ _) => t == serviceToken
  | EvCall (CallGetJobStatus t _) => t == serviceToken
  | EvSleep _ => true
  | _ => false
  end.

(** The publications (createRecord calls) in a list of events. *)
Definition notPublication (ev : Event) : bool :=
  match ev with
  | EvCall (CallCreateRecord _ _ _ _) => false
  | _ => true
  end.

Fixpoint countPublications (evs : list Event) : nat :=
  match evs with
  | [] => 0
  | EvCall (CallCreateRecord _ _ _ _) :: evs' => S (countPublications evs')
  | _ :: evs' => countPublications evs'
  end.

(** A computation that returns from every world. *)
Definition total {A : Type} (m : M A) : Prop :=
  forall w, exists a w', m w = Some (a, w').

(** A computation emits [P] when every event it adds to the trace
    satisfies [P]. *)
Definition emits {A : Type} (P : Event -> bool) (m : M A) : Prop :=
  forall w a w',
    m w = Some (a, w') ->
    exists evs, trace w' = (trace w ++ evs)%list /\ forallb P evs = true.

(** ** Sample runtime and environments, for concrete runs *)

Definition sampleBlob : Blob :=
  {| Blob_Type := "blob";
     Blob_Ref := {| BlobRef_Link := "bafkreimockblob" |};
     Blob_MimeType := "video/mp4";
     Blob_Size := 1024 |}.

Definition sampleStatus (state : string) (blob : option Blob) (err : string)
  : VideoJobStatus :=
  {| VideoJobStatus_JobID := "job123";
     VideoJobStatus_State := state;
     VideoJobStatus_Progress := 0;
     VideoJobStatus_Blob := blob;
     VideoJobStatus_Error := err;
     VideoJobStatus_Message := "" |}.

(** A runtime whose decoders know a few reply bodies by name. *)
Definition sampleRuntime : Runtime :=
  {| lowerRunes := fun s => s;
     decodeSession := fun body =>
       if body == "session"
       then Ok {| SessionResponse_AccessToken := "jwt";
                  SessionResponse_UserID := "did:plc:test" |}
       else Err (LibraryError "unexpected end of JSON input");
     decodeBlob := fun body =>
       if body == "blob" then Ok sampleBlob
       else Err (LibraryError "unexpected end of JSON input");
     decodeServiceAuth := fun body =>
       if body == "token"
       then Ok {| ServiceAuthResponse_Token := "service-token" |}
       else Err (LibraryError "unexpected end of JSON input");
     decodeVideoUpload := fun body =>
       if body == "job"
       then Ok {| VideoUploadResponse_JobID := "job123";
                  VideoUploadResponse_Status := None |}
       else if body == "cached"
       then Ok {| VideoUploadResponse_JobID := "job123";
                  VideoUploadResponse_Status :=
                    Some (sampleStatus "" (Some sampleBlob) "") |}
       else Err (LibraryError "unexpected end of JSON input");
     decodeJobError := fun body =>
       if body == "exists"
       then Some {| JobErrorResponse_Error := "already_exists";
                    JobErrorResponse_Message := "";
                    JobErrorResponse_Status :=
                      Some (sampleStatus "JOB_STATE_COMPLETED"
                              (Some sampleBlob) "") |}
       else if body == "denied"
       then Some {| JobErrorResponse_Error := "AuthMissing";
                    JobErrorResponse_Message := "";
                    JobErrorResponse_Status := None |}
       else None;
     decodeJobStatus := fun body =>
       if body == "pending"
       then Ok (sampleStatus "JOB_STATE_ENCODING" None "")
       else if body == "complete"
       then Ok (sampleStatus "JOB_STATE_COMPLETED" (Some sampleBlob) "")
       else if body == "failed"
       then Ok (sampleStatus "failed" None "transcode error")
       else Err (LibraryError "unexpected end of JSON input");
     decodeImageConfig := fun _ => None;
     findAllURLs := fun text =>
       if text == "see https://example.com."
       then [("https://example.com.", (4, 24))]
       else [];
     urlParses := fun _ => true;
     findStringSubmatch := fun _ _ => [];
     formatRFC3339 := fun _ => "2026-01-01T00:00:00Z" |}.

(** A cooperative server: every call succeeds; the reply to a job-status
    call and the time each event takes are chosen by the caller. *)
Definition sampleRespond (jobReply : HttpResult) (c : Call) : HttpResult :=
  match c with
  | CallCreateSession _ _ _ => Response 200 "application/json" "session"
  | CallCreateRecord _ _ _ _ => Response 200 "application/json" "{}"
  | CallUploadBlob _ _ _ _ => Response 200 "application/json" "blob"
  | CallGetServiceAuth _ _ _ _ _ => Response 200 "application/json" "token"
  | CallUploadVideo _ _ _ _ _ => Response 200 "application/json" "job"
  | CallGetJobStatus _ _ => jobReply
  | CallGet _ => Response 200 "text/plain" ""
  end.

Definition sampleEnvOf (jobReply : nat -> HttpResult) (took : nat -> N) : Env :=
  {| readFile := fun _ _ => Ok [Byte.x00; Byte.x01; Byte.x02];
     respond := fun n => sampleRespond (jobReply n);
     elapse := took;
     bootUnixNano := 1767225600 * second |}.

Definition pendingReply : HttpResult := Response 200 "application/json" "pending".
Definition completeReply : HttpResult := Response 200 "application/json" "complete".
Definition existsReply : HttpResult := Response 409 "application/json" "exists".
Definition deniedReply : HttpResult := Response 401 "application/json" "denied".

(** Video jobs stay pending for ever. *)
Definition sampleEnv : Env := sampleEnvOf (fun _ => pendingReply) (fun _ => 0%N).

(** The first event takes 301 seconds and finds the job pending; from then
    on the job is complete. *)
Definition lateEnv : Env :=
  sampleEnvOf (fun n => if (n =? 0)%nat then pendingReply else completeReply)
    (fun n => if (n =? 0)%nat then 301000000000%N else 0%N).

(** The service answers 409 already_exists with the finished job. *)
Definition existsEnv : Env := sampleEnvOf (fun _ => existsReply) (fun _ => 0%N).

(** The service answers 401 without a job status. *)
Definition deniedEnv : Env := sampleEnvOf (fun _ => deniedReply) (fun _ => 0%N).

Definition world0 : World := {| now := 0; trace := [] |}.

(** The service knows the video already: the upload reply carries the
    blob. *)
Definition cachedEnv : Env :=
  {| readFile := readFile sampleEnv;
     respond := fun _ c =>
       match c with
       | CallUploadVideo _ _ _ _ _ => Response 201 "application/json" "cached"
       | _ => sampleRespond pendingReply c
       end;
     elapse := elapse sampleEnv;
     bootUnixNano := bootUnixNano sampleEnv |}.

(** The world of [lateEnv] after one poll and one sleep: 303 seconds in. *)
Definition lateWorld : World :=
  {| now := 303 * second;
     trace := [EvCall (CallGetJobStatus "service-token" "job123");
               EvSleep videoStatusPollDelay] |}.

(** The job is complete at the first poll. *)
Definition completeEnv : Env :=
  sampleEnvOf (fun _ => completeReply) (fun _ => 0%N).

(** The job has failed. *)
Definition failedEnv : Env :=
  sampleEnvOf (fun _ => Response 200 "application/json" "failed") (fun _ => 0%N).

Definition sampleArgs (text imagePaths videoPath videoAlt : string)
  : ActionInputs :=
  {| ActionInputs_PDSURL := "https://bsky.social";
     ActionInputs_Handle := "alice.test";
     ActionInputs_Password := "secret";
     ActionInputs_Text := text;
     ActionInputs_Lang := [];
     ActionInputs_LogLevel := "info";
     ActionInputs_EnableEmbeds := true;
     ActionInputs_ImagePaths := imagePaths;
     ActionInputs_ImageAltTexts := "";
     ActionInputs_VideoPath := videoPath;
     ActionInputs_VideoAltText := videoAlt |}.

Definition sampleSession : SessionResponse :=
  {| SessionResponse_AccessToken := "jwt";
     SessionResponse_UserID := "did:plc:test" |}.

(** The world after the session call of a sample run. *)
Definition sessionWorld (env : Env) : World :=
  happen env
    (EvCall (CallCreateSession "https://bsky.social" "alice.test" "secret"))
    0 world0.

(** * Properties *)
Example TrimSpace_ascii : Go.TrimSpace "  a b  " = "a b".
Proof. reflexivity. Qed.

Example TrimSpace_blank : Go.TrimSpace "   " = "".
Proof. reflexivity. Qed.

Example Ext_upper : Go.Ext "dir.d/IMAGE.JPEG" = ".JPEG".
Proof. reflexivity. Qed.

Example Ext_none : Go.Ext "dir.d/noext" = "".
Proof. reflexivity. Qed.

Example Split_commas : Go.Split "a,,b" ","%char = ["a"; ""; "b"].
Proof. reflexivity. Qed.

Example Split_empty : Go.Split "" ","%char = [""].
Proof. reflexivity. Qed.

Example fmtInt_ex : Go.fmtInt 1000001 = "1000001".
Proof. reflexivity. Qed.

Example Base_ex : Go.Base "/tmp/dir/test.mp4" = "test.mp4".
Proof. reflexivity. Qed.

Example Base_slashes : Go.Base "a/b//" = "b" /\ Go.Base "///" = "/" /\ Go.Base "" = ".".
Proof. repeat split. Qed.

(** ** Alt-text resolution *)

Lemma streq_refl (s : string) : (s == s) = true.
Proof. apply String.eqb_refl. Qed.

Lemma streq_false {s t : string} : s <> t -> (s == t) = false.
Proof. intro H. apply String.eqb_neq. exact H. Qed.

Lemma streq_true (s t : string) : (s == t) = true -> s = t.
Proof. apply String.eqb_eq. Qed.

(** C9: alt-text resolution follows the three-step policy (the non-blank
    value at the index, trimmed; else the single non-blank value supplied;
    else "Image <i+1>"), and gives the five results listed for it. *)
Theorem resolveAltText_policy :
  (forall (i : nat) (alts : list string),
      (i < List.length alts)%nat ->
      Go.TrimSpace (nth i alts "") <> "" ->
      resolveAltText i alts = Go.TrimSpace (nth i alts ""))
  /\ (forall (i : nat) (v : string),
         ~ ((i < 1)%nat /\ Go.TrimSpace (nth i [v] "") <> "") ->
         Go.TrimSpace v <> "" ->
         resolveAltText i [v] = Go.TrimSpace v)
  /\ (forall (i : nat) (alts : list string),
         ~ ((i < List.length alts)%nat /\ Go.TrimSpace (nth i alts "") <> "") ->
         (forall v, alts = [v] -> Go.TrimSpace v = "") ->
         resolveAltText i alts = "Image " ++ Go.fmtInt (Z.of_nat i + 1))
  /\ resolveAltText 0 ["First"; "Second"] = "First"
  /\ resolveAltText 2 ["Same alt for all"] = "Same alt for all"
  /\ resolveAltText 0 [] = "Image 1"
  /\ resolveAltText 1 ["   "] = "Image 2"
  /\ resolveAltText 3 ["First"; "Second"] = "Image 4".
Proof.
  split; [| split; [| split]].
  - intros i alts Hlt Hnb. unfold resolveAltText.
    apply Nat.ltb_lt in Hlt. rewrite Hlt, (streq_false Hnb). reflexivity.
  - intros i v Hnot Hnb. unfold resolveAltText.
    destruct ((i <? List.length [v])%nat
              && negb (Go.TrimSpace (nth i [v] "") == "")) eqn:E.
    + exfalso. apply Hnot. apply andb_true_iff in E. destruct E as [E1 E2].
      split.
      * apply Nat.ltb_lt in E1. exact E1.
      * intro Hb. rewrite Hb in E2. discriminate E2.
    + simpl. rewrite (streq_false Hnb). reflexivity.
  - intros i alts Hnot Hone. unfold resolveAltText.
    destruct ((i <? List.length alts)%nat
              && negb (Go.TrimSpace (nth i alts "") == "")) eqn:E.
    + exfalso. apply Hnot. apply andb_true_iff in E. destruct E as [E1 E2].
      split.
      * apply Nat.ltb_lt in E1. exact E1.
      * intro Hb. rewrite Hb in E2. discriminate E2.
    + destruct alts as [| v [| v' rest]]; try reflexivity.
      simpl. rewrite (Hone v eq_refl). reflexivity.
  - repeat split.
Qed.

(** The policy at work on the inputs of the examples. *)
Lemma resolveAltText_policy_witness :
  resolveAltText 1 ["First"; "  Second "] = "Second"
  /\ resolveAltText 2 ["Same alt for all"] = "Same alt for all"
  /\ resolveAltText 1 ["   "] = "Image 2".
Proof.
  destruct resolveAltText_policy as (Hat & Hone & Hdefault & _).
  split; [| split].
  - apply (Hat 1%nat ["First"; "  Second "]).
    + simpl. lia.
    + vm_compute. discriminate.
  - apply (Hone 2%nat "Same alt for all").
    + intros [Hlt _]. lia.
    + vm_compute. discriminate.
  - apply (Hdefault 1%nat ["   "]).
    + intros [Hlt _]. simpl in Hlt. lia.
    + intros v Hv. injection Hv as <-. reflexivity.
Defined.

(** Every alt text that [resolveAltText] gives is non-empty: it is a
    non-blank supplied value, trimmed, or the default label. *)
Lemma resolveAltText_nonempty (i : nat) (alts : list string) :
  resolveAltText i alts <> ""
  /\ ((exists v, In v alts /\ Go.TrimSpace v <> ""
                 /\ resolveAltText i alts = Go.TrimSpace v)
      \/ resolveAltText i alts = "Image " ++ Go.fmtInt (Z.of_nat i + 1)).
Proof.
  unfold resolveAltText.
  destruct ((i <? List.length alts)%nat
            && negb (Go.TrimSpace (nth i alts "") == "")) eqn:E.
  - apply andb_true_iff in E. destruct E as [E1 E2].
    apply Nat.ltb_lt in E1.
    assert (Hnb : Go.TrimSpace (nth i alts "") <> "").
    { intro Hb. rewrite Hb in E2. discriminate E2. }
    split; [exact Hnb |]. left. exists (nth i alts "").
    split; [apply nth_In; exact E1 | split; [exact Hnb | reflexivity]].
  - destruct ((List.length alts =? 1)%nat
              && negb (Go.TrimSpace (nth 0 alts "") == "")) eqn:E'.
    + apply andb_true_iff in E'. destruct E' as [E1 E2].
      apply Nat.eqb_eq in E1.
      assert (Hnb : Go.TrimSpace (nth 0 alts "") <> "").
      { intro Hb. rewrite Hb in E2. discriminate E2. }
      split; [exact Hnb |]. left. exists (nth 0 alts "").
      split; [apply nth_In; lia | split; [exact Hnb | reflexivity]].
    + split; [simpl; discriminate | right; reflexivity].
Qed.

(** ** Format validation *)

Lemma gtb_true (a b : Z) : a > b -> (a >? b) = true.
Proof. intro H. apply Z.gtb_lt. lia. Qed.

Lemma gtb_false {a b : Z} : a <= b -> (a >? b) = false.
Proof. intro H. rewrite Z.gtb_ltb. apply Z.ltb_ge. exact H. Qed.

(** C4: an image is accepted up to 1,000,000 bytes inclusive and rejected
    with the size error at 1,000,001 bytes whatever its format; a video is
    accepted up to 50 x 1,048,576 bytes inclusive; the size is checked before
    the format, so an oversized file gets the size error whatever its
    extension, and a file within the size with an undetected extension gets
    the unsupported-format error. *)
Theorem validation_size_before_format (rt : Runtime) :
  (forall path data,
      Go.lenSlice data <= 1000000 ->
      detectImageMimeType rt path <> "" ->
      validateImageData rt path data = None)
  /\ (forall path data,
         Go.lenSlice data = 1000001 ->
         validateImageData rt path data = Some (ImageTooLarge path 1000001))
  /\ (forall path data,
         Go.lenSlice data <= 50 * 1048576 ->
         detectVideoMimeType rt path <> "" ->
         validateVideoData rt path data = None)
  /\ (forall path data,
         Go.lenSlice data > 1000000 ->
         validateImageData rt path data
         = Some (ImageTooLarge path (Go.lenSlice data)))
  /\ (forall path data,
         Go.lenSlice data > 50 * 1048576 ->
         validateVideoData rt path data
         = Some (VideoTooLarge path (Go.lenSlice data)))
  /\ (forall path data,
         Go.lenSlice data <= 1000000 ->
         detectImageMimeType rt path = "" ->
         validateImageData rt path data = Some (UnsupportedImageFormat path))
  /\ (forall path data,
         Go.lenSlice data <= 50 * 1048576 ->
         detectVideoMimeType rt path = "" ->
         validateVideoData rt path data = Some (UnsupportedVideoFormat path)).
Proof.
  repeat split; intros path data Hlen; unfold validateImageData, validateVideoData.
  - intro Hfmt. rewrite gtb_false by (unfold maxImageSize; lia).
    cbv zeta. rewrite (streq_false Hfmt). reflexivity.
  - rewrite gtb_true by (unfold maxImageSize; lia). rewrite Hlen. reflexivity.
  - intro Hfmt. rewrite gtb_false by (unfold maxVideoSize; lia).
    cbv zeta. rewrite (streq_false Hfmt). reflexivity.
  - rewrite gtb_true by (unfold maxImageSize; lia). reflexivity.
  - rewrite gtb_true by (unfold maxVideoSize; lia). reflexivity.
  - intro Hfmt. rewrite gtb_false by (unfold maxImageSize; lia).
    cbv zeta. rewrite Hfmt. reflexivity.
  - intro Hfmt. rewrite gtb_false by (unfold maxVideoSize; lia).
    cbv zeta. rewrite Hfmt. reflexivity.
Qed.

Lemma lenSlice_zeros (n : Z) :
  0 <= n -> Go.lenSlice (repeat Byte.x00 (Z.to_nat n)) = n.
Proof.
  intro H. unfold Go.lenSlice. rewrite repeat_length. apply Z2Nat.id. exact H.
Qed.

(** Files of exactly the limit, one byte over it, and of unknown format. *)
Lemma validation_size_before_format_witness :
  validateImageData sampleRuntime "test.jpg"
    (repeat Byte.x00 (Z.to_nat 1000000)) = None
  /\ validateImageData sampleRuntime "large.pdf"
       (repeat Byte.x00 (Z.to_nat 1000001))
     = Some (ImageTooLarge "large.pdf" 1000001)
  /\ validateVideoData sampleRuntime "video.mp4"
       (repeat Byte.x00 (Z.to_nat (50 * 1048576))) = None
  /\ validateVideoData sampleRuntime "large.avi"
       (repeat Byte.x00 (Z.to_nat (50 * 1048576 + 1)))
     = Some (VideoTooLarge "large.avi"
               (Go.lenSlice (repeat Byte.x00 (Z.to_nat (50 * 1048576 + 1)))))
  /\ validateImageData sampleRuntime "document.pdf" [Byte.x00]
     = Some (UnsupportedImageFormat "document.pdf")
  /\ validateVideoData sampleRuntime "video.avi" [Byte.x00]
     = Some (UnsupportedVideoFormat "video.avi").
Proof.
  destruct (validation_size_before_format sampleRuntime)
    as (Hi & Hi1 & Hv & _ & Hvbig & Hifmt & Hvfmt).
  split; [| split; [| split; [| split; [| split]]]].
  - apply Hi.
    + rewrite lenSlice_zeros by lia. lia.
    + vm_compute. discriminate.
  - apply Hi1. apply lenSlice_zeros. lia.
  - apply Hv.
    + rewrite lenSlice_zeros by lia. lia.
    + vm_compute. discriminate.
  - apply Hvbig. rewrite lenSlice_zeros by lia. lia.
  - apply Hifmt.
    + vm_compute. discriminate.
    + reflexivity.
  - apply Hvfmt.
    + vm_compute. discriminate.
    + reflexivity.
Defined.

(** ** The image batch *)

(** C6: more than 4 resolved paths make [processImages] fail with the
    too-many error in an unchanged world (no file read, no call); zero
    resolved paths give no embed and no error, again in an unchanged world. *)
Theorem processImages_batch_rule (rt : Runtime) (env : Env) :
  (forall pdsURL accessToken imagePaths altTexts w,
      Go.lenSlice (parseImagePaths imagePaths) > 4 ->
      processImages rt env pdsURL accessToken imagePaths altTexts w
      = Some (Err (TooManyImages (Go.lenSlice (parseImagePaths imagePaths))), w))
  /\ (forall pdsURL accessToken imagePaths altTexts w,
         parseImagePaths imagePaths = [] ->
         processImages rt env pdsURL accessToken imagePaths altTexts w
         = Some (Ok None, w)).
Proof.
  split; intros pdsURL accessToken imagePaths altTexts w H; unfold processImages.
  - cbv zeta.
    replace (Go.lenSlice (parseImagePaths imagePaths) =? 0) with false
      by (symmetry; apply Z.eqb_neq; lia).
    rewrite gtb_true by (unfold maxImagesPerPost; lia). reflexivity.
  - cbv zeta. rewrite H. reflexivity.
Qed.

(** Five paths, and a path list of commas and spaces only. *)
Lemma processImages_batch_rule_witness :
  processImages sampleRuntime sampleEnv "https://bsky.social" "jwt"
    "a.png,b.png,c.png,d.png,e.png" "Test" world0
  = Some (Err (TooManyImages 5), world0)
  /\ processImages sampleRuntime sampleEnv "https://bsky.social" "jwt"
       " , , " "Test" world0
     = Some (Ok None, world0).
Proof.
  destruct (processImages_batch_rule sampleRuntime sampleEnv) as [Hmany Hnone].
  split.
  - apply (Hmany "https://bsky.social" "jwt" "a.png,b.png,c.png,d.png,e.png"
             "Test" world0).
    vm_compute. reflexivity.
  - apply Hnone. reflexivity.
Defined.

(** ** The job-status call *)

Lemma happen_now (env : Env) (ev : Event) (asked : Z) (w : World) :
  now w + asked <= now (happen env ev asked w).
Proof. unfold happen. simpl. lia. Qed.

Lemma happen_trace (env : Env) (ev : Event) (asked : Z) (w : World) :
  trace (happen env ev asked w) = (trace w ++ [ev])%list.
Proof. reflexivity. Qed.

(** What [getVideoJobStatus] answers on a reply that is not a 200. *)
Lemma getVideoJobStatus_already_exists (rt : Runtime) (env : Env)
    (serviceToken jobID : string) (w : World) (code : Z) (ctype body : string)
    (errorResp : JobErrorResponse) (status : VideoJobStatus) (blob : Blob) :
  respond env (List.length (trace w)) (CallGetJobStatus serviceToken jobID)
  = Response code ctype body ->
  code <> 200 ->
  decodeJobError rt body = Some errorResp ->
  JobErrorResponse_Error errorResp = "already_exists" ->
  JobErrorResponse_Status errorResp = Some status ->
  VideoJobStatus_Blob status = Some blob ->
  getVideoJobStatus rt env serviceToken jobID w
  = Some (Ok status, happen env (EvCall (CallGetJobStatus serviceToken jobID)) 0 w).
Proof.
  intros Hresp Hcode Hdec Herr Hst Hblob.
  unfold getVideoJobStatus, bind, httpDo. rewrite Hresp.
  apply Z.eqb_neq in Hcode. rewrite Hcode. simpl.
  rewrite Hdec, Hst, Herr, Hblob. reflexivity.
Qed.

Lemma getVideoJobStatus_rejected (rt : Runtime) (env : Env)
    (serviceToken jobID : string) (w : World) (code : Z) (ctype body : string) :
  respond env (List.length (trace w)) (CallGetJobStatus serviceToken jobID)
  = Response code ctype body ->
  code <> 200 ->
  ~ (exists errorResp status blob,
        decodeJobError rt body = Some errorResp
        /\ JobErrorResponse_Error errorResp = "already_exists"
        /\ JobErrorResponse_Status errorResp = Some status
        /\ VideoJobStatus_Blob status = Some blob) ->
  getVideoJobStatus rt env serviceToken jobID w
  = Some (Err (JobStatusRejected code),
          happen env (EvCall (CallGetJobStatus serviceToken jobID)) 0 w).
Proof.
  intros Hresp Hcode Hnot.
  unfold getVideoJobStatus, bind, httpDo. rewrite Hresp.
  apply Z.eqb_neq in Hcode. rewrite Hcode. simpl.
  destruct (decodeJobError rt body) as [errorResp |] eqn:Hdec; [| reflexivity].
  destruct (JobErrorResponse_Status errorResp) as [status |] eqn:Hst;
    [| reflexivity].
  destruct (JobErrorResponse_Error errorResp == "already_exists") eqn:Herr;
    [| reflexivity].
  destruct (VideoJobStatus_Blob status) as [blob |] eqn:Hblob; [| reflexivity].
  exfalso. apply Hnot. exists errorResp, status, blob.
  repeat split; try assumption. apply streq_true. exact Herr.
Qed.

(** One iteration of the polling loop on a status that carries a blob, the
    deadline not being passed. *)
Lemma pollLoop_blob (rt : Runtime) (env : Env) (fuel : nat)
    (serviceToken jobID : string) (startTime : Z) (w w1 : World)
    (status : VideoJobStatus) (blob : Blob) :
  now w - startTime <= videoStatusMaxWait ->
  getVideoJobStatus rt env serviceToken jobID w = Some (Ok status, w1) ->
  VideoJobStatus_Blob status = Some blob ->
  pollLoop rt env (S fuel) serviceToken jobID startTime w = Some (Ok blob, w1).
Proof.
  intros Hin Hget Hblob. simpl. unfold bind at 1. unfold timeNow.
  rewrite (gtb_false Hin). unfold bind. rewrite Hget, Hblob. reflexivity.
Qed.

(** C8: on a job-status reply that is not a 200, a body that decodes to the
    error already_exists with an embedded status carrying a blob makes
    [getVideoJobStatus] return that status, and the polling loop that called
    it returns the blob; every other such reply gives the error that names
    the status code. *)
Theorem getVideoJobStatus_non200 (rt : Runtime) (env : Env)
    (serviceToken jobID : string) (w : World) (code : Z) (ctype body : string) :
  respond env (List.length (trace w)) (CallGetJobStatus serviceToken jobID)
  = Response code ctype body ->
  code <> 200 ->
  (forall errorResp status blob,
      decodeJobError rt body = Some errorResp ->
      JobErrorResponse_Error errorResp = "already_exists" ->
      JobErrorResponse_Status errorResp = Some status ->
      VideoJobStatus_Blob status = Some blob ->
      getVideoJobStatus rt env serviceToken jobID w
      = Some (Ok status,
              happen env (EvCall (CallGetJobStatus serviceToken jobID)) 0 w)
      /\ (forall fuel startTime,
             now w - startTime <= videoStatusMaxWait ->
             pollLoop rt env (S fuel) serviceToken jobID startTime w
             = Some (Ok blob,
                     happen env (EvCall (CallGetJobStatus serviceToken jobID))
                       0 w)))
  /\ (~ (exists errorResp status blob,
            decodeJobError rt body = Some errorResp
            /\ JobErrorResponse_Error errorResp = "already_exists"
            /\ JobErrorResponse_Status errorResp = Some status
            /\ VideoJobStatus_Blob status = Some blob) ->
      getVideoJobStatus rt env serviceToken jobID w
      = Some (Err (JobStatusRejected code),
              happen env (EvCall (CallGetJobStatus serviceToken jobID)) 0 w)
      /\ errorString (JobStatusRejected code)
         = "failed to get job status, status code: " ++ Go.fmtInt code).
Proof.
  intros Hresp Hcode. split.
  - intros errorResp status blob Hdec Herr Hst Hblob.
    assert (Hget : getVideoJobStatus rt env serviceToken jobID w
                   = Some (Ok status,
                           happen env
                             (EvCall (CallGetJobStatus serviceToken jobID)) 0 w))
      by (eapply getVideoJobStatus_already_exists; eassumption).
    split; [exact Hget |].
    intros fuel startTime Hin. eapply pollLoop_blob; eassumption.
  - intro Hnot. split; [| reflexivity].
    eapply getVideoJobStatus_rejected; eassumption.
Qed.

(** A 409 already_exists reply that carries the finished job. *)
Lemma getVideoJobStatus_non200_witness :
  getVideoJobStatus sampleRuntime existsEnv "service-token" "job123" world0
  = Some (Ok (sampleStatus "JOB_STATE_COMPLETED" (Some sampleBlob) ""),
          happen existsEnv (EvCall (CallGetJobStatus "service-token" "job123"))
            0 world0)
  /\ pollLoop sampleRuntime existsEnv 1 "service-token" "job123" 0 world0
     = Some (Ok sampleBlob,
             happen existsEnv (EvCall (CallGetJobStatus "service-token" "job123"))
               0 world0).
Proof.
  assert (Hresp : respond existsEnv (List.length (trace world0))
                    (CallGetJobStatus "service-token" "job123")
                  = Response 409 "application/json" "exists") by reflexivity.
  assert (Hcode : 409 <> 200) by lia.
  destruct (@getVideoJobStatus_non200 sampleRuntime existsEnv "service-token"
              "job123" world0 409 "application/json" "exists" Hresp Hcode)
    as [Hexists _].
  destruct (Hexists
              {| JobErrorResponse_Error := "already_exists";
                 JobErrorResponse_Message := "";
                 JobErrorResponse_Status :=
                   Some (sampleStatus "JOB_STATE_COMPLETED" (Some sampleBlob) "") |}
              (sampleStatus "JOB_STATE_COMPLETED" (Some sampleBlob) "")
              sampleBlob eq_refl eq_refl eq_refl eq_refl) as [Hget Hpoll].
  split; [exact Hget |].
  apply Hpoll. unfold videoStatusMaxWait, minute, second. simpl. lia.
Defined.

(** ** The polling loop *)

Lemma pollLoop_timed_out (rt : Runtime) (env : Env) (fuel : nat)
    (serviceToken jobID : string) (startTime : Z) (w : World) :
  now w - startTime > videoStatusMaxWait ->
  pollLoop rt env (S fuel) serviceToken jobID startTime w
  = Some (Err ProcessingTimedOut, w).
Proof.
  intro Hout. simpl. unfold bind at 1. unfold timeNow.
  rewrite (gtb_true _ _ Hout). reflexivity.
Qed.

Lemma pollLoop_poll_error (rt : Runtime) (env : Env) (fuel : nat)
    (serviceToken jobID : string) (startTime : Z) (w w1 : World) (e : error) :
  now w - startTime <= videoStatusMaxWait ->
  getVideoJobStatus rt env serviceToken jobID w = Some (Err e, w1) ->
  pollLoop rt env (S fuel) serviceToken jobID startTime w = Some (Err e, w1).
Proof.
  intros Hin Hget. simpl. unfold bind at 1. unfold timeNow.
  rewrite (gtb_false Hin). unfold bind. rewrite Hget. reflexivity.
Qed.

Lemma pollLoop_failed (rt : Runtime) (env : Env) (fuel : nat)
    (serviceToken jobID : string) (startTime : Z) (w w1 : World)
    (status : VideoJobStatus) :
  now w - startTime <= videoStatusMaxWait ->
  getVideoJobStatus rt env serviceToken jobID w = Some (Ok status, w1) ->
  VideoJobStatus_Blob status = None ->
  VideoJobStatus_State status = "failed" \/ VideoJobStatus_Error status <> "" ->
  pollLoop rt env (S fuel) serviceToken jobID startTime w
  = Some (Err (ProcessingFailed (VideoJobStatus_Error status)), w1).
Proof.
  intros Hin Hget Hblob Hfail. simpl. unfold bind at 1. unfold timeNow.
  rewrite (gtb_false Hin). unfold bind. rewrite Hget, Hblob.
  destruct Hfail as [Hstate | Herr].
  - rewrite Hstate. reflexivity.
  - rewrite (streq_false Herr). rewrite orb_true_r. reflexivity.
Qed.

Lemma pollLoop_pending (rt : Runtime) (env : Env) (fuel : nat)
    (serviceToken jobID : string) (startTime : Z) (w w1 : World)
    (status : VideoJobStatus) :
  now w - startTime <= videoStatusMaxWait ->
  getVideoJobStatus rt env serviceToken jobID w = Some (Ok status, w1) ->
  VideoJobStatus_Blob status = None ->
  VideoJobStatus_State status <> "failed" ->
  VideoJobStatus_Error status = "" ->
  pollLoop rt env (S fuel) serviceToken jobID startTime w
  = pollLoop rt env fuel serviceToken jobID startTime
      (happen env (EvSleep videoStatusPollDelay) videoStatusPollDelay w1).
Proof.
  intros Hin Hget Hblob Hstate Herr. simpl. unfold bind at 1. unfold timeNow.
  rewrite (gtb_false Hin). unfold bind at 1. rewrite Hget, Hblob.
  rewrite (streq_false Hstate), Herr. reflexivity.
Qed.

(** C1, as the code has it: each iteration checks the deadline first, and
    past it returns the timeout in an unchanged world, without polling.
    Within the deadline it polls once; a failed poll returns its error; a
    status that carries a blob returns the blob, whatever its state and error
    field, and so does a non-200 already_exists reply whose status carries a
    blob; a status without blob that is failed or has an error is the
    processing failure; any other status makes the loop sleep and iterate. *)
Theorem pollLoop_iteration_order (rt : Runtime) (env : Env) (fuel : nat)
    (serviceToken jobID : string) (startTime : Z) (w : World) :
  (now w - startTime > videoStatusMaxWait ->
   pollLoop rt env (S fuel) serviceToken jobID startTime w
   = Some (Err ProcessingTimedOut, w))
  /\ (now w - startTime <= videoStatusMaxWait ->
      (forall e w1,
          getVideoJobStatus rt env serviceToken jobID w = Some (Err e, w1) ->
          pollLoop rt env (S fuel) serviceToken jobID startTime w
          = Some (Err e, w1))
      /\ (forall status w1,
             getVideoJobStatus rt env serviceToken jobID w
             = Some (Ok status, w1) ->
             (forall blob,
                 VideoJobStatus_Blob status = Some blob ->
                 pollLoop rt env (S fuel) serviceToken jobID startTime w
                 = Some (Ok blob, w1))
             /\ (VideoJobStatus_Blob status = None ->
                 VideoJobStatus_State status = "failed"
                 \/ VideoJobStatus_Error status <> "" ->
                 pollLoop rt env (S fuel) serviceToken jobID startTime w
                 = Some (Err (ProcessingFailed (VideoJobStatus_Error status)),
                         w1))
             /\ (VideoJobStatus_Blob status = None ->
                 VideoJobStatus_State status <> "failed" ->
                 VideoJobStatus_Error status = "" ->
                 pollLoop rt env (S fuel) serviceToken jobID startTime w
                 = pollLoop rt env fuel serviceToken jobID startTime
                     (happen env (EvSleep videoStatusPollDelay)
                        videoStatusPollDelay w1)))
      /\ (forall code ctype body errorResp status blob,
             respond env (List.length (trace w))
               (CallGetJobStatus serviceToken jobID)
             = Response code ctype body ->
             code <> 200 ->
             decodeJobError rt body = Some errorResp ->
             JobErrorResponse_Error errorResp = "already_exists" ->
             JobErrorResponse_Status errorResp = Some status ->
             VideoJobStatus_Blob status = Some blob ->
             pollLoop rt env (S fuel) serviceToken jobID startTime w
             = Some (Ok blob,
                     happen env (EvCall (CallGetJobStatus serviceToken jobID))
                       0 w))).
Proof.
  split.
  - apply pollLoop_timed_out.
  - intro Hin. split; [| split].
    + intros e w1 Hget. eapply pollLoop_poll_error; eassumption.
    + intros status w1 Hget. split; [| split].
      * intros blob Hblob. eapply pollLoop_blob; eassumption.
      * intros Hblob Hfail. eapply pollLoop_failed; eassumption.
      * intros Hblob Hstate Herr. eapply pollLoop_pending; eassumption.
    + intros code ctype body errorResp status blob Hresp Hcode Hdec Herr Hst Hblob.
      eapply pollLoop_blob; [exact Hin | | exact Hblob].
      eapply getVideoJobStatus_already_exists; eassumption.
Qed.

(** An iteration past the deadline, and iterations within it that find a
    blob, an already_exists reply and a failed job. *)
Lemma pollLoop_iteration_order_witness :
  pollLoop sampleRuntime lateEnv 1 "service-token" "job123" 0 lateWorld
  = Some (Err ProcessingTimedOut, lateWorld)
  /\ pollLoop sampleRuntime existsEnv 1 "service-token" "job123" 0 world0
     = Some (Ok sampleBlob,
             happen existsEnv (EvCall (CallGetJobStatus "service-token" "job123"))
               0 world0)
  /\ pollLoop sampleRuntime failedEnv 1 "service-token" "job123" 0 world0
     = Some (Err (ProcessingFailed "transcode error"),
             happen failedEnv (EvCall (CallGetJobStatus "service-token" "job123"))
               0 world0).
Proof.
  assert (Hin : now world0 - 0 <= videoStatusMaxWait) by (vm_compute; discriminate).
  split; [| split].
  - destruct (pollLoop_iteration_order sampleRuntime lateEnv 0 "service-token"
                "job123" 0 lateWorld) as [Hpast _].
    apply Hpast. vm_compute. reflexivity.
  - destruct (pollLoop_iteration_order sampleRuntime existsEnv 0 "service-token"
                "job123" 0 world0) as [_ Hwithin].
    destruct (Hwithin Hin) as (_ & _ & Hexists).
    apply (Hexists 409 "application/json" "exists"
             {| JobErrorResponse_Error := "already_exists";
                JobErrorResponse_Message := "";
                JobErrorResponse_Status :=
                  Some (sampleStatus "JOB_STATE_COMPLETED" (Some sampleBlob) "") |}
             (sampleStatus "JOB_STATE_COMPLETED" (Some sampleBlob) "")).
    + reflexivity.
    + lia.
    + reflexivity.
    + reflexivity.
    + reflexivity.
    + reflexivity.
  - destruct (pollLoop_iteration_order sampleRuntime failedEnv 0 "service-token"
                "job123" 0 world0) as [_ Hwithin].
    destruct (Hwithin Hin) as (_ & Hstatus & _).
    destruct (Hstatus (sampleStatus "failed" None "transcode error")
                (happen failedEnv
                   (EvCall (CallGetJobStatus "service-token" "job123")) 0 world0)
                eq_refl) as (_ & Hfailed & _).
    apply Hfailed.
    + reflexivity.
    + left. reflexivity.
Defined.

(** C1 as stated fails: against [lateEnv] the loop ends with the timeout in
    [lateWorld], where the next job-status reply carries a blob. *)
Lemma poll_deadline_checked_before_blob :
  pollVideoJobUntilComplete sampleRuntime lateEnv 2 "service-token" "job123"
    world0
  = Some (Err ProcessingTimedOut, lateWorld)
  /\ getVideoJobStatus sampleRuntime lateEnv "service-token" "job123" lateWorld
     = Some (Ok (sampleStatus "JOB_STATE_COMPLETED" (Some sampleBlob) ""),
             happen lateEnv (EvCall (CallGetJobStatus "service-token" "job123"))
               0 lateWorld)
  /\ pollLoop sampleRuntime lateEnv 1 "service-token" "job123" (now world0)
       lateWorld
     <> Some (Ok sampleBlob,
              happen lateEnv (EvCall (CallGetJobStatus "service-token" "job123"))
                0 lateWorld).
Proof.
  split; [| split].
  - vm_compute. reflexivity.
  - vm_compute. reflexivity.
  - vm_compute. discriminate.
Qed.

(** *** A job that stays pending *)

Section Pending.

Variable rt : Runtime.
Variable env : Env.
Variables serviceToken jobID : string.

(** Every reply to a job-status call is a 200 whose status has no blob, is
    not failed and has no error. *)
Hypothesis pending :
  forall n, exists ctype body status,
    respond env n (CallGetJobStatus serviceToken jobID)
    = Response 200 ctype body
    /\ decodeJobStatus rt body = Ok status
    /\ VideoJobStatus_Blob status = None
    /\ VideoJobStatus_State status <> "failed"
    /\ VideoJobStatus_Error status = "".

Lemma getVideoJobStatus_pending (w : World) :
  exists status,
    getVideoJobStatus rt env serviceToken jobID w
    = Some (Ok status,
            happen env (EvCall (CallGetJobStatus serviceToken jobID)) 0 w)
    /\ VideoJobStatus_Blob status = None
    /\ VideoJobStatus_State status <> "failed"
    /\ VideoJobStatus_Error status = "".
Proof.
  destruct (pending (List.length (trace w)))
    as (ctype & body & status & Hresp & Hdec & Hblob & Hstate & Herr).
  exists status. repeat split; try assumption.
  unfold getVideoJobStatus, bind, httpDo. rewrite Hresp. simpl.
  unfold ret. rewrite Hdec. reflexivity.
Qed.

(** With enough fuel for the time that is left, the loop ends with the
    timeout, past the deadline. *)
Lemma pollLoop_pending_times_out (fuel : nat) :
  forall (startTime : Z) (w : World),
    (1 <= fuel)%nat ->
    Z.of_nat fuel * videoStatusPollDelay
    > videoStatusMaxWait - (now w - startTime) + videoStatusPollDelay ->
    exists w',
      pollLoop rt env fuel serviceToken jobID startTime w
      = Some (Err ProcessingTimedOut, w')
      /\ now w' - startTime > videoStatusMaxWait
      /\ now w <= now w'.
Proof.
  induction fuel as [| fuel IH]; intros startTime w Hpos Hfuel; [lia |].
  destruct (Z_gt_le_dec (now w - startTime) videoStatusMaxWait) as [Hout | Hin].
  - exists w. rewrite (pollLoop_timed_out rt env fuel serviceToken jobID startTime w Hout).
    repeat split; [exact Hout | lia].
  - destruct (getVideoJobStatus_pending w)
      as (status & Hget & Hblob & Hstate & Herr).
    rewrite (pollLoop_pending rt env fuel serviceToken jobID startTime w _ status
               Hin Hget Hblob Hstate Herr).
    set (w1 := happen env (EvCall (CallGetJobStatus serviceToken jobID)) 0 w).
    set (w2 := happen env (EvSleep videoStatusPollDelay) videoStatusPollDelay w1).
    assert (Hnow : now w + videoStatusPollDelay <= now w2).
    { pose proof (happen_now env (EvCall (CallGetJobStatus serviceToken jobID))
                    0 w) as H1.
      pose proof (happen_now env (EvSleep videoStatusPollDelay)
                    videoStatusPollDelay w1) as H2.
      fold w1 in H1. fold w2 in H2. lia. }
    assert (Hdelay : videoStatusPollDelay = 2000000000) by reflexivity.
    assert (Hmax : videoStatusMaxWait = 300000000000) by reflexivity.
    destruct (IH startTime w2) as (w' & Hrun & Hpast & Hle).
    + lia.
    + lia.
    + exists w'. repeat split; [exact Hrun | exact Hpast | lia].
Qed.

End Pending.

(** The timeout is not the processing failure, neither as a value nor as a
    message, also after [processVideo] has wrapped both. *)
Lemma timed_out_is_not_failed (msg : string) :
  ProcessingTimedOut <> ProcessingFailed msg
  /\ errorString ProcessingTimedOut <> errorString (ProcessingFailed msg)
  /\ errorString (VideoProcessingFailed ProcessingTimedOut)
     <> errorString (VideoProcessingFailed (ProcessingFailed msg)).
Proof.
  split; [discriminate |]. split; simpl; discriminate.
Qed.

(** C7: when every job-status reply is a 200 whose status has no blob, is
    not failed and has no error, the polling loop ends, for any fuel of 152
    iterations or more, with the timeout error, more than 5 minutes after its
    start; that error differs from the processing failure. *)
Theorem poll_pending_times_out (rt : Runtime) (env : Env)
    (serviceToken jobID : string) (fuel : nat) (w : World) :
  (forall n, exists ctype body status,
      respond env n (CallGetJobStatus serviceToken jobID)
      = Response 200 ctype body
      /\ decodeJobStatus rt body = Ok status
      /\ VideoJobStatus_Blob status = None
      /\ VideoJobStatus_State status <> "failed"
      /\ VideoJobStatus_Error status = "") ->
  (152 <= fuel)%nat ->
  (exists w',
      pollVideoJobUntilComplete rt env fuel serviceToken jobID w
      = Some (Err ProcessingTimedOut, w')
      /\ now w' - now w > videoStatusMaxWait)
  /\ (forall msg,
         ProcessingTimedOut <> ProcessingFailed msg
         /\ errorString ProcessingTimedOut <> errorString (ProcessingFailed msg)
         /\ errorString (VideoProcessingFailed ProcessingTimedOut)
            <> errorString (VideoProcessingFailed (ProcessingFailed msg))).
Proof.
  intros Hpending Hfuel. split; [| apply timed_out_is_not_failed].
  unfold pollVideoJobUntilComplete, bind, timeNow.
  assert (Hdelay : videoStatusPollDelay = 2000000000) by reflexivity.
  assert (Hmax : videoStatusMaxWait = 300000000000) by reflexivity.
  destruct (pollLoop_pending_times_out rt env serviceToken jobID Hpending fuel
              (now w) w) as (w' & Hrun & Hpast & _).
  - lia.
  - lia.
  - exists w'. split; assumption.
Qed.

(** A job that never leaves the pending state, polled with fuel 152. *)
Lemma poll_pending_times_out_witness :
  exists w',
    pollVideoJobUntilComplete sampleRuntime sampleEnv 152 "service-token"
      "job123" world0
    = Some (Err ProcessingTimedOut, w')
    /\ now w' - now world0 > videoStatusMaxWait.
Proof.
  apply (poll_pending_times_out sampleRuntime sampleEnv "service-token" "job123"
           152 world0).
  - intro n. exists "application/json", "pending",
      (sampleStatus "JOB_STATE_ENCODING" None "").
    repeat split. simpl. discriminate.
  - lia.
Defined.

(** ** The events of each function *)

Lemma emits_ret {A : Type} (P : Event -> bool) (a : A) : emits P (ret a).
Proof.
  intros w a' w' H. injection H as <- <-. exists []. split.
  - symmetry. apply app_nil_r.
  - reflexivity.
Qed.

Lemma emits_bind {A B : Type} (P : Event -> bool) (m : M A) (k : A -> M B) :
  emits P m -> (forall a, emits P (k a)) -> emits P (bind m k).
Proof.
  intros Hm Hk w b w' H. unfold bind in H.
  destruct (m w) as [[a w1] |] eqn:Em; [| discriminate].
  destruct (Hm w a w1 Em) as (evs1 & Ht1 & Hp1).
  destruct (Hk a w1 b w' H) as (evs2 & Ht2 & Hp2).
  exists (evs1 ++ evs2)%list. split.
  - rewrite Ht2, Ht1. symmetry. apply app_assoc.
  - rewrite forallb_app, Hp1, Hp2. reflexivity.
Qed.

Lemma emits_weaken {A : Type} (P Q : Event -> bool) (m : M A) :
  (forall ev, P ev = true -> Q ev = true) -> emits P m -> emits Q m.
Proof.
  intros HPQ Hm w a w' H. destruct (Hm w a w' H) as (evs & Ht & Hp).
  exists evs. split; [exact Ht |].
  apply forallb_forall. intros ev Hin. apply HPQ.
  rewrite forallb_forall in Hp. apply Hp. exact Hin.
Qed.

Lemma emits_one {A : Type} (P : Event -> bool) (env : Env) (ev : Event)
    (asked : Z) (f : World -> A) :
  P ev = true -> emits P (fun w => Some (f w, happen env ev asked w)).
Proof.
  intros HP w a w' H. injection H as <- <-. exists [ev]. split.
  - reflexivity.
  - simpl. rewrite HP. reflexivity.
Qed.

Lemma emits_httpDo (P : Event -> bool) (env : Env) (c : Call) :
  P (EvCall c) = true -> emits P (httpDo env c).
Proof. intro HP. unfold httpDo. apply (emits_one P env _ 0 _ HP). Qed.

Lemma emits_osReadFile (P : Event -> bool) (env : Env) (path : string) :
  P (EvReadFile path) = true -> emits P (osReadFile env path).
Proof. intro HP. unfold osReadFile. apply (emits_one P env _ 0 _ HP). Qed.

Lemma emits_timeSleep (P : Event -> bool) (env : Env) (d : Z) :
  P (EvSleep d) = true -> emits P (timeSleep env d).
Proof. intro HP. unfold timeSleep. apply (emits_one P env _ d _ HP). Qed.

Lemma emits_timeNow (P : Event -> bool) : emits P timeNow.
Proof.
  intros w a w' H. injection H as <- <-. exists []. split.
  - symmetry. apply app_nil_r.
  - reflexivity.
Qed.

Lemma emits_none {A : Type} (P : Event -> bool) : emits P (fun _ => @None (A * World)).
Proof. intros w a w' H. discriminate H. Qed.

(** Splits a computation along its binds and case distinctions. *)
Ltac emits_steps :=
  repeat first
    [ apply emits_ret
    | apply emits_timeNow
    | apply emits_none
    | apply emits_httpDo; reflexivity
    | apply emits_timeSleep; reflexivity
    | apply emits_bind; [| intro]
    | match goal with
      | |- emits _ (match ?x with _ => _ end) => destruct x
      | |- emits _ (if ?b then _ else _) => destruct b
      end ].

Lemma emits_uploadBlob (rt : Runtime) (env : Env) (P : Event -> bool)
    (pdsURL accessToken : string) (data : list Byte.byte) (mimeType : string) :
  P (EvCall (CallUploadBlob pdsURL accessToken data mimeType)) = true ->
  emits P (uploadBlob rt env pdsURL accessToken data mimeType).
Proof.
  intro HP. unfold uploadBlob. apply emits_bind.
  - apply emits_httpDo. exact HP.
  - intro resp. emits_steps.
Qed.

Lemma emits_processImage (rt : Runtime) (env : Env) (paths : list string)
    (pdsURL accessToken path altText : string) :
  In path paths ->
  emits (imageEvent paths) (processImage rt env pdsURL accessToken path altText).
Proof.
  intro Hin. unfold processImage. apply emits_bind.
  - apply emits_osReadFile. simpl. apply existsb_exists. exists path.
    split; [exact Hin | apply String.eqb_refl].
  - intro r. destruct r as [imageData | err]; [| apply emits_ret].
    destruct (validateImageData rt path imageData); [apply emits_ret |].
    cbv zeta. apply emits_bind.
    + apply emits_uploadBlob. reflexivity.
    + intro b. emits_steps.
Qed.

Lemma emits_processImagesFrom (rt : Runtime) (env : Env) (all : list string)
    (pdsURL accessToken : string) (alts : list string) (paths : list string) :
  forall (i : nat) (embedImages : list EmbedImage),
    incl paths all ->
    emits (imageEvent all)
      (processImagesFrom rt env pdsURL accessToken alts i paths embedImages).
Proof.
  induction paths as [| path rest IH]; intros i embedImages Hincl; simpl.
  - apply emits_ret.
  - apply emits_bind.
    + apply emits_processImage. apply Hincl. left. reflexivity.
    + intro r. destruct r as [embedImage | err]; [| apply emits_ret].
      apply IH. intros p Hp. apply Hincl. right. exact Hp.
Qed.

Lemma emits_processImages (rt : Runtime) (env : Env)
    (pdsURL accessToken imagePaths altTexts : string) :
  emits (imageEvent (parseImagePaths imagePaths))
    (processImages rt env pdsURL accessToken imagePaths altTexts).
Proof.
  unfold processImages. cbv zeta.
  destruct (Go.lenSlice (parseImagePaths imagePaths) =? 0); [apply emits_ret |].
  destruct (Go.lenSlice (parseImagePaths imagePaths) >? maxImagesPerPost);
    [apply emits_ret |].
  apply emits_bind.
  - apply emits_processImagesFrom. apply incl_refl.
  - intro r. emits_steps.
Qed.

Lemma emits_getVideoJobStatus (rt : Runtime) (env : Env) (path : string)
    (serviceToken jobID : string) :
  emits (videoEvent path) (getVideoJobStatus rt env serviceToken jobID).
Proof. unfold getVideoJobStatus. emits_steps. Qed.

Lemma emits_pollLoop (rt : Runtime) (env : Env) (path : string)
    (serviceToken jobID : string) (startTime : Z) (fuel : nat) :
  emits (videoEvent path) (pollLoop rt env fuel serviceToken jobID startTime).
Proof.
  induction fuel as [| fuel IH]; simpl.
  - apply emits_none.
  - apply emits_bind; [apply emits_timeNow | intro t].
    destruct (t - startTime >? videoStatusMaxWait); [apply emits_ret |].
    apply emits_bind; [apply emits_getVideoJobStatus | intro r].
    destruct r as [status | err]; [| apply emits_ret].
    destruct (VideoJobStatus_Blob status); [apply emits_ret |].
    destruct ((VideoJobStatus_State status == "failed")
              || negb (VideoJobStatus_Error status == ""));
      [apply emits_ret |].
    apply emits_bind; [apply emits_timeSleep; reflexivity | intros _].
    exact IH.
Qed.

Lemma emits_processVideo (rt : Runtime) (env : Env) (fuel : nat)
    (pdsURL accessToken userDID path altText : string) :
  emits (videoEvent path)
    (processVideo rt env fuel pdsURL accessToken userDID path altText).
Proof.
  unfold processVideo. apply emits_bind.
  - apply emits_osReadFile. simpl. apply String.eqb_refl.
  - intro r. destruct r as [videoData | err]; [| apply emits_ret].
    destruct (validateVideoData rt path videoData); [apply emits_ret |].
    cbv zeta. apply emits_bind.
    + unfold getServiceAuthToken. cbv zeta. emits_steps.
    + intro tok. destruct tok as [serviceToken | err]; [| apply emits_ret].
      apply emits_bind.
      * unfold uploadVideoToService. emits_steps.
      * intro up. destruct up as [uploadResp | err]; [| apply emits_ret].
        assert (Hpoll :
          emits (videoEvent path)
            (p <- pollVideoJobUntilComplete rt env fuel serviceToken
                    (VideoUploadResponse_JobID uploadResp) ;;
             match p with
             | Err err => ret (Err (VideoProcessingFailed err))
             | Ok blob =>
                 ret (Ok {| EmbedVideo_Type := "app.bsky.embed.video";
                            EmbedVideo_Video := blob;
                            EmbedVideo_AspectRatio := None;
                            EmbedVideo_Alt := altText;
                            EmbedVideo_Captions := [] |})
             end)).
        { apply emits_bind.
          - unfold pollVideoJobUntilComplete. apply emits_bind;
              [apply emits_timeNow | intro t; apply emits_pollLoop].
          - intro p. destruct p; apply emits_ret. }
        destruct (VideoUploadResponse_Status uploadResp) as [status |];
          [| exact Hpoll].
        destruct status as [j s pr blob e m]. destruct blob; [apply emits_ret |].
        exact Hpoll.
Qed.

Lemma emits_processVideos (rt : Runtime) (env : Env) (fuel : nat)
    (pdsURL accessToken userDID videoPath altText : string) :
  emits (videoEvent (Go.TrimSpace videoPath))
    (processVideos rt env fuel pdsURL accessToken userDID videoPath altText).
Proof.
  unfold processVideos. destruct (videoPath == ""); [apply emits_ret |].
  cbv zeta. destruct (Go.TrimSpace videoPath == ""); [apply emits_ret |].
  apply emits_bind.
  - apply emits_processVideo.
  - intro r. destruct r; apply emits_ret.
Qed.

(** ** The orchestrator *)

(** Every facet that [parseRichTextFacets] makes has exactly one feature. *)
Lemma parseRichTextFacets_one_feature (rt : Runtime) (text : string) :
  Forall (fun facet => exists feature, RichTextFacet_Features facet = [feature])
    (parseRichTextFacets rt text).
Proof.
  unfold parseRichTextFacets.
  assert (Hgen : forall ms acc,
             Forall (fun facet =>
                       exists feature, RichTextFacet_Features facet = [feature])
               acc ->
             Forall (fun facet =>
                       exists feature, RichTextFacet_Features facet = [feature])
               (fold_left
                  (fun facets m =>
                     let '(matched, (start, originalEnd)) := m in
                     let cleanMatch :=
                       Go.TrimRight matched
                         ["."%char; ","%char; "!"%char; "?"%char; ";"%char;
                          ":"%char] in
                     if negb (urlParses rt cleanMatch) then facets
                     else
                       let trimmedLength := Go.len matched - Go.len cleanMatch in
                       let end_ := originalEnd - trimmedLength in
                       let byteStart := Go.len (Go.slicePrefix text start) in
                       let byteEnd := Go.len (Go.slicePrefix text end_) in
                       (facets ++
                        [ {| RichTextFacet_Index :=
                               {| RichTextIndex_ByteStart := byteStart;
                                  RichTextIndex_ByteEnd := byteEnd |};
                             RichTextFacet_Features :=
                               [ {| RichTextFeature_Type :=
                                      "app.bsky.richtext.facet#link";
                                    RichTextFeature_URI := cleanMatch |} ] |} ])%list)
                  ms acc)).
  { induction ms as [| [matched [start originalEnd]] ms IH]; intros acc Hacc.
    - exact Hacc.
    - simpl. apply IH.
      destruct (negb (urlParses rt _)); [exact Hacc |].
      apply Forall_app. split; [exact Hacc |].
      constructor; [| constructor]. eexists. reflexivity. }
  apply Hgen. constructor.
Qed.

(** [main] after the session and the embed selection. *)
Lemma main_session_failed (rt : Runtime) (env : Env) (fuel : nat)
    (args : ActionInputs) (w w1 : World) (e : error) :
  createSession rt env (ActionInputs_PDSURL args) (ActionInputs_Handle args)
    (ActionInputs_Password args) w = Some (Err e, w1) ->
  main rt env fuel args w = Some (OsExit 1, w1).
Proof. intro Hs. unfold main, bind. rewrite Hs. reflexivity. Qed.

Lemma main_ended (rt : Runtime) (env : Env) (fuel : nat)
    (args : ActionInputs) (w w1 w2 : World) (session : SessionResponse)
    (how : Exit) :
  createSession rt env (ActionInputs_PDSURL args) (ActionInputs_Handle args)
    (ActionInputs_Password args) w = Some (Ok session, w1) ->
  selectEmbed rt env fuel args session
    (parseRichTextFacets rt (ActionInputs_Text args)) w1
  = Some (Ended how, w2) ->
  main rt env fuel args w = Some (how, w2).
Proof.
  intros Hs Hsel. unfold main, bind. rewrite Hs. cbv zeta. rewrite Hsel.
  reflexivity.
Qed.

Lemma main_selected (rt : Runtime) (env : Env) (fuel : nat)
    (args : ActionInputs) (w w1 w2 : World) (session : SessionResponse)
    (embed : Embed) :
  createSession rt env (ActionInputs_PDSURL args) (ActionInputs_Handle args)
    (ActionInputs_Password args) w = Some (Ok session, w1) ->
  selectEmbed rt env fuel args session
    (parseRichTextFacets rt (ActionInputs_Text args)) w1
  = Some (Selected embed, w2) ->
  exists post,
    Post_Embed post = embed
    /\ Post_Text post = ActionInputs_Text args
    /\ main rt env fuel args w
       = (p <- publishPost env (ActionInputs_PDSURL args) session post ;;
          ret (match p with Some _ => OsExit 1 | None => Returned end)) w2.
Proof.
  intros Hs Hsel.
  exists {| Post_Type := "app.bsky.feed.post";
            Post_Text := ActionInputs_Text args;
            Post_CreatedAt := formatRFC3339 rt (unixNano env (now w2));
            Post_Langs := ActionInputs_Lang args;
            Post_Facets := parseRichTextFacets rt (ActionInputs_Text args);
            Post_Embed := embed |}.
  split; [reflexivity | split; [reflexivity |]].
  unfold main, bind. rewrite Hs. cbv zeta. rewrite Hsel. unfold timeNow.
  destruct (publishPost env _ session _ w2) as [[[err |] w3] |]; reflexivity.
Qed.

(** C5: the embed selection of [main].  A non-empty video path: the video
    processor alone runs, its result is the embed, and every event is one of
    the video processor (no image upload, no link fetch).  Else a non-empty
    image-path string: the image processor alone runs, its result is the
    embed, and every event is one of the image processor (no link fetch).
    Else, embeds enabled and a URL found: one fetch, of the first URL.
    Otherwise: the nil embed and no event.  The embed selected is the embed
    of the post that [main] publishes. *)
Theorem embed_selection_priority (rt : Runtime) (env : Env) (fuel : nat)
    (args : ActionInputs) (session : SessionResponse) :
  let pds := ActionInputs_PDSURL args in
  let token := SessionResponse_AccessToken session in
  let facets := parseRichTextFacets rt (ActionInputs_Text args) in
  (ActionInputs_VideoPath args <> "" ->
   (forall w,
       selectEmbed rt env fuel args session facets w
       = (r <- processVideos rt env fuel pds token
                 (SessionResponse_UserID session)
                 (ActionInputs_VideoPath args) (ActionInputs_VideoAltText args) ;;
          ret (match r with
               | Err _ => Ended (OsExit 1)
               | Ok videoEmbed => Selected (EmbedOfVideo videoEmbed)
               end)) w)
   /\ emits (videoEvent (Go.TrimSpace (ActionInputs_VideoPath args)))
        (selectEmbed rt env fuel args session facets))
  /\ (ActionInputs_VideoPath args = "" ->
      ActionInputs_ImagePaths args <> "" ->
      (forall w,
          selectEmbed rt env fuel args session facets w
          = (r <- processImages rt env pds token (ActionInputs_ImagePaths args)
                    (ActionInputs_ImageAltTexts args) ;;
             ret (match r with
                  | Err _ => Ended (OsExit 1)
                  | Ok None => Ended PanicNilPointer
                  | Ok (Some images) => Selected (EmbedOfImages (Some images))
                  end)) w)
      /\ emits (imageEvent (parseImagePaths (ActionInputs_ImagePaths args)))
           (selectEmbed rt env fuel args session facets))
  /\ (ActionInputs_VideoPath args = "" ->
      ActionInputs_ImagePaths args = "" ->
      ActionInputs_EnableEmbeds args = true ->
      forall facet rest,
        facets = facet :: rest ->
        exists feature,
          RichTextFacet_Features facet = [feature]
          /\ forall w,
              selectEmbed rt env fuel args session facets w
              = (e <- fetchLinkMetadata rt env (RichTextFeature_URI feature) ;;
                 ret (Selected (EmbedOfExternal e))) w
              /\ exists e,
                  selectEmbed rt env fuel args session facets w
                  = Some (Selected (EmbedOfExternal e),
                          happen env
                            (EvCall (CallGet (RichTextFeature_URI feature))) 0 w))
  /\ (ActionInputs_VideoPath args = "" ->
      ActionInputs_ImagePaths args = "" ->
      ActionInputs_EnableEmbeds args = false \/ facets = [] ->
      forall w,
        selectEmbed rt env fuel args session facets w
        = Some (Selected EmbedNil, w))
  /\ (forall w w1 w2 embed,
         createSession rt env pds (ActionInputs_Handle args)
           (ActionInputs_Password args) w = Some (Ok session, w1) ->
         selectEmbed rt env fuel args session facets w1
         = Some (Selected embed, w2) ->
         exists post,
           Post_Embed post = embed
           /\ Post_Text post = ActionInputs_Text args
           /\ main rt env fuel args w
              = (p <- publishPost env pds session post ;;
                 ret (match p with Some _ => OsExit 1 | None => Returned end))
                  w2).
Proof.
  intros pds token facets. split; [| split; [| split; [| split]]].
  - intro Hvideo.
    assert (Heq : forall w,
               selectEmbed rt env fuel args session facets w
               = (r <- processVideos rt env fuel pds token
                         (SessionResponse_UserID session)
                         (ActionInputs_VideoPath args)
                         (ActionInputs_VideoAltText args) ;;
                  ret (match r with
                       | Err _ => Ended (OsExit 1)
                       | Ok videoEmbed => Selected (EmbedOfVideo videoEmbed)
                       end)) w).
    { intro w. unfold selectEmbed. rewrite (streq_false Hvideo).
      cbv beta iota delta [negb]. unfold bind. fold pds token.
      destruct (processVideos rt env fuel pds token _ _ _ w) as [[[v | e] w'] |];
        reflexivity. }
    split; [exact Heq |].
    intros w a w' H. rewrite Heq in H. revert w a w' H.
    apply emits_bind; [apply emits_processVideos | intro r; apply emits_ret].
  - intros Hvideo Himages.
    assert (Heq : forall w,
               selectEmbed rt env fuel args session facets w
               = (r <- processImages rt env pds token
                         (ActionInputs_ImagePaths args)
                         (ActionInputs_ImageAltTexts args) ;;
                  ret (match r with
                       | Err _ => Ended (OsExit 1)
                       | Ok None => Ended PanicNilPointer
                       | Ok (Some images) =>
                           Selected (EmbedOfImages (Some images))
                       end)) w).
    { intro w. unfold selectEmbed. rewrite Hvideo, (streq_false Himages).
      rewrite streq_refl. cbv beta iota delta [negb]. unfold bind.
      fold pds token.
      destruct (processImages rt env pds token _ _ w) as [[[[im |] | e] w'] |];
        reflexivity. }
    split; [exact Heq |].
    intros w a w' H. rewrite Heq in H. revert w a w' H.
    apply emits_bind; [apply emits_processImages | intro r; apply emits_ret].
  - intros Hvideo Himages Hembeds facet rest Hfacets.
    pose proof (parseRichTextFacets_one_feature rt (ActionInputs_Text args))
      as Hone.
    fold facets in Hone. rewrite Hfacets in Hone.
    apply Forall_inv in Hone. destruct Hone as [feature Hfeature].
    exists feature. split; [exact Hfeature |]. intro w.
    assert (Heq : selectEmbed rt env fuel args session facets w
                  = (e <- fetchLinkMetadata rt env (RichTextFeature_URI feature) ;;
                     ret (Selected (EmbedOfExternal e))) w).
    { unfold selectEmbed. rewrite Hvideo, Himages, Hembeds, Hfacets.
      simpl. rewrite Hfeature. reflexivity. }
    split; [exact Heq |].
    rewrite Heq. unfold bind, fetchLinkMetadata, bind, httpDo.
    destruct (respond env (List.length (trace w))
                (CallGet (RichTextFeature_URI feature)))
      as [msg | code contentType body].
    + eexists. reflexivity.
    + destruct (negb (Go.Contains (Go.ToLower (lowerRunes rt) contentType)
                        "text/html")).
      * eexists. reflexivity.
      * cbv zeta.
        match goal with
        | |- context [if ?t == "" then ret None else _] => destruct (t == "")
        end; eexists; reflexivity.
  - intros Hvideo Himages Hnone w. unfold selectEmbed.
    rewrite Hvideo, Himages. simpl.
    destruct Hnone as [Hoff | Hempty].
    + rewrite Hoff. reflexivity.
    + rewrite Hempty. rewrite andb_false_r. reflexivity.
  - intros w w1 w2 embed Hs Hsel. eapply main_selected; eassumption.
Qed.

(** The four branches of the selection on sample inputs. *)
Lemma embed_selection_priority_witness :
  emits (videoEvent "clip.mp4")
    (selectEmbed sampleRuntime completeEnv 2
       (sampleArgs "hello" "a.png,b.png" "clip.mp4" "") sampleSession
       (parseRichTextFacets sampleRuntime "hello"))
  /\ emits (imageEvent ["a.png"; "b.png"])
       (selectEmbed sampleRuntime completeEnv 2
          (sampleArgs "hello" "a.png,b.png" "" "") sampleSession
          (parseRichTextFacets sampleRuntime "hello"))
  /\ (exists e,
         selectEmbed sampleRuntime completeEnv 2
           (sampleArgs "see https://example.com." "" "" "") sampleSession
           (parseRichTextFacets sampleRuntime "see https://example.com.")
           world0
         = Some (Selected (EmbedOfExternal e),
                 happen completeEnv (EvCall (CallGet "https://example.com"))
                   0 world0))
  /\ selectEmbed sampleRuntime completeEnv 2 (sampleArgs "hello" "" "" "")
       sampleSession (parseRichTextFacets sampleRuntime "hello") world0
     = Some (Selected EmbedNil, world0).
Proof.
  split; [| split; [| split]].
  - destruct (embed_selection_priority sampleRuntime completeEnv 2
                (sampleArgs "hello" "a.png,b.png" "clip.mp4" "") sampleSession)
      as [Hvideo _].
    apply Hvideo. simpl. discriminate.
  - destruct (embed_selection_priority sampleRuntime completeEnv 2
                (sampleArgs "hello" "a.png,b.png" "" "") sampleSession)
      as (_ & Himages & _).
    apply Himages.
    + reflexivity.
    + simpl. discriminate.
  - destruct (embed_selection_priority sampleRuntime completeEnv 2
                (sampleArgs "see https://example.com." "" "" "") sampleSession)
      as (_ & _ & Hlink & _).
    destruct (Hlink eq_refl eq_refl eq_refl
                {| RichTextFacet_Index :=
                     {| RichTextIndex_ByteStart := 4;
                        RichTextIndex_ByteEnd := 23 |};
                   RichTextFacet_Features :=
                     [ {| RichTextFeature_Type := "app.bsky.richtext.facet#link";
                          RichTextFeature_URI := "https://example.com" |} ] |}
                [] eq_refl) as (feature & Hfeature & Hrun).
    injection Hfeature as <-.
    destruct (Hrun world0) as [_ Hfetch]. exact Hfetch.
  - destruct (embed_selection_priority sampleRuntime completeEnv 2
                (sampleArgs "hello" "" "" "") sampleSession)
      as (_ & _ & _ & Hnil & _).
    apply Hnil.
    + reflexivity.
    + reflexivity.
    + right. reflexivity.
Defined.

(** C3: with no video path and an image-path string that is non-empty but
    parses to no path, [main] takes the image branch, [processImages] returns
    a nil embed and no error in an unchanged world, and [main] ends by the
    nil-pointer panic right there: nothing is published. *)
Theorem empty_image_list_panics (rt : Runtime) (env : Env) (fuel : nat)
    (args : ActionInputs) (w w1 : World) (session : SessionResponse) :
  createSession rt env (ActionInputs_PDSURL args) (ActionInputs_Handle args)
    (ActionInputs_Password args) w = Some (Ok session, w1) ->
  ActionInputs_VideoPath args = "" ->
  ActionInputs_ImagePaths args <> "" ->
  parseImagePaths (ActionInputs_ImagePaths args) = [] ->
  processImages rt env (ActionInputs_PDSURL args)
    (SessionResponse_AccessToken session) (ActionInputs_ImagePaths args)
    (ActionInputs_ImageAltTexts args) w1
  = Some (Ok None, w1)
  /\ selectEmbed rt env fuel args session
       (parseRichTextFacets rt (ActionInputs_Text args)) w1
     = Some (Ended PanicNilPointer, w1)
  /\ main rt env fuel args w = Some (PanicNilPointer, w1).
Proof.
  intros Hs Hvideo Himages Hparse.
  assert (Hproc : processImages rt env (ActionInputs_PDSURL args)
                    (SessionResponse_AccessToken session)
                    (ActionInputs_ImagePaths args)
                    (ActionInputs_ImageAltTexts args) w1
                  = Some (Ok None, w1)).
  { unfold processImages. cbv zeta. rewrite Hparse. reflexivity. }
  assert (Hsel : selectEmbed rt env fuel args session
                   (parseRichTextFacets rt (ActionInputs_Text args)) w1
                 = Some (Ended PanicNilPointer, w1)).
  { unfold selectEmbed. rewrite Hvideo, (streq_false Himages), streq_refl.
    cbv beta iota delta [negb]. unfold bind. rewrite Hproc. reflexivity. }
  split; [exact Hproc | split; [exact Hsel |]].
  eapply main_ended; eassumption.
Qed.

(** The image-path string of commas and spaces. *)
Lemma empty_image_list_panics_witness :
  main sampleRuntime sampleEnv 0 (sampleArgs "hello" " , , " "" "") world0
  = Some (PanicNilPointer, sessionWorld sampleEnv).
Proof.
  apply (empty_image_list_panics sampleRuntime sampleEnv 0
           (sampleArgs "hello" " , , " "" "") world0 (sessionWorld sampleEnv)
           sampleSession).
  - reflexivity.
  - reflexivity.
  - simpl. discriminate.
  - reflexivity.
Defined.

(** C10: a video path that is non-empty but blank makes [main] take the
    video branch, where [processVideos] gives no embed and no error; [main]
    then publishes the post with the nil video pointer as embed, and the only
    event after the session is that publication: the image paths are never
    processed.  The run returns when the server accepts the post. *)
Theorem blank_video_path_skips_images (rt : Runtime) (env : Env) (fuel : nat)
    (args : ActionInputs) (w w1 : World) (session : SessionResponse) :
  createSession rt env (ActionInputs_PDSURL args) (ActionInputs_Handle args)
    (ActionInputs_Password args) w = Some (Ok session, w1) ->
  ActionInputs_VideoPath args <> "" ->
  Go.TrimSpace (ActionInputs_VideoPath args) = "" ->
  processVideos rt env fuel (ActionInputs_PDSURL args)
    (SessionResponse_AccessToken session) (SessionResponse_UserID session)
    (ActionInputs_VideoPath args) (ActionInputs_VideoAltText args) w1
  = Some (Ok None, w1)
  /\ exists post exit,
      Post_Embed post = EmbedOfVideo None
      /\ Post_Text post = ActionInputs_Text args
      /\ main rt env fuel args w
         = Some (exit,
                 happen env
                   (EvCall (CallCreateRecord (ActionInputs_PDSURL args)
                              (SessionResponse_AccessToken session)
                              (SessionResponse_UserID session) post)) 0 w1)
      /\ (forall ctype body,
             respond env (List.length (trace w1))
               (CallCreateRecord (ActionInputs_PDSURL args)
                  (SessionResponse_AccessToken session)
                  (SessionResponse_UserID session) post)
             = Response 200 ctype body ->
             exit = Returned).
Proof.
  intros Hs Hvideo Hblank.
  assert (Hproc : processVideos rt env fuel (ActionInputs_PDSURL args)
                    (SessionResponse_AccessToken session)
                    (SessionResponse_UserID session)
                    (ActionInputs_VideoPath args)
                    (ActionInputs_VideoAltText args) w1
                  = Some (Ok None, w1)).
  { unfold processVideos. rewrite (streq_false Hvideo). cbv zeta.
    rewrite Hblank. reflexivity. }
  split; [exact Hproc |].
  assert (Hsel : selectEmbed rt env fuel args session
                   (parseRichTextFacets rt (ActionInputs_Text args)) w1
                 = Some (Selected (EmbedOfVideo None), w1)).
  { unfold selectEmbed. rewrite (streq_false Hvideo).
    cbv beta iota delta [negb]. unfold bind. rewrite Hproc. reflexivity. }
  destruct (main_selected rt env fuel args w w1 w1 session _ Hs Hsel)
    as (post & Hembed & Htext & Hmain).
  exists post.
  unfold bind, publishPost, bind, httpDo in Hmain.
  destruct (respond env (List.length (trace w1))
              (CallCreateRecord (ActionInputs_PDSURL args)
                 (SessionResponse_AccessToken session)
                 (SessionResponse_UserID session) post))
    as [msg | code ctype body] eqn:Hresp.
  - exists (OsExit 1). repeat split; try assumption. intros ? ? H. discriminate H.
  - destruct (code =? 200) eqn:Hcode.
    + exists Returned. repeat split; assumption.
    + exists (OsExit 1). repeat split; try assumption.
      intros ctype' body' H. injection H as -> _ _. discriminate Hcode.
Qed.

(** A video path of three spaces, with image paths supplied. *)
Lemma blank_video_path_skips_images_witness :
  processVideos sampleRuntime sampleEnv 0 "https://bsky.social" "jwt"
    "did:plc:test" "   " "" (sessionWorld sampleEnv)
  = Some (Ok None, sessionWorld sampleEnv)
  /\ exists post exit,
      Post_Embed post = EmbedOfVideo None
      /\ Post_Text post = "hello"
      /\ main sampleRuntime sampleEnv 0
           (sampleArgs "hello" "a.png,b.png" "   " "") world0
         = Some (exit,
                 happen sampleEnv
                   (EvCall (CallCreateRecord "https://bsky.social" "jwt"
                              "did:plc:test" post)) 0 (sessionWorld sampleEnv))
      /\ (forall ctype body,
             respond sampleEnv (List.length (trace (sessionWorld sampleEnv)))
               (CallCreateRecord "https://bsky.social" "jwt" "did:plc:test" post)
             = Response 200 ctype body ->
             exit = Returned).
Proof.
  apply (blank_video_path_skips_images sampleRuntime sampleEnv 0
           (sampleArgs "hello" "a.png,b.png" "   " "") world0
           (sessionWorld sampleEnv) sampleSession).
  - reflexivity.
  - simpl. discriminate.
  - reflexivity.
Defined.

(** ** Alt texts of the attachments *)

(** Takes apart a run that is known to have succeeded. *)
Ltac run_cases H :=
  repeat match type of H with
         | context [match ?x with _ => _ end] =>
             destruct x eqn:?; try discriminate H
         | context [if ?b then _ else _] =>
             destruct b eqn:?; try discriminate H
         end.

Lemma processImage_alt (rt : Runtime) (env : Env)
    (pdsURL accessToken path altText : string) (w w' : World)
    (embedImage : EmbedImage) :
  processImage rt env pdsURL accessToken path altText w
  = Some (Ok embedImage, w') ->
  EmbedImage_Alt embedImage = altText.
Proof.
  intro H. unfold processImage, bind, osReadFile, ret in H.
  run_cases H. injection H as <- _. reflexivity.
Qed.

(** The images of a batch carry, in order, the alt texts that
    [resolveAltText] gives for their positions. *)
Lemma processImagesFrom_alts (rt : Runtime) (env : Env)
    (pdsURL accessToken : string) (alts : list string) (paths : list string) :
  forall (i : nat) (acc : list EmbedImage) (w w' : World)
         (embedImages : list EmbedImage),
    processImagesFrom rt env pdsURL accessToken alts i paths acc w
    = Some (Ok embedImages, w') ->
    exists added,
      embedImages = (acc ++ added)%list
      /\ map EmbedImage_Alt added
         = map (fun k => resolveAltText k alts) (seq i (List.length paths)).
Proof.
  induction paths as [| path rest IH]; intros i acc w w' embedImages H; simpl in H.
  - injection H as <- _. exists []. split; [symmetry; apply app_nil_r | reflexivity].
  - unfold bind in H.
    destruct (processImage rt env pdsURL accessToken path
                (resolveAltText i alts) w) as [[[embedImage | err] w1] |] eqn:E;
      try discriminate H.
    destruct (IH (S i) _ w1 w' embedImages H) as (added & Hall & Halts).
    exists (embedImage :: added). split.
    + rewrite Hall, <- app_assoc. reflexivity.
    + simpl. rewrite (processImage_alt _ _ _ _ _ _ _ _ _ E), Halts. reflexivity.
Qed.

(** Every image of an images embed has a non-empty alt text: a non-blank
    supplied value, trimmed, or the default label of its position. *)
Lemma processImages_alts_nonempty (rt : Runtime) (env : Env)
    (pdsURL accessToken imagePaths altTexts : string) (w w' : World)
    (images : EmbedImages) :
  processImages rt env pdsURL accessToken imagePaths altTexts w
  = Some (Ok (Some images), w') ->
  map EmbedImage_Alt (EmbedImages_Images images)
  = map (fun k => resolveAltText k (Go.Split altTexts ","%char))
      (seq 0 (List.length (parseImagePaths imagePaths)))
  /\ Forall (fun image => EmbedImage_Alt image <> "") (EmbedImages_Images images).
Proof.
  intro H. unfold processImages in H. cbv zeta in H.
  destruct (Go.lenSlice (parseImagePaths imagePaths) =? 0); [discriminate H |].
  destruct (Go.lenSlice (parseImagePaths imagePaths) >? maxImagesPerPost);
    [discriminate H |].
  unfold bind in H.
  destruct (processImagesFrom rt env pdsURL accessToken
              (Go.Split altTexts ","%char) 0 (parseImagePaths imagePaths) [] w)
    as [[[embedImages | err] w1] |] eqn:E; try discriminate H.
  injection H as <- _. simpl.
  destruct (processImagesFrom_alts _ _ _ _ _ _ _ _ _ _ _ E) as (added & Hall & Halts).
  simpl in Hall. subst embedImages. split; [exact Halts |].
  apply Forall_forall. intros image Hin.
  apply (in_map EmbedImage_Alt) in Hin. rewrite Halts in Hin.
  apply in_map_iff in Hin. destruct Hin as (k & Hk & _). rewrite <- Hk.
  apply resolveAltText_nonempty.
Qed.

Lemma processVideo_alt (rt : Runtime) (env : Env) (fuel : nat)
    (pdsURL accessToken userDID path altText : string) (w w' : World)
    (embed : EmbedVideo) :
  processVideo rt env fuel pdsURL accessToken userDID path altText w
  = Some (Ok embed, w') ->
  EmbedVideo_Alt embed = altText.
Proof.
  intro H. unfold processVideo, bind, osReadFile, ret in H.
  run_cases H; injection H as <- _; reflexivity.
Qed.

(** The alt text of a video embed is the supplied one, trimmed, with
    "Video" in place of the empty string only. *)
Lemma processVideos_alt (rt : Runtime) (env : Env) (fuel : nat)
    (pdsURL accessToken userDID videoPath altText : string) (w w' : World)
    (embed : EmbedVideo) :
  processVideos rt env fuel pdsURL accessToken userDID videoPath altText w
  = Some (Ok (Some embed), w') ->
  EmbedVideo_Alt embed
  = Go.TrimSpace (if altText == "" then "Video" else altText).
Proof.
  intro H. unfold processVideos in H. cbv zeta in H.
  destruct (videoPath == ""); [discriminate H |].
  destruct (Go.TrimSpace videoPath == ""); [discriminate H |].
  unfold bind in H.
  destruct (processVideo rt env fuel pdsURL accessToken userDID
              (Go.TrimSpace videoPath)
              (Go.TrimSpace (if altText == "" then "Video" else altText)) w)
    as [[[e | err] w1] |] eqn:E; try discriminate H.
  injection H as <- _. eapply processVideo_alt. exact E.
Qed.

(** C2 at a video alt text of three spaces: the video is processed, its
    embed has the empty alt text, not "Video", and that embed is the embed of
    the post the run publishes. *)
Theorem blank_video_alt_text_stays_empty :
  exists embed w1,
    processVideos sampleRuntime completeEnv 1 "https://bsky.social" "jwt"
      "did:plc:test" "clip.mp4" "   " (sessionWorld completeEnv)
    = Some (Ok (Some embed), w1)
    /\ EmbedVideo_Alt embed = ""
    /\ exists post w2,
        main sampleRuntime completeEnv 1
          (sampleArgs "hello" "" "clip.mp4" "   ") world0
        = Some (Returned, w2)
        /\ trace w2
           = (trace w1
              ++ [EvCall (CallCreateRecord "https://bsky.social" "jwt"
                            "did:plc:test" post)])%list
        /\ Post_Embed post = EmbedOfVideo (Some embed).
Proof.
  eexists. eexists. split; [vm_compute; reflexivity |].
  split; [reflexivity |].
  eexists. eexists. split; [vm_compute; reflexivity |].
  split; reflexivity.
Qed.

(** ** Further facts about the branches *)

(** In the video branch the selection depends on the server, the session,
    the video path and the video alt text only: image paths, image alt
    texts, the embed switch and the facets play no part. *)
Lemma video_branch_ignores_images (rt : Runtime) (env : Env) (fuel : nat)
    (args args' : ActionInputs) (session : SessionResponse)
    (facets facets' : list RichTextFacet) (w : World) :
  ActionInputs_VideoPath args <> "" ->
  ActionInputs_VideoPath args' = ActionInputs_VideoPath args ->
  ActionInputs_VideoAltText args' = ActionInputs_VideoAltText args ->
  ActionInputs_PDSURL args' = ActionInputs_PDSURL args ->
  selectEmbed rt env fuel args' session facets' w
  = selectEmbed rt env fuel args session facets w.
Proof.
  intros Hvideo Hpath Halt Hpds. unfold selectEmbed.
  rewrite Hpath, Halt, Hpds, (streq_false Hvideo). reflexivity.
Qed.

(** In the image branch the embed switch and the facets play no part. *)
Lemma image_branch_ignores_links (rt : Runtime) (env : Env) (fuel : nat)
    (args args' : ActionInputs) (session : SessionResponse)
    (facets facets' : list RichTextFacet) (w : World) :
  ActionInputs_VideoPath args = "" ->
  ActionInputs_ImagePaths args <> "" ->
  ActionInputs_VideoPath args' = ActionInputs_VideoPath args ->
  ActionInputs_ImagePaths args' = ActionInputs_ImagePaths args ->
  ActionInputs_ImageAltTexts args' = ActionInputs_ImageAltTexts args ->
  ActionInputs_PDSURL args' = ActionInputs_PDSURL args ->
  selectEmbed rt env fuel args' session facets' w
  = selectEmbed rt env fuel args session facets w.
Proof.
  intros Hvideo Himages Hpath Hpaths Halts Hpds. unfold selectEmbed.
  rewrite Hpath, Hpaths, Halts, Hpds, Hvideo, (streq_false Himages).
  reflexivity.
Qed.

(** A video whose job stays pending, from the file to the error that
    [processVideo] returns. *)
Example processVideo_pending_job :
  exists w',
    processVideo sampleRuntime sampleEnv 152 "https://bsky.social" "jwt"
      "did:plc:test" "clip.mp4" "Video" world0
    = Some (Err (VideoProcessingFailed ProcessingTimedOut), w')
    /\ now w' = 302 * second
    /\ errorString (VideoProcessingFailed ProcessingTimedOut)
       = "video processing failed: video processing timed out after 5m0s".
Proof.
  eexists. split; [vm_compute; reflexivity |]. split; reflexivity.
Qed.

(** The same video when the service knows it already: no poll is made. *)
Example processVideo_cached_upload :
  let env :=
    {| readFile := readFile sampleEnv;
       respond := fun _ c =>
         match c with
         | CallUploadVideo _ _ _ _ _ =>
             Response 200 "application/json" "cached"
         | _ => sampleRespond pendingReply c
         end;
       elapse := elapse sampleEnv;
       bootUnixNano := bootUnixNano sampleEnv |} in
  exists embed w',
    processVideo sampleRuntime env 0 "https://bsky.social" "jwt"
      "did:plc:test" "clip.mp4" "Video" world0
    = Some (Ok embed, w')
    /\ EmbedVideo_Video embed = sampleBlob
    /\ List.length (trace w') = 3%nat.
Proof.
  eexists. eexists. split; [vm_compute; reflexivity |]. split; reflexivity.
Qed.

(** * Further properties of the code *)

(** ** MIME detection *)

Lemma lowerByte_dot_or_separator (c : ascii) :
  Go.isDotOrSeparator (Go.lowerByte c) = Go.isDotOrSeparator c
  /\ Ascii.eqb (Go.lowerByte c) "."%char = Ascii.eqb c "."%char.
Proof. destruct c as [[] [] [] [] [] [] [] []]; split; reflexivity. Qed.

Lemma lowerByte_ascii (c : ascii) :
  (Go.byteOf (Go.lowerByte c) <? 128)%N = (Go.byteOf c <? 128)%N.
Proof. destruct c as [[] [] [] [] [] [] [] []]; reflexivity. Qed.

Lemma lowerByte_idempotent (c : ascii) :
  Go.lowerByte (Go.lowerByte c) = Go.lowerByte c.
Proof. destruct c as [[] [] [] [] [] [] [] []]; reflexivity. Qed.

Lemma hasDotOrSeparator_lowerBytes (s : string) :
  Go.hasDotOrSeparator (Go.lowerBytes s) = Go.hasDotOrSeparator s.
Proof.
  induction s as [| c s IH]; simpl; [reflexivity |].
  destruct (lowerByte_dot_or_separator c) as [H _]. rewrite H, IH. reflexivity.
Qed.

Lemma Ext_lowerBytes (s : string) :
  Go.Ext (Go.lowerBytes s) = Go.lowerBytes (Go.Ext s).
Proof.
  induction s as [| c s IH]; simpl; [reflexivity |].
  rewrite hasDotOrSeparator_lowerBytes.
  destruct (Go.hasDotOrSeparator s); [exact IH |].
  destruct (lowerByte_dot_or_separator c) as [_ H]. rewrite H.
  destruct (Ascii.eqb c "."%char); reflexivity.
Qed.

Lemma isASCII_lowerBytes (s : string) :
  Go.isASCII (Go.lowerBytes s) = Go.isASCII s.
Proof.
  induction s as [| c s IH]; simpl; [reflexivity |].
  rewrite lowerByte_ascii, IH. reflexivity.
Qed.

Lemma lowerBytes_idempotent (s : string) :
  Go.lowerBytes (Go.lowerBytes s) = Go.lowerBytes s.
Proof.
  induction s as [| c s IH]; simpl; [reflexivity |].
  rewrite lowerByte_idempotent, IH. reflexivity.
Qed.

Lemma isASCII_Ext (s : string) :
  Go.isASCII s = true -> Go.isASCII (Go.Ext s) = true.
Proof.
  induction s as [| c s IH]; simpl; [reflexivity |].
  intro H. apply andb_true_iff in H. destruct H as [Hc Hs].
  destruct (Go.hasDotOrSeparator s); [apply IH; exact Hs |].
  destruct (Ascii.eqb c "."%char); [| reflexivity].
  simpl. rewrite Hc, Hs. reflexivity.
Qed.

(** On a file name of ASCII bytes the lowered extension is the extension of
    the lowered name. *)
Lemma ToLower_Ext_ascii (lower : string -> string) (f : string) :
  Go.isASCII f = true ->
  Go.ToLower lower (Go.Ext f) = Go.Ext (Go.lowerBytes f).
Proof.
  intro H. unfold Go.ToLower. rewrite (isASCII_Ext f H).
  symmetry. apply Ext_lowerBytes.
Qed.

(** MIME detection does not see the case of ASCII letters: two file names
    of ASCII bytes that are equal up to the case of their letters have the
    same image type and the same video type. *)
Theorem mime_detection_ignores_case (rt : Runtime) (f g : string) :
  Go.isASCII f = true ->
  Go.isASCII g = true ->
  Go.lowerBytes f = Go.lowerBytes g ->
  detectImageMimeType rt f = detectImageMimeType rt g
  /\ detectVideoMimeType rt f = detectVideoMimeType rt g.
Proof.
  intros Hf Hg Heq. unfold detectImageMimeType, detectVideoMimeType.
  rewrite (ToLower_Ext_ascii (lowerRunes rt) f Hf).
  rewrite (ToLower_Ext_ascii (lowerRunes rt) g Hg).
  rewrite Heq. split; reflexivity.
Qed.

Lemma mime_detection_ignores_case_witness :
  detectImageMimeType sampleRuntime "shots/IMAGE.JpEg"
  = detectImageMimeType sampleRuntime "shots/image.jpeg"
  /\ detectVideoMimeType sampleRuntime "shots/IMAGE.JpEg"
     = detectVideoMimeType sampleRuntime "shots/image.jpeg".
Proof.
  apply (mime_detection_ignores_case sampleRuntime "shots/IMAGE.JpEg"
           "shots/image.jpeg"); reflexivity.
Defined.

Lemma mime_detection_cases (rt : Runtime) (f : string) :
  In (detectImageMimeType rt f)
    ["image/jpeg"; "image/png"; "image/gif"; "image/webp"; ""]
  /\ In (detectVideoMimeType rt f)
       ["video/mp4"; "video/quicktime"; "video/webm"; ""]
  /\ (detectImageMimeType rt f = "" \/ detectVideoMimeType rt f = "").
Proof.
  unfold detectImageMimeType, detectVideoMimeType.
  set (ext := Go.ToLower (lowerRunes rt) (Go.Ext f)). cbv zeta.
  destruct (ext == ".jpg") eqn:E1;
    [apply String.eqb_eq in E1; rewrite E1; simpl; tauto |].
  destruct (ext == ".jpeg") eqn:E2;
    [apply String.eqb_eq in E2; rewrite E2; simpl; tauto |].
  destruct (ext == ".png") eqn:E3;
    [apply String.eqb_eq in E3; rewrite E3; simpl; tauto |].
  destruct (ext == ".gif") eqn:E4;
    [apply String.eqb_eq in E4; rewrite E4; simpl; tauto |].
  destruct (ext == ".webp") eqn:E5;
    [apply String.eqb_eq in E5; rewrite E5; simpl; tauto |].
  simpl.
  destruct (ext == ".mp4"); [simpl; tauto |].
  destruct (ext == ".mov"); [simpl; tauto |].
  destruct (ext == ".webm"); simpl; tauto.
Qed.

(** The detected types are the seven known ones or none, and no file name
    has both an image type and a video type. *)
Theorem mime_detection_range (rt : Runtime) (f : string) :
  In (detectImageMimeType rt f)
    ["image/jpeg"; "image/png"; "image/gif"; "image/webp"; ""]
  /\ In (detectVideoMimeType rt f)
       ["video/mp4"; "video/quicktime"; "video/webm"; ""]
  /\ (detectImageMimeType rt f = "" \/ detectVideoMimeType rt f = "").
Proof. apply mime_detection_cases. Qed.

(** ** Parsing the image paths *)

Lemma parse_fold (pieces : list string) :
  forall acc : list string,
    fold_left
      (fun validPaths path =>
         let trimmed := Go.TrimSpace path in
         if negb (trimmed == "") then (validPaths ++ [trimmed])%list
         else validPaths)
      pieces acc
    = (acc ++ filter (fun t => negb (t == "")) (map Go.TrimSpace pieces))%list.
Proof.
  induction pieces as [| piece pieces IH]; intro acc; simpl.
  - symmetry. apply app_nil_r.
  - rewrite IH. destruct (negb (Go.TrimSpace piece == "")).
    + rewrite <- app_assoc. reflexivity.
    + reflexivity.
Qed.

(** The parsed paths are the trimmed pieces between the commas, in order,
    without the blank ones: no parsed path is empty, and there are at most
    as many paths as pieces. *)
Theorem parseImagePaths_pieces (imagePaths : string) :
  parseImagePaths imagePaths
  = filter (fun t => negb (t == ""))
      (map Go.TrimSpace (Go.Split imagePaths ","%char))
  /\ Forall (fun path => path <> "") (parseImagePaths imagePaths)
  /\ (List.length (parseImagePaths imagePaths)
      <= List.length (Go.Split imagePaths ","%char))%nat.
Proof.
  assert (Heq : parseImagePaths imagePaths
                = filter (fun t => negb (t == ""))
                    (map Go.TrimSpace (Go.Split imagePaths ","%char))).
  { unfold parseImagePaths. destruct (imagePaths == "") eqn:E.
    - apply String.eqb_eq in E. subst imagePaths. reflexivity.
    - cbv zeta. rewrite parse_fold. reflexivity. }
  split; [exact Heq | split].
  - rewrite Heq. apply Forall_forall. intros path Hin.
    apply filter_In in Hin. destruct Hin as [_ Hne].
    intro Hempty. subst path. discriminate Hne.
  - rewrite Heq. etransitivity; [apply filter_length_le |].
    rewrite length_map. apply Nat.le_refl.
Qed.

(** ** The images embed *)


(** An images embed has the type of the lexicon and one image for each
    parsed path, hence between one and four images, never none. *)
Theorem processImages_embed_shape (rt : Runtime) (env : Env)
    (pdsURL accessToken imagePaths altTexts : string) (w w' : World)
    (images : EmbedImages) :
  processImages rt env pdsURL accessToken imagePaths altTexts w
  = Some (Ok (Some images), w') ->
  EmbedImages_Type images = "app.bsky.embed.images"
  /\ List.length (EmbedImages_Images images)
     = List.length (parseImagePaths imagePaths)
  /\ (1 <= List.length (EmbedImages_Images images) <= 4)%nat.
Proof.
  intro H.
  destruct (processImages_alts_nonempty rt env pdsURL accessToken imagePaths
              altTexts w w' images H) as [Halts _].
  assert (Hlen : List.length (EmbedImages_Images images)
                 = List.length (parseImagePaths imagePaths)).
  { apply (f_equal (@List.length string)) in Halts.
    rewrite !length_map, length_seq in Halts. exact Halts. }
  unfold processImages in H. cbv zeta in H. unfold Go.lenSlice in H.
  destruct (Z.of_nat (List.length (parseImagePaths imagePaths)) =? 0) eqn:E0;
    [discriminate H |].
  destruct (Z.of_nat (List.length (parseImagePaths imagePaths))
            >? maxImagesPerPost) eqn:E4; [discriminate H |].
  unfold bind in H.
  destruct (processImagesFrom rt env pdsURL accessToken
              (Go.Split altTexts ","%char) 0 (parseImagePaths imagePaths) [] w)
    as [[[embedImages | err] w1] |]; try discriminate H.
  injection H as <- _. simpl in *.
  apply Z.eqb_neq in E0. rewrite Z.gtb_ltb in E4. apply Z.ltb_ge in E4.
  unfold maxImagesPerPost in E4.
  split; [reflexivity | split; [exact Hlen | lia]].
Qed.

Lemma processImages_embed_shape_witness :
  exists images w',
    processImages sampleRuntime sampleEnv "https://bsky.social" "jwt"
      "a.png, b.jpg ,c.gif" "one,two" world0
    = Some (Ok (Some images), w')
    /\ EmbedImages_Type images = "app.bsky.embed.images"
    /\ List.length (EmbedImages_Images images)
       = List.length (parseImagePaths "a.png, b.jpg ,c.gif")
    /\ (1 <= List.length (EmbedImages_Images images) <= 4)%nat.
Proof.
  eexists. eexists. split; [vm_compute; reflexivity |].
  eapply (processImages_embed_shape sampleRuntime sampleEnv
            "https://bsky.social" "jwt" "a.png, b.jpg ,c.gif" "one,two" world0).
  vm_compute. reflexivity.
Defined.

Lemma Split_without_separator (s : string) (sep : ascii) :
  Go.Contains s (String sep EmptyString) = false -> Go.Split s sep = [s].
Proof.
  induction s as [| c s IH]; intro H; [reflexivity |].
  simpl in H. simpl.
  destruct (ascii_dec sep c) as [<- | Hne].
  - destruct s; discriminate H.
  - simpl in H.
    replace (Ascii.eqb c sep) with false
      by (symmetry; apply Ascii.eqb_neq; congruence).
    rewrite (IH H). reflexivity.
Qed.

Lemma resolveAltText_single (k : nat) (alt : string) :
  (Go.TrimSpace alt <> "" -> resolveAltText k [alt] = Go.TrimSpace alt)
  /\ (Go.TrimSpace alt = "" ->
      resolveAltText k [alt] = "Image " ++ Go.fmtInt (Z.of_nat k + 1)).
Proof.
  unfold resolveAltText. split; intro H.
  - destruct k as [| k]; simpl; rewrite (streq_false H); reflexivity.
  - destruct k as [| [| k]]; simpl; try rewrite H; reflexivity.
Qed.

(** One alt text for a whole batch: when the alt-text input has no comma,
    every image of the embed carries it, trimmed, if it is not blank, and
    the images carry the labels "Image 1", "Image 2", ... if it is blank. *)
Theorem processImages_single_alt_text (rt : Runtime) (env : Env)
    (pdsURL accessToken imagePaths altTexts : string) (w w' : World)
    (images : EmbedImages) :
  Go.Contains altTexts "," = false ->
  processImages rt env pdsURL accessToken imagePaths altTexts w
  = Some (Ok (Some images), w') ->
  (Go.TrimSpace altTexts <> "" ->
   Forall (fun image => EmbedImage_Alt image = Go.TrimSpace altTexts)
     (EmbedImages_Images images))
  /\ (Go.TrimSpace altTexts = "" ->
      map EmbedImage_Alt (EmbedImages_Images images)
      = map (fun k => "Image " ++ Go.fmtInt (Z.of_nat k + 1))
          (seq 0 (List.length (EmbedImages_Images images)))).
Proof.
  intros Hcomma H.
  destruct (processImages_alts_nonempty rt env pdsURL accessToken imagePaths
              altTexts w w' images H) as [Halts _].
  rewrite (Split_without_separator altTexts ","%char Hcomma) in Halts.
  assert (Hlen : List.length (EmbedImages_Images images)
                 = List.length (parseImagePaths imagePaths)).
  { apply (f_equal (@List.length string)) in Halts.
    rewrite !length_map, length_seq in Halts. exact Halts. }
  split; intro Hblank.
  - apply Forall_forall. intros image Hin.
    apply (in_map EmbedImage_Alt) in Hin. rewrite Halts in Hin.
    apply in_map_iff in Hin. destruct Hin as (k & Hk & _). rewrite <- Hk.
    apply resolveAltText_single. exact Hblank.
  - rewrite Halts, Hlen. apply map_ext. intro k.
    apply resolveAltText_single. exact Hblank.
Qed.

Lemma processImages_single_alt_text_witness :
  exists images w',
    processImages sampleRuntime sampleEnv "https://bsky.social" "jwt"
      "a.png,b.jpg" " Product image " world0
    = Some (Ok (Some images), w')
    /\ Forall (fun image => EmbedImage_Alt image = "Product image")
         (EmbedImages_Images images).
Proof.
  eexists. eexists. split; [vm_compute; reflexivity |].
  refine (proj1 (processImages_single_alt_text sampleRuntime sampleEnv
                   "https://bsky.social" "jwt" "a.png,b.jpg" " Product image "
                   world0 _ _ eq_refl _) _).
  - vm_compute. reflexivity.
  - vm_compute. discriminate.
Defined.

(** ** What the image processor sends and in which order *)

Lemma validateImageData_accepts (rt : Runtime) (path : string)
    (imageData : list Byte.byte) :
  validateImageData rt path imageData = None ->
  Go.lenSlice imageData <= maxImageSize /\ detectImageMimeType rt path <> "".
Proof.
  unfold validateImageData. intro H.
  destruct (Go.lenSlice imageData >? maxImageSize) eqn:E; [discriminate H |].
  cbv zeta in H.
  destruct (detectImageMimeType rt path == "") eqn:E'; [discriminate H |].
  split.
  - rewrite Z.gtb_ltb in E. apply Z.ltb_ge in E. exact E.
  - apply String.eqb_neq. exact E'.
Qed.

Lemma emits_processImage_within_limits (rt : Runtime) (env : Env)
    (pdsURL accessToken path altText : string) :
  emits (imageUploadWithinLimits pdsURL accessToken)
    (processImage rt env pdsURL accessToken path altText).
Proof.
  unfold processImage. apply emits_bind.
  - apply emits_osReadFile. reflexivity.
  - intro r. destruct r as [imageData | err]; [| apply emits_ret].
    destruct (validateImageData rt path imageData) eqn:Hvalid;
      [apply emits_ret |].
    destruct (validateImageData_accepts rt path imageData Hvalid)
      as [Hsize Hfmt].
    cbv zeta. apply emits_bind.
    + apply emits_uploadBlob. simpl.
      rewrite !streq_refl. simpl.
      replace (Go.lenSlice imageData <=? maxImageSize) with true
        by (symmetry; apply Z.leb_le; exact Hsize).
      simpl.
      destruct (mime_detection_cases rt path) as [Hrange _].
      simpl in Hrange.
      destruct Hrange as [<- | [<- | [<- | [<- | [Hnone | []]]]]];
        try reflexivity.
      exfalso. apply Hfmt. symmetry. exact Hnone.
    + intro b. emits_steps.
Qed.

(** Every blob upload that [processImages] sends goes to the server and
    with the token it was given, and carries at most 1,000,000 bytes under
    one of the four image types: nothing oversized or of unknown format is
    ever uploaded. *)
Theorem processImages_uploads_within_limits (rt : Runtime) (env : Env)
    (pdsURL accessToken imagePaths altTexts : string) :
  emits (imageUploadWithinLimits pdsURL accessToken)
    (processImages rt env pdsURL accessToken imagePaths altTexts).
Proof.
  unfold processImages. cbv zeta.
  destruct (Go.lenSlice (parseImagePaths imagePaths) =? 0); [apply emits_ret |].
  destruct (Go.lenSlice (parseImagePaths imagePaths) >? maxImagesPerPost);
    [apply emits_ret |].
  apply emits_bind.
  - generalize (@nil EmbedImage) at 1. generalize 0%nat.
    induction (parseImagePaths imagePaths) as [| path rest IH];
      intros i acc; simpl.
    + apply emits_ret.
    + apply emits_bind.
      * apply emits_processImage_within_limits.
      * intro r. destruct r as [embedImage | err]; [apply IH | apply emits_ret].
  - intro r. emits_steps.
Qed.

Lemma processImages_uploads_within_limits_witness :
  exists r w' evs,
    processImages sampleRuntime sampleEnv "https://bsky.social" "jwt"
      "a.png,b.jpg" "" world0 = Some (r, w')
    /\ trace w' = (trace world0 ++ evs)%list
    /\ forallb (imageUploadWithinLimits "https://bsky.social" "jwt") evs = true.
Proof.
  eassert (Hrun : processImages sampleRuntime sampleEnv "https://bsky.social"
                    "jwt" "a.png,b.jpg" "" world0 = Some (_, _))
    by (vm_compute; reflexivity).
  destruct (processImages_uploads_within_limits sampleRuntime sampleEnv
              "https://bsky.social" "jwt" "a.png,b.jpg" "" world0 _ _ Hrun)
    as (evs & Htrace & Hall).
  do 2 eexists. exists evs. split; [exact Hrun | split; assumption].
Defined.







(** ** Errors name the file *)

Lemma prefix_app (x s : string) : String.prefix x (x ++ s) = true.
Proof.
  induction x as [| c x IH]; simpl.
  - destruct s; reflexivity.
  - destruct (ascii_dec c c) as [_ | Hne]; [exact IH | congruence].
Qed.

Lemma Contains_unfold (s x : string) :
  Go.Contains s x
  = String.prefix x s
    || match s with
       | EmptyString => false
       | String _ s' => Go.Contains s' x
       end.
Proof. destruct s; reflexivity. Qed.

Lemma Contains_here (x s : string) : Go.Contains (x ++ s) x = true.
Proof. rewrite Contains_unfold, prefix_app. reflexivity. Qed.

Lemma Contains_later (p s x : string) :
  Go.Contains s x = true -> Go.Contains (p ++ s) x = true.
Proof.
  intro H. induction p as [| c p IH]; [exact H |].
  rewrite Contains_unfold. cbn [append]. rewrite IH. apply orb_true_r.
Qed.

(** The message of an error about a file contains the path of the file. *)
Lemma file_errors_name_the_path (path : string) (cause : error) (got : Z) :
  Go.Contains (errorString (ReadImageFailed path cause)) path = true
  /\ Go.Contains (errorString (ImageTooLarge path got)) path = true
  /\ Go.Contains (errorString (UnsupportedImageFormat path)) path = true
  /\ Go.Contains (errorString (UploadImageFailed path cause)) path = true
  /\ Go.Contains (errorString (ReadVideoFailed path cause)) path = true
  /\ Go.Contains (errorString (VideoTooLarge path got)) path = true
  /\ Go.Contains (errorString (UnsupportedVideoFormat path)) path = true.
Proof.
  repeat split; cbn [errorString];
    (apply Contains_later; apply Contains_here).
Qed.

Lemma validateImageData_names_path (rt : Runtime) (path : string)
    (imageData : list Byte.byte) (e : error) :
  validateImageData rt path imageData = Some e ->
  Go.Contains (errorString e) path = true.
Proof.
  unfold validateImageData. intro H.
  destruct (Go.lenSlice imageData >? maxImageSize).
  - injection H as <-.
    apply (file_errors_name_the_path path (LibraryError "")
             (Go.lenSlice imageData)).
  - cbv zeta in H. destruct (detectImageMimeType rt path == "");
      [| discriminate H].
    injection H as <-.
    apply (file_errors_name_the_path path (LibraryError "") 0).
Qed.

Lemma processImage_error_names_path (rt : Runtime) (env : Env)
    (pdsURL accessToken path altText : string) (w w' : World) (e : error) :
  processImage rt env pdsURL accessToken path altText w = Some (Err e, w') ->
  Go.Contains (errorString e) path = true.
Proof.
  intro H. unfold processImage, bind, osReadFile in H.
  destruct (readFile env (List.length (trace w)) path) as [imageData | err].
  - destruct (validateImageData rt path imageData) as [bad |] eqn:Hvalid.
    + injection H as <- _.
      apply (validateImageData_names_path rt path imageData bad Hvalid).
    + cbv zeta in H.
      destruct (uploadBlob rt env pdsURL accessToken imageData
                  (detectImageMimeType rt path) _) as [[[blob | err] w1] |];
        try discriminate H.
      injection H as <- _. apply (file_errors_name_the_path path err 0).
  - injection H as <- _. apply (file_errors_name_the_path path err 0).
Qed.

(** Every failure of [processImages] is either the too-many error, made
    before any file is touched, or an error about one of the parsed paths
    whose message contains that path. *)
Theorem processImages_errors_name_the_file (rt : Runtime) (env : Env)
    (pdsURL accessToken imagePaths altTexts : string) (w w' : World)
    (e : error) :
  processImages rt env pdsURL accessToken imagePaths altTexts w
  = Some (Err e, w') ->
  (e = TooManyImages (Go.lenSlice (parseImagePaths imagePaths)) /\ w' = w)
  \/ (exists path,
         In path (parseImagePaths imagePaths)
         /\ Go.Contains (errorString e) path = true).
Proof.
  intro H. unfold processImages in H. cbv zeta in H.
  destruct (Go.lenSlice (parseImagePaths imagePaths) =? 0); [discriminate H |].
  destruct (Go.lenSlice (parseImagePaths imagePaths) >? maxImagesPerPost).
  { injection H as <- <-. left. split; reflexivity. }
  right. unfold bind in H.
  destruct (processImagesFrom rt env pdsURL accessToken
              (Go.Split altTexts ","%char) 0 (parseImagePaths imagePaths) [] w)
    as [[[embedImages | err] w1] |] eqn:E; try discriminate H.
  injection H as <- _. clear w'.
  revert E. generalize (@nil EmbedImage). generalize 0%nat. revert w.
  induction (parseImagePaths imagePaths) as [| path rest IH];
    intros w i acc E; simpl in E; [discriminate E |].
  unfold bind in E.
  destruct (processImage rt env pdsURL accessToken path _ w)
    as [[[embedImage | bad] w2] |] eqn:E1; try discriminate E.
  - destruct (IH _ _ _ E) as (p & Hin & Hp). exists p.
    split; [right; exact Hin | exact Hp].
  - injection E as <- _. exists path. split; [left; reflexivity |].
    eapply processImage_error_names_path. exact E1.
Qed.

Lemma processImages_errors_name_the_file_witness :
  exists e w' path,
    processImages sampleRuntime sampleEnv "https://bsky.social" "jwt"
      "a.png,notes.txt" "" world0 = Some (Err e, w')
    /\ In path (parseImagePaths "a.png,notes.txt")
    /\ Go.Contains (errorString e) path = true.
Proof.
  eassert (Hrun : processImages sampleRuntime sampleEnv "https://bsky.social"
                    "jwt" "a.png,notes.txt" "" world0 = Some (Err _, _))
    by (vm_compute; reflexivity).
  destruct (processImages_errors_name_the_file sampleRuntime sampleEnv
              "https://bsky.social" "jwt" "a.png,notes.txt" "" world0 _ _ Hrun)
    as [[Habs _] | (path & Hin & Hname)].
  - discriminate Habs.
  - do 2 eexists. exists path. split; [exact Hrun | split; assumption].
Defined.

(** ** The polling loop, whatever the server answers *)

Lemma getVideoJobStatus_total (rt : Runtime) (env : Env)
    (serviceToken jobID : string) (w : World) :
  exists r,
    getVideoJobStatus rt env serviceToken jobID w
    = Some (r, happen env (EvCall (CallGetJobStatus serviceToken jobID)) 0 w).
Proof.
  unfold getVideoJobStatus, bind, httpDo.
  destruct (respond env (List.length (trace w))
              (CallGetJobStatus serviceToken jobID)) as [msg | code ctype body].
  - eexists. reflexivity.
  - destruct (negb (code =? 200)).
    + destruct (decodeJobError rt body) as [errorResp |];
        [| eexists; reflexivity].
      destruct (JobErrorResponse_Status errorResp) as [status |];
        [| eexists; reflexivity].
      destruct ((JobErrorResponse_Error errorResp == "already_exists")
                && match VideoJobStatus_Blob status with
                   | Some _ => true
                   | None => false
                   end); eexists; reflexivity.
    + eexists. reflexivity.
Qed.

(** With fuel for the time that is left, the loop ends, and more fuel does
    not change how. *)
Lemma pollLoop_enough_fuel (rt : Runtime) (env : Env)
    (serviceToken jobID : string) (startTime : Z) (fuel : nat) :
  forall w : World,
    (1 <= fuel)%nat ->
    Z.of_nat fuel * videoStatusPollDelay
    > videoStatusMaxWait - (now w - startTime) + videoStatusPollDelay ->
    exists r w',
      forall extra : nat,
        pollLoop rt env (fuel + extra) serviceToken jobID startTime w
        = Some (r, w').
Proof.
  induction fuel as [| fuel IH]; intros w Hpos Hfuel; [lia |].
  destruct (Z_gt_le_dec (now w - startTime) videoStatusMaxWait) as [Hout | Hin].
  - exists (Err ProcessingTimedOut), w. intro extra.
    apply pollLoop_timed_out. exact Hout.
  - destruct (getVideoJobStatus_total rt env serviceToken jobID w) as [r Hget].
    set (w1 := happen env (EvCall (CallGetJobStatus serviceToken jobID)) 0 w)
      in *.
    destruct r as [status | err].
    + destruct (VideoJobStatus_Blob status) as [blob |] eqn:Hblob.
      * exists (Ok blob), w1. intro extra.
        eapply pollLoop_blob; eassumption.
      * destruct (string_dec (VideoJobStatus_State status) "failed")
          as [Hstate | Hstate].
        { eexists. exists w1. intro extra.
          eapply pollLoop_failed; try eassumption. left. exact Hstate. }
        destruct (string_dec (VideoJobStatus_Error status) "")
          as [Herr | Herr].
        2: { eexists. exists w1. intro extra.
             eapply pollLoop_failed; try eassumption. right. exact Herr. }
        set (w2 := happen env (EvSleep videoStatusPollDelay)
                     videoStatusPollDelay w1).
        assert (Hnow : now w + videoStatusPollDelay <= now w2).
        { pose proof (happen_now env
                        (EvCall (CallGetJobStatus serviceToken jobID)) 0 w)
            as H1.
          pose proof (happen_now env (EvSleep videoStatusPollDelay)
                        videoStatusPollDelay w1) as H2.
          fold w1 in H1. fold w2 in H2. lia. }
        assert (Hdelay : videoStatusPollDelay = 2000000000) by reflexivity.
        assert (Hmax : videoStatusMaxWait = 300000000000) by reflexivity.
        destruct (IH w2) as (r & w' & Hrun); [lia | lia |].
        exists r, w'. intro extra.
        change (S fuel + extra)%nat with (S (fuel + extra)).
        rewrite (pollLoop_pending rt env (fuel + extra) serviceToken jobID
                   startTime w w1 status Hin Hget Hblob Hstate Herr).
        apply Hrun.
    + exists (Err err), w1. intro extra.
      eapply pollLoop_poll_error; eassumption.
Qed.

(** Whatever the server answers, the polling loop ends within 152
    iterations: with that much fuel or more it always returns, and what it
    returns does not depend on the fuel. *)
Theorem poll_always_ends (rt : Runtime) (env : Env)
    (serviceToken jobID : string) (fuel : nat) (w : World) :
  (152 <= fuel)%nat ->
  exists r w',
    pollVideoJobUntilComplete rt env fuel serviceToken jobID w = Some (r, w')
    /\ pollVideoJobUntilComplete rt env 152 serviceToken jobID w
       = Some (r, w').
Proof.
  intro Hfuel. unfold pollVideoJobUntilComplete, bind, timeNow.
  destruct (pollLoop_enough_fuel rt env serviceToken jobID (now w) 152 w)
    as (r & w' & Hrun).
  - lia.
  - unfold videoStatusPollDelay, videoStatusMaxWait, minute, second. lia.
  - exists r, w'. split.
    + replace fuel with (152 + (fuel - 152))%nat by lia. apply Hrun.
    + replace 152%nat with (152 + 0)%nat at 1 by lia. apply Hrun.
Qed.

Lemma poll_always_ends_witness :
  exists r w',
    pollVideoJobUntilComplete sampleRuntime failedEnv 200 "service-token"
      "job123" world0 = Some (r, w')
    /\ pollVideoJobUntilComplete sampleRuntime failedEnv 152 "service-token"
         "job123" world0 = Some (r, w').
Proof.
  apply (poll_always_ends sampleRuntime failedEnv "service-token" "job123" 200
           world0).
  lia.
Defined.

Lemma countPolls_app (evs1 evs2 : list Event) :
  countPolls (evs1 ++ evs2) = (countPolls evs1 + countPolls evs2)%nat.
Proof.
  induction evs1 as [| ev evs1 IH]; simpl; [reflexivity |].
  destruct ev as [path | c | d]; simpl; try exact IH.
  destruct c; simpl; rewrite IH; reflexivity.
Qed.

(** The events of the loop and the number of its polls against the time
    that is left. *)
Lemma pollLoop_events (rt : Runtime) (env : Env)
    (serviceToken jobID : string) (startTime : Z) (fuel : nat) :
  forall (w w' : World) (r : result Blob),
    pollLoop rt env fuel serviceToken jobID startTime w = Some (r, w') ->
    exists evs,
      trace w' = (trace w ++ evs)%list
      /\ forallb (pollEvent serviceToken jobID) evs = true
      /\ (now w - startTime > videoStatusMaxWait -> countPolls evs = 0%nat)
      /\ (now w - startTime <= videoStatusMaxWait ->
          Z.of_nat (countPolls evs) * videoStatusPollDelay
          <= videoStatusMaxWait - (now w - startTime) + videoStatusPollDelay).
Proof.
  assert (Hdelay : videoStatusPollDelay = 2000000000) by reflexivity.
  induction fuel as [| fuel IH]; intros w w' r H; [discriminate H |].
  destruct (Z_gt_le_dec (now w - startTime) videoStatusMaxWait) as [Hout | Hin].
  - rewrite (pollLoop_timed_out rt env fuel serviceToken jobID startTime w Hout)
      in H.
    injection H as <- <-. exists [].
    split; [symmetry; apply app_nil_r |]. split; [reflexivity |].
    split; [reflexivity | intro Hin; lia].
  - destruct (getVideoJobStatus_total rt env serviceToken jobID w) as [r1 Hget].
    set (call := EvCall (CallGetJobStatus serviceToken jobID)) in *.
    set (w1 := happen env call 0 w) in *.
    assert (Hone : forall r0,
               Some (r0, w1) = Some (r, w') ->
               exists evs,
                 trace w' = (trace w ++ evs)%list
                 /\ forallb (pollEvent serviceToken jobID) evs = true
                 /\ (now w - startTime > videoStatusMaxWait ->
                     countPolls evs = 0%nat)
                 /\ (now w - startTime <= videoStatusMaxWait ->
                     Z.of_nat (countPolls evs) * videoStatusPollDelay
                     <= videoStatusMaxWait - (now w - startTime)
                        + videoStatusPollDelay)).
    { intros r0 Heq. injection Heq as <- <-. exists [call].
      split; [reflexivity |]. split.
      - unfold call. cbn [forallb pollEvent]. rewrite !streq_refl. reflexivity.
      - split; [lia |]. intros _. unfold call. cbn [countPolls].
        change (Z.of_nat 1) with 1. lia. }
    destruct r1 as [status | err].
    + destruct (VideoJobStatus_Blob status) as [blob |] eqn:Hblob.
      * rewrite (pollLoop_blob rt env fuel serviceToken jobID startTime w w1
                   status blob Hin Hget Hblob) in H.
        eapply Hone. exact H.
      * destruct (string_dec (VideoJobStatus_State status) "failed")
          as [Hstate | Hstate].
        { rewrite (pollLoop_failed rt env fuel serviceToken jobID startTime w
                     w1 status Hin Hget Hblob (or_introl Hstate)) in H.
          eapply Hone. exact H. }
        destruct (string_dec (VideoJobStatus_Error status) "")
          as [Herr | Herr].
        2: { rewrite (pollLoop_failed rt env fuel serviceToken jobID startTime
                        w w1 status Hin Hget Hblob (or_intror Herr)) in H.
             eapply Hone. exact H. }
        rewrite (pollLoop_pending rt env fuel serviceToken jobID startTime w
                   w1 status Hin Hget Hblob Hstate Herr) in H.
        set (sleep := EvSleep videoStatusPollDelay) in *.
        set (w2 := happen env sleep videoStatusPollDelay w1) in *.
        assert (Hnow : now w + videoStatusPollDelay <= now w2).
        { pose proof (happen_now env call 0 w) as H1.
          pose proof (happen_now env sleep videoStatusPollDelay w1) as H2.
          fold w1 in H1. fold w2 in H2. lia. }
        destruct (IH w2 w' r H) as (evs & Ht & Hp & Hnone & Hsome).
        exists (call :: sleep :: evs). split.
        { rewrite Ht. unfold w2, w1. rewrite !happen_trace.
          rewrite <- !app_assoc. reflexivity. }
        split.
        { unfold call, sleep. cbn [forallb pollEvent].
          rewrite !streq_refl, Hp, Z.eqb_refl. reflexivity. }
        split; [lia |]. intros _.
        assert (Hcount : countPolls (call :: sleep :: evs)
                         = S (countPolls evs)) by reflexivity.
        rewrite Hcount, Nat2Z.inj_succ.
        destruct (Z_gt_le_dec (now w2 - startTime) videoStatusMaxWait)
          as [Hout2 | Hin2].
        { rewrite (Hnone Hout2). change (Z.of_nat 0) with 0. lia. }
        { specialize (Hsome Hin2). lia. }
    + rewrite (pollLoop_poll_error rt env fuel serviceToken jobID startTime w
                 w1 err Hin Hget) in H.
      eapply Hone. exact H.
Qed.

(** A run of the polling loop only polls the job it was given, with the
    token it was given, sleeps the poll delay of 2 seconds and nothing else,
    and polls at most 151 times. *)
Theorem poll_events_and_bound (rt : Runtime) (env : Env) (fuel : nat)
    (serviceToken jobID : string) (w w' : World) (r : result Blob) :
  pollVideoJobUntilComplete rt env fuel serviceToken jobID w = Some (r, w') ->
  exists evs,
    trace w' = (trace w ++ evs)%list
    /\ forallb (pollEvent serviceToken jobID) evs = true
    /\ (countPolls evs <= 151)%nat.
Proof.
  intro H. unfold pollVideoJobUntilComplete, bind, timeNow in H.
  destruct (pollLoop_events rt env serviceToken jobID (now w) fuel w w' r H)
    as (evs & Ht & Hp & _ & Hbound).
  exists evs. split; [exact Ht | split; [exact Hp |]].
  assert (Hin : now w - now w <= videoStatusMaxWait)
    by (unfold videoStatusMaxWait, minute, second; lia).
  specialize (Hbound Hin).
  unfold videoStatusPollDelay, videoStatusMaxWait, minute, second in Hbound.
  lia.
Qed.

Lemma poll_events_and_bound_witness :
  exists r w' evs,
    pollVideoJobUntilComplete sampleRuntime sampleEnv 152 "service-token"
      "job123" world0 = Some (r, w')
    /\ trace w' = (trace world0 ++ evs)%list
    /\ forallb (pollEvent "service-token" "job123") evs = true
    /\ (countPolls evs <= 151)%nat.
Proof.
  eassert (Hrun : pollVideoJobUntilComplete sampleRuntime sampleEnv 152
                    "service-token" "job123" world0 = Some (_, _))
    by (vm_compute; reflexivity).
  destruct (poll_events_and_bound sampleRuntime sampleEnv 152 "service-token"
              "job123" world0 _ _ Hrun) as (evs & Ht & Hp & Hc).
  do 2 eexists. exists evs.
  split; [exact Hrun | split; [exact Ht | split; assumption]].
Defined.

(** ** The video processor *)

Lemma emits_pollVideoJobUntilComplete (rt : Runtime) (env : Env) (fuel : nat)
    (serviceToken jobID : string) :
  emits (pollEvent serviceToken jobID)
    (pollVideoJobUntilComplete rt env fuel serviceToken jobID).
Proof.
  intros w r w' H. unfold pollVideoJobUntilComplete, bind, timeNow in H.
  destruct (pollLoop_events rt env serviceToken jobID (now w) fuel w w' r H)
    as (evs & Ht & Hp & _).
  exists evs. split; assumption.
Qed.

Lemma validateVideoData_accepts (rt : Runtime) (path : string)
    (videoData : list Byte.byte) :
  validateVideoData rt path videoData = None ->
  Go.lenSlice videoData <= maxVideoSize /\ detectVideoMimeType rt path <> "".
Proof.
  unfold validateVideoData. intro H.
  destruct (Go.lenSlice videoData >? maxVideoSize) eqn:E; [discriminate H |].
  cbv zeta in H.
  destruct (detectVideoMimeType rt path == "") eqn:E'; [discriminate H |].
  split.
  - rewrite Z.gtb_ltb in E. apply Z.ltb_ge in E. exact E.
  - apply String.eqb_neq. exact E'.
Qed.

Lemma getServiceAuthToken_world (rt : Runtime) (env : Env)
    (pdsURL accessToken userDID : string) (w w' : World) (r : result string) :
  getServiceAuthToken rt env pdsURL accessToken userDID w = Some (r, w') ->
  w' = happen env
         (EvCall (CallGetServiceAuth pdsURL accessToken
                    "did:web:video.bsky.app" "com.atproto.repo.uploadBlob"
                    (unixSeconds env (now w) + 1800))) 0 w.
Proof.
  unfold getServiceAuthToken, bind, timeNow, httpDo. cbv zeta. intro H.
  destruct (respond env _ _) as [msg | code ctype body] in H.
  - injection H as _ <-. reflexivity.
  - destruct (negb (code =? 200)); [injection H as _ <-; reflexivity |].
    destruct (decodeServiceAuth rt body); injection H as _ <-; reflexivity.
Qed.

Lemma uploadVideoToService_world (rt : Runtime) (env : Env)
    (userDID serviceToken : string) (videoData : list Byte.byte)
    (filename mimeType : string) (w w' : World)
    (r : result VideoUploadResponse) :
  uploadVideoToService rt env userDID serviceToken videoData filename mimeType w
  = Some (r, w') ->
  w' = happen env
         (EvCall (CallUploadVideo userDID serviceToken videoData filename
                    mimeType)) 0 w.
Proof.
  unfold uploadVideoToService, bind, httpDo. intro H.
  destruct (respond env _ _) as [msg | code ctype body] in H.
  - injection H as _ <-. reflexivity.
  - destruct (negb (code =? 200) && negb (code =? 201));
      injection H as _ <-; reflexivity.
Qed.

(** A video the service knows already: when the upload reply carries a
    blob, [processVideo] returns the embed of that blob with the given alt
    text, whatever the fuel, after exactly three events: the file read, the
    token exchange (for the audience of the video service, the right to
    upload a blob, and an expiry 1800 seconds ahead) and the upload under the
    base name of the file.  No job-status call is made. *)
Theorem processVideo_immediate_blob (rt : Runtime) (env : Env) (fuel : nat)
    (pdsURL accessToken userDID path altText : string) (w w2 w3 : World)
    (videoData : list Byte.byte) (serviceToken : string)
    (uploadResp : VideoUploadResponse) (status : VideoJobStatus) (blob : Blob) :
  readFile env (List.length (trace w)) path = Ok videoData ->
  validateVideoData rt path videoData = None ->
  getServiceAuthToken rt env pdsURL accessToken userDID
    (happen env (EvReadFile path) 0 w) = Some (Ok serviceToken, w2) ->
  uploadVideoToService rt env userDID serviceToken videoData (Go.Base path)
    (detectVideoMimeType rt path) w2 = Some (Ok uploadResp, w3) ->
  VideoUploadResponse_Status uploadResp = Some status ->
  VideoJobStatus_Blob status = Some blob ->
  processVideo rt env fuel pdsURL accessToken userDID path altText w
  = Some (Ok {| EmbedVideo_Type := "app.bsky.embed.video";
                EmbedVideo_Video := blob;
                EmbedVideo_AspectRatio := None;
                EmbedVideo_Alt := altText;
                EmbedVideo_Captions := [] |}, w3)
  /\ trace w3
     = (trace w
        ++ [EvReadFile path;
            EvCall (CallGetServiceAuth pdsURL accessToken
                      "did:web:video.bsky.app" "com.atproto.repo.uploadBlob"
                      (unixSeconds env (now (happen env (EvReadFile path) 0 w))
                       + 1800));
            EvCall (CallUploadVideo userDID serviceToken videoData
                      (Go.Base path) (detectVideoMimeType rt path))])%list.
Proof.
  intros Hread Hvalid Hauth Hup Hstatus Hblob. split.
  - unfold processVideo, bind, osReadFile. rewrite Hread, Hvalid. cbv zeta.
    rewrite Hauth, Hup, Hstatus. destruct status as [j s p b e m].
    simpl in Hblob. subst b. reflexivity.
  - rewrite (uploadVideoToService_world _ _ _ _ _ _ _ _ _ _ Hup).
    rewrite (getServiceAuthToken_world _ _ _ _ _ _ _ _ Hauth).
    rewrite !happen_trace. rewrite <- !app_assoc. reflexivity.
Qed.

Lemma processVideo_immediate_blob_witness :
  exists w3,
    processVideo sampleRuntime cachedEnv 0 "https://bsky.social" "jwt"
      "did:plc:test" "media/clip.mp4" "Demo" world0
    = Some (Ok {| EmbedVideo_Type := "app.bsky.embed.video";
                  EmbedVideo_Video := sampleBlob;
                  EmbedVideo_AspectRatio := None;
                  EmbedVideo_Alt := "Demo";
                  EmbedVideo_Captions := [] |}, w3)
    /\ List.length (trace w3) = 3%nat.
Proof.
  set (w1 := happen cachedEnv (EvReadFile "media/clip.mp4") 0 world0).
  set (w2 := happen cachedEnv
               (EvCall (CallGetServiceAuth "https://bsky.social" "jwt"
                          "did:web:video.bsky.app"
                          "com.atproto.repo.uploadBlob"
                          (unixSeconds cachedEnv (now w1) + 1800))) 0 w1).
  set (w3 := happen cachedEnv
               (EvCall (CallUploadVideo "did:plc:test" "service-token"
                          [Byte.x00; Byte.x01; Byte.x02] "clip.mp4"
                          "video/mp4")) 0 w2).
  assert (Hauth : getServiceAuthToken sampleRuntime cachedEnv
                    "https://bsky.social" "jwt" "did:plc:test" w1
                  = Some (Ok "service-token", w2)) by (vm_compute; reflexivity).
  assert (Hup : uploadVideoToService sampleRuntime cachedEnv "did:plc:test"
                  "service-token" [Byte.x00; Byte.x01; Byte.x02]
                  (Go.Base "media/clip.mp4")
                  (detectVideoMimeType sampleRuntime "media/clip.mp4") w2
                = Some (Ok {| VideoUploadResponse_JobID := "job123";
                              VideoUploadResponse_Status :=
                                Some (sampleStatus "" (Some sampleBlob) "") |},
                        w3)) by (vm_compute; reflexivity).
  destruct (processVideo_immediate_blob sampleRuntime cachedEnv 0
              "https://bsky.social" "jwt" "did:plc:test" "media/clip.mp4"
              "Demo" world0 w2 w3 [Byte.x00; Byte.x01; Byte.x02]
              "service-token" _ (sampleStatus "" (Some sampleBlob) "")
              sampleBlob eq_refl eq_refl Hauth Hup eq_refl eq_refl)
    as [Hrun Htrace].
  eexists. split; [exact Hrun |]. rewrite Htrace. reflexivity.
Defined.

(** [processVideos] gives no embed exactly for a blank video path, and
    then nothing happens: no file is read and no call is made. *)
Theorem processVideos_no_embed_iff_blank (rt : Runtime) (env : Env)
    (fuel : nat) (pdsURL accessToken userDID videoPath altText : string)
    (w : World) :
  (processVideos rt env fuel pdsURL accessToken userDID videoPath altText w
   = Some (Ok None, w)
   <-> Go.TrimSpace videoPath = "")
  /\ (forall w',
         processVideos rt env fuel pdsURL accessToken userDID videoPath
           altText w = Some (Ok None, w') ->
         w' = w).
Proof.
  assert (Hblank : forall w',
             processVideos rt env fuel pdsURL accessToken userDID videoPath
               altText w = Some (Ok None, w') ->
             Go.TrimSpace videoPath = "" /\ w' = w).
  { intros w' H. unfold processVideos in H.
    destruct (videoPath == "") eqn:E.
    - apply String.eqb_eq in E. subst videoPath. injection H as <-.
      split; reflexivity.
    - cbv zeta in H. destruct (Go.TrimSpace videoPath == "") eqn:E'.
      + apply String.eqb_eq in E'. injection H as <-. split; [exact E' |].
        reflexivity.
      + unfold bind in H.
        destruct (processVideo rt env fuel pdsURL accessToken userDID _ _ w)
          as [[[embed | err] w1] |]; discriminate H. }
  split; [split |].
  - intro H. apply (Hblank w H).
  - intro H. unfold processVideos. destruct (videoPath == ""); [reflexivity |].
    cbv zeta. rewrite H. reflexivity.
  - intros w' H. apply (Hblank w' H).
Qed.



Lemma pollEvent_wellFormed (pdsURL accessToken userDID path : string)
    (serviceToken jobID : string) (ev : Event) :
  pollEvent serviceToken jobID ev = true ->
  videoRequestWellFormed pdsURL accessToken userDID path ev = true.
Proof.
  destruct ev as [p | c | d]; simpl; try discriminate; try reflexivity.
  destruct c; simpl; try discriminate. reflexivity.
Qed.

Lemma pollEvent_usesServiceToken (serviceToken jobID : string) (ev : Event) :
  pollEvent serviceToken jobID ev = true ->
  usesServiceToken serviceToken ev = true.
Proof.
  destruct ev as [p | c | d]; simpl; try discriminate; try reflexivity.
  destruct c; simpl; try discriminate.
  intro H. apply andb_true_iff in H. apply H.
Qed.

(** The part of [processVideo] after the upload: the blob of the upload
    reply, or the polling loop. *)
Lemma emits_after_upload (rt : Runtime) (env : Env) (fuel : nat)
    (P : Event -> bool) (serviceToken altText : string)
    (uploadResp : VideoUploadResponse) :
  (forall ev,
      pollEvent serviceToken (VideoUploadResponse_JobID uploadResp) ev = true ->
      P ev = true) ->
  emits P
    (match VideoUploadResponse_Status uploadResp with
     | Some {| VideoJobStatus_Blob := Some blob |} =>
         ret (Ok {| EmbedVideo_Type := "app.bsky.embed.video";
                    EmbedVideo_Video := blob;
                    EmbedVideo_AspectRatio := None;
                    EmbedVideo_Alt := altText;
                    EmbedVideo_Captions := [] |})
     | _ =>
         p <- pollVideoJobUntilComplete rt env fuel serviceToken
                (VideoUploadResponse_JobID uploadResp) ;;
         match p with
         | Err err => ret (Err (VideoProcessingFailed err))
         | Ok blob =>
             ret (Ok {| EmbedVideo_Type := "app.bsky.embed.video";
                        EmbedVideo_Video := blob;
                        EmbedVideo_AspectRatio := None;
                        EmbedVideo_Alt := altText;
                        EmbedVideo_Captions := [] |})
         end
     end).
Proof.
  intro HP.
  assert (Hpoll :
    emits P
      (p <- pollVideoJobUntilComplete rt env fuel serviceToken
              (VideoUploadResponse_JobID uploadResp) ;;
       match p with
       | Err err => ret (Err (VideoProcessingFailed err))
       | Ok blob =>
           ret (Ok {| EmbedVideo_Type := "app.bsky.embed.video";
                      EmbedVideo_Video := blob;
                      EmbedVideo_AspectRatio := None;
                      EmbedVideo_Alt := altText;
                      EmbedVideo_Captions := [] |})
       end)).
  { apply emits_bind.
    - eapply emits_weaken; [exact HP |].
      apply emits_pollVideoJobUntilComplete.
    - intro p. destruct p; apply emits_ret. }
  destruct (VideoUploadResponse_Status uploadResp) as [status |];
    [| exact Hpoll].
  destruct status as [j s pr blob e m]. destruct blob; [apply emits_ret |].
  exact Hpoll.
Qed.

(** Every request of [processVideo] is well formed: the token exchange
    goes to the given server with the session token, for the audience of the
    video service and the right to upload a blob; the upload is for the given
    user, under the base name of the file, and carries at most 50 x 1,048,576
    bytes under one of the three video types.  No blob upload to the
    repository and no other call is made. *)
Theorem processVideo_requests_well_formed (rt : Runtime) (env : Env)
    (fuel : nat) (pdsURL accessToken userDID path altText : string) :
  emits (videoRequestWellFormed pdsURL accessToken userDID path)
    (processVideo rt env fuel pdsURL accessToken userDID path altText).
Proof.
  unfold processVideo. apply emits_bind.
  - apply emits_osReadFile. reflexivity.
  - intro r. destruct r as [videoData | err]; [| apply emits_ret].
    destruct (validateVideoData rt path videoData) eqn:Hvalid;
      [apply emits_ret |].
    destruct (validateVideoData_accepts rt path videoData Hvalid)
      as [Hsize Hfmt].
    cbv zeta. apply emits_bind.
    + unfold getServiceAuthToken. cbv zeta.
      apply emits_bind; [apply emits_timeNow | intro t].
      apply emits_bind; [| intro resp; emits_steps].
      apply emits_httpDo. simpl. rewrite !streq_refl. reflexivity.
    + intro tok. destruct tok as [serviceToken | err]; [| apply emits_ret].
      apply emits_bind.
      * unfold uploadVideoToService.
        apply emits_bind; [| intro resp; emits_steps].
        apply emits_httpDo. simpl. rewrite !streq_refl. simpl.
        replace (Go.lenSlice videoData <=? maxVideoSize) with true
          by (symmetry; apply Z.leb_le; exact Hsize).
        simpl.
        destruct (mime_detection_cases rt path) as (_ & Hrange & _).
        simpl in Hrange.
        destruct Hrange as [<- | [<- | [<- | [Hnone | []]]]]; try reflexivity.
        exfalso. apply Hfmt. symmetry. exact Hnone.
      * intro up. destruct up as [uploadResp | err]; [| apply emits_ret].
        apply emits_after_upload. intro ev. apply pollEvent_wellFormed.
Qed.

Lemma processVideo_requests_well_formed_witness :
  exists r w' evs,
    processVideo sampleRuntime completeEnv 1 "https://bsky.social" "jwt"
      "did:plc:test" "media/clip.MOV" "Demo" world0 = Some (r, w')
    /\ trace w' = (trace world0 ++ evs)%list
    /\ forallb
         (videoRequestWellFormed "https://bsky.social" "jwt" "did:plc:test"
            "media/clip.MOV") evs = true.
Proof.
  eassert (Hrun : processVideo sampleRuntime completeEnv 1
                    "https://bsky.social" "jwt" "did:plc:test"
                    "media/clip.MOV" "Demo" world0 = Some (_, _))
    by (vm_compute; reflexivity).
  destruct (processVideo_requests_well_formed sampleRuntime completeEnv 1
              "https://bsky.social" "jwt" "did:plc:test" "media/clip.MOV"
              "Demo" world0 _ _ Hrun) as (evs & Ht & Hp).
  do 2 eexists. exists evs. split; [exact Hrun | split; assumption].
Defined.

(** One service token for the whole video: after the token exchange has
    returned a token, the upload and every job-status call of [processVideo]
    carry that token, and nothing else is called. *)
Theorem processVideo_reuses_service_token (rt : Runtime) (env : Env)
    (fuel : nat) (pdsURL accessToken userDID path altText : string)
    (w w2 w' : World) (videoData : list Byte.byte) (serviceToken : string)
    (r : result EmbedVideo) :
  readFile env (List.length (trace w)) path = Ok videoData ->
  validateVideoData rt path videoData = None ->
  getServiceAuthToken rt env pdsURL accessToken userDID
    (happen env (EvReadFile path) 0 w) = Some (Ok serviceToken, w2) ->
  processVideo rt env fuel pdsURL accessToken userDID path altText w
  = Some (r, w') ->
  exists evs,
    trace w' = (trace w2 ++ evs)%list
    /\ forallb (usesServiceToken serviceToken) evs = true.
Proof.
  intros Hread Hvalid Hauth H.
  unfold processVideo in H. unfold bind at 1 in H. unfold osReadFile in H.
  rewrite Hread, Hvalid in H. cbv zeta in H. unfold bind at 1 in H.
  rewrite Hauth in H. revert H. revert w2 r w' Hauth.
  intros w2 r w' _. revert w2 r w'.
  apply emits_bind.
  - unfold uploadVideoToService.
    apply emits_bind; [| intro resp; emits_steps].
    apply emits_httpDo. simpl. apply streq_refl.
  - intro up. destruct up as [uploadResp | err]; [| apply emits_ret].
    apply emits_after_upload. intro ev. apply pollEvent_usesServiceToken.
Qed.

Lemma processVideo_reuses_service_token_witness :
  exists r w' evs,
    processVideo sampleRuntime sampleEnv 152 "https://bsky.social" "jwt"
      "did:plc:test" "clip.mp4" "Demo" world0 = Some (r, w')
    /\ (3 <= List.length evs)%nat
    /\ forallb (usesServiceToken "service-token") evs = true.
Proof.
  set (w1 := happen sampleEnv (EvReadFile "clip.mp4") 0 world0).
  set (w2 := happen sampleEnv
               (EvCall (CallGetServiceAuth "https://bsky.social" "jwt"
                          "did:web:video.bsky.app"
                          "com.atproto.repo.uploadBlob"
                          (unixSeconds sampleEnv (now w1) + 1800))) 0 w1).
  assert (Hauth : getServiceAuthToken sampleRuntime sampleEnv
                    "https://bsky.social" "jwt" "did:plc:test" w1
                  = Some (Ok "service-token", w2)) by (vm_compute; reflexivity).
  eassert (Hrun : processVideo sampleRuntime sampleEnv 152
                    "https://bsky.social" "jwt" "did:plc:test" "clip.mp4"
                    "Demo" world0 = Some (_, _)) by (vm_compute; reflexivity).
  destruct (processVideo_reuses_service_token sampleRuntime sampleEnv 152
              "https://bsky.social" "jwt" "did:plc:test" "clip.mp4" "Demo"
              world0 w2 _ [Byte.x00; Byte.x01; Byte.x02] "service-token" _
              eq_refl eq_refl Hauth Hrun) as (evs & Ht & Hp).
  match type of Hrun with
  | _ = Some (_, ?w) =>
      assert (Hlong : Nat.leb 5 (List.length (trace w)) = true)
        by (vm_compute; reflexivity)
  end.
  apply Nat.leb_le in Hlong. rewrite Ht, length_app in Hlong.
  assert (Hshort : List.length (trace w2) = 2%nat) by reflexivity.
  do 2 eexists. exists evs. split; [exact Hrun |]. split; [lia | exact Hp].
Defined.

(** ** The whole run *)

Lemma total_ret {A : Type} (a : A) : total (ret a).
Proof. intro w. exists a, w. reflexivity. Qed.

Lemma total_bind {A B : Type} (m : M A) (k : A -> M B) :
  total m -> (forall a, total (k a)) -> total (bind m k).
Proof.
  intros Hm Hk w. destruct (Hm w) as (a & w1 & E).
  destruct (Hk a w1) as (b & w2 & E'). exists b, w2.
  unfold bind. rewrite E. exact E'.
Qed.

Lemma total_httpDo (env : Env) (c : Call) : total (httpDo env c).
Proof. intro w. eexists. eexists. reflexivity. Qed.

Lemma total_osReadFile (env : Env) (path : string) : total (osReadFile env path).
Proof. intro w. eexists. eexists. reflexivity. Qed.

Lemma total_timeNow : total timeNow.
Proof. intro w. eexists. eexists. reflexivity. Qed.

(** Splits a computation without loop along its binds and cases. *)
Ltac total_steps :=
  repeat first
    [ apply total_ret
    | apply total_timeNow
    | apply total_httpDo
    | apply total_osReadFile
    | apply total_bind; [| intro]
    | match goal with
      | |- total (match ?x with _ => _ end) => destruct x
      | |- total (if ?b then _ else _) => destruct b
      end ].

Lemma total_processImages (rt : Runtime) (env : Env)
    (pdsURL accessToken imagePaths altTexts : string) :
  total (processImages rt env pdsURL accessToken imagePaths altTexts).
Proof.
  unfold processImages. cbv zeta.
  destruct (Go.lenSlice (parseImagePaths imagePaths) =? 0); [apply total_ret |].
  destruct (Go.lenSlice (parseImagePaths imagePaths) >? maxImagesPerPost);
    [apply total_ret |].
  apply total_bind; [| intro r; total_steps].
  generalize (@nil EmbedImage) at 1. generalize 0%nat.
  induction (parseImagePaths imagePaths) as [| path rest IH]; intros i acc;
    simpl; [apply total_ret |].
  apply total_bind.
  - unfold processImage. apply total_bind; [apply total_osReadFile | intro r].
    destruct r; [| apply total_ret].
    destruct (validateImageData rt path a); [apply total_ret |].
    cbv zeta. unfold uploadBlob. total_steps.
  - intro r. destruct r; [apply IH | apply total_ret].
Qed.

Lemma total_pollVideoJobUntilComplete (rt : Runtime) (env : Env) (fuel : nat)
    (serviceToken jobID : string) :
  (152 <= fuel)%nat ->
  total (pollVideoJobUntilComplete rt env fuel serviceToken jobID).
Proof.
  intros Hfuel w. unfold pollVideoJobUntilComplete, bind, timeNow.
  destruct (pollLoop_enough_fuel rt env serviceToken jobID (now w) 152 w)
    as (r & w' & Hrun).
  - lia.
  - unfold videoStatusPollDelay, videoStatusMaxWait, minute, second. lia.
  - exists r, w'. replace fuel with (152 + (fuel - 152))%nat by lia. apply Hrun.
Qed.

Lemma total_processVideos (rt : Runtime) (env : Env) (fuel : nat)
    (pdsURL accessToken userDID videoPath altText : string) :
  (152 <= fuel)%nat ->
  total (processVideos rt env fuel pdsURL accessToken userDID videoPath altText).
Proof.
  intro Hfuel. unfold processVideos.
  destruct (videoPath == ""); [apply total_ret |]. cbv zeta.
  destruct (Go.TrimSpace videoPath == ""); [apply total_ret |].
  apply total_bind; [| intro r; total_steps].
  unfold processVideo. apply total_bind; [apply total_osReadFile | intro r].
  destruct r as [videoData | err]; [| apply total_ret].
  destruct (validateVideoData rt _ videoData); [apply total_ret |].
  cbv zeta. apply total_bind.
  { unfold getServiceAuthToken. cbv zeta. total_steps. }
  intro tok. destruct tok as [serviceToken | err]; [| apply total_ret].
  apply total_bind.
  { unfold uploadVideoToService. total_steps. }
  intro up. destruct up as [uploadResp | err]; [| apply total_ret].
  assert (Hpoll : forall alt,
    total
      (p <- pollVideoJobUntilComplete rt env fuel serviceToken
              (VideoUploadResponse_JobID uploadResp) ;;
       match p with
       | Err err => ret (Err (VideoProcessingFailed err))
       | Ok blob =>
           ret (Ok {| EmbedVideo_Type := "app.bsky.embed.video";
                      EmbedVideo_Video := blob;
                      EmbedVideo_AspectRatio := None;
                      EmbedVideo_Alt := alt;
                      EmbedVideo_Captions := [] |})
       end)).
  { intro alt. apply total_bind.
    - apply total_pollVideoJobUntilComplete. exact Hfuel.
    - intro p. destruct p; apply total_ret. }
  destruct (VideoUploadResponse_Status uploadResp) as [status |];
    [| apply Hpoll].
  destruct status as [j s pr blob e m]. destruct blob;
    [apply total_ret | apply Hpoll].
Qed.

(** The action always ends: with fuel for 152 polling iterations or more,
    [main] comes to an end from every world, for all inputs and whatever the
    file system and the servers answer. *)
Theorem main_always_ends (rt : Runtime) (env : Env) (fuel : nat)
    (args : ActionInputs) (w : World) :
  (152 <= fuel)%nat ->
  exists exit w', main rt env fuel args w = Some (exit, w').
Proof.
  intro Hfuel. revert w. change (total (main rt env fuel args)).
  unfold main. apply total_bind.
  { unfold createSession. total_steps. }
  intro s. destruct s as [session | err]; [| apply total_ret].
  cbv zeta. apply total_bind.
  - unfold selectEmbed.
    destruct (negb (ActionInputs_VideoPath args == "")).
    { apply total_bind; [apply total_processVideos; exact Hfuel |].
      intro r. destruct r; apply total_ret. }
    destruct (negb (ActionInputs_ImagePaths args == "")).
    { apply total_bind; [apply total_processImages |].
      intro r. destruct r as [[images |] | err]; apply total_ret. }
    destruct (ActionInputs_EnableEmbeds args
              && (Go.lenSlice (parseRichTextFacets rt (ActionInputs_Text args))
                  >? 0)); [| apply total_ret].
    destruct (parseRichTextFacets rt (ActionInputs_Text args))
      as [| facet rest]; [apply total_ret |].
    destruct (RichTextFacet_Features facet) as [| feature others];
      [apply total_ret |].
    cbv zeta. apply total_bind; [| intro e; apply total_ret].
    unfold fetchLinkMetadata. apply total_bind; [apply total_httpDo |].
    intro resp. destruct resp as [msg | code contentType body];
      [apply total_ret |].
    destruct (negb (Go.Contains _ "text/html")); [apply total_ret |].
    cbv zeta.
    match goal with
    | |- total (if ?t == "" then _ else _) => destruct (t == "")
    end; apply total_ret.
  - intro sel. destruct sel as [embed | how]; [| apply total_ret].
    apply total_bind; [apply total_timeNow | intro t].
    cbv zeta. unfold publishPost. total_steps.
Qed.

Lemma main_always_ends_witness :
  exists exit w',
    main sampleRuntime sampleEnv 152
      (sampleArgs "hello" "a.png" "clip.mp4" "Demo") world0
    = Some (exit, w').
Proof.
  apply (main_always_ends sampleRuntime sampleEnv 152
           (sampleArgs "hello" "a.png" "clip.mp4" "Demo") world0).
  lia.
Defined.

Lemma countPublications_app (evs1 evs2 : list Event) :
  countPublications (evs1 ++ evs2)
  = (countPublications evs1 + countPublications evs2)%nat.
Proof.
  induction evs1 as [| ev evs1 IH]; simpl; [reflexivity |].
  destruct ev as [path | c | d]; simpl; try exact IH.
  destruct c; simpl; rewrite IH; reflexivity.
Qed.

Lemma no_publication_count (evs : list Event) :
  forallb notPublication evs = true -> countPublications evs = 0%nat.
Proof.
  induction evs as [| ev evs IH]; simpl; [reflexivity |].
  intro H. apply andb_true_iff in H. destruct H as [Hev Hrest].
  destruct ev as [path | c | d]; simpl; try (apply IH; exact Hrest).
  destruct c; simpl in *; try discriminate Hev; apply IH; exact Hrest.
Qed.

Lemma videoEvent_notPublication (path : string) (ev : Event) :
  videoEvent path ev = true -> notPublication ev = true.
Proof.
  destruct ev as [p | c | d]; simpl; try reflexivity.
  destruct c; simpl; try reflexivity. discriminate.
Qed.

Lemma imageEvent_notPublication (paths : list string) (ev : Event) :
  imageEvent paths ev = true -> notPublication ev = true.
Proof.
  destruct ev as [p | c | d]; simpl; try reflexivity.
  destruct c; simpl; try reflexivity. discriminate.
Qed.

Lemma emits_fetchLinkMetadata (rt : Runtime) (env : Env) (url : string) :
  emits notPublication (fetchLinkMetadata rt env url).
Proof.
  unfold fetchLinkMetadata. apply emits_bind.
  - apply emits_httpDo. reflexivity.
  - intro resp. destruct resp as [msg | code contentType body];
      [apply emits_ret |].
    destruct (negb (Go.Contains _ "text/html")); [apply emits_ret |].
    cbv zeta.
    match goal with
    | |- emits _ (if ?t == "" then _ else _) => destruct (t == "")
    end; apply emits_ret.
Qed.

(** The selection publishes nothing, and on the facets of the text it ends
    the process only by exit 1 or by the nil-pointer panic. *)
Lemma selectEmbed_run (rt : Runtime) (env : Env) (fuel : nat)
    (args : ActionInputs) (session : SessionResponse) (w w' : World)
    (sel : Selection) :
  selectEmbed rt env fuel args session
    (parseRichTextFacets rt (ActionInputs_Text args)) w = Some (sel, w') ->
  (exists evs,
      trace w' = (trace w ++ evs)%list /\ forallb notPublication evs = true)
  /\ (forall how,
         sel = Ended how -> how = OsExit 1 \/ how = PanicNilPointer).
Proof.
  unfold selectEmbed.
  destruct (negb (ActionInputs_VideoPath args == "")).
  { intro H. split.
    - revert w sel w' H. apply emits_bind.
      + eapply emits_weaken; [apply videoEvent_notPublication |].
        apply emits_processVideos.
      + intro r. destruct r; apply emits_ret.
    - intros how Hsel. subst sel. unfold bind in H.
      destruct (processVideos rt env fuel _ _ _ _ _ w) as [[[v | e] w1] |];
        try discriminate H.
      injection H as <- _. left. reflexivity. }
  destruct (negb (ActionInputs_ImagePaths args == "")).
  { intro H. split.
    - revert w sel w' H. apply emits_bind.
      + eapply emits_weaken; [apply imageEvent_notPublication |].
        apply emits_processImages.
      + intro r. destruct r as [[images |] | err]; apply emits_ret.
    - intros how Hsel. subst sel. unfold bind in H.
      destruct (processImages rt env _ _ _ _ w) as [[[[im |] | e] w1] |];
        try discriminate H; injection H as <- _; tauto. }
  pose proof (parseRichTextFacets_one_feature rt (ActionInputs_Text args))
    as Hone.
  destruct (parseRichTextFacets rt (ActionInputs_Text args))
    as [| facet rest].
  { rewrite andb_false_r. intro H. injection H as <- <-. split.
    - exists []. split; [symmetry; apply app_nil_r | reflexivity].
    - intros how Habs. discriminate Habs. }
  apply Forall_inv in Hone. destruct Hone as [feature Hfeature].
  rewrite Hfeature.
  destruct (ActionInputs_EnableEmbeds args
            && (Go.lenSlice (facet :: rest) >? 0)).
  - cbv zeta. intro H. split.
    + revert w sel w' H. apply emits_bind.
      * apply emits_fetchLinkMetadata.
      * intro e. apply emits_ret.
    + intros how Hsel. subst sel. unfold bind in H.
      destruct (fetchLinkMetadata rt env _ w) as [[e w1] |]; discriminate H.
  - intro H. injection H as <- <-. split.
    + exists []. split; [symmetry; apply app_nil_r | reflexivity].
    + intros how Habs. discriminate Habs.
Qed.

(** One run, at most one post.  [main] makes at most one createRecord call.
    It returns normally only when that call was its last event and the
    server answered it 200, for a post with the type of the lexicon, the
    text, the languages and the facets of the input.  A run that panics has
    published nothing, and the only panic is the nil-pointer one: reading
    [facets[0].Features[0]] never fails. *)
Theorem main_publishes_once (rt : Runtime) (env : Env) (fuel : nat)
    (args : ActionInputs) (w w' : World) (exit : Exit) :
  main rt env fuel args w = Some (exit, w') ->
  exists evs,
    trace w' = (trace w ++ evs)%list
    /\ (countPublications evs <= 1)%nat
    /\ (exit = Returned ->
        exists before session post ctype body,
          evs = (before
                 ++ [EvCall (CallCreateRecord (ActionInputs_PDSURL args)
                               (SessionResponse_AccessToken session)
                               (SessionResponse_UserID session) post)])%list
          /\ countPublications before = 0%nat
          /\ respond env (List.length (trace w ++ before))
               (CallCreateRecord (ActionInputs_PDSURL args)
                  (SessionResponse_AccessToken session)
                  (SessionResponse_UserID session) post)
             = Response 200 ctype body
          /\ Post_Type post = "app.bsky.feed.post"
          /\ Post_Text post = ActionInputs_Text args
          /\ Post_Langs post = ActionInputs_Lang args
          /\ Post_Facets post = parseRichTextFacets rt (ActionInputs_Text args))
    /\ (exit = PanicNilPointer -> countPublications evs = 0%nat)
    /\ (exit = Returned \/ exit = OsExit 1 \/ exit = PanicNilPointer).
Proof.
  intro H. unfold main in H. unfold bind at 1 in H.
  unfold createSession in H. unfold bind at 1 in H. unfold httpDo in H.
  set (login := EvCall (CallCreateSession (ActionInputs_PDSURL args)
                          (ActionInputs_Handle args)
                          (ActionInputs_Password args))) in *.
  set (w1 := happen env login 0 w) in *.
  assert (Hfail : forall (x : Exit),
             x = OsExit 1 -> Some (x, w1) = Some (exit, w') ->
             exists evs,
               trace w' = (trace w ++ evs)%list
               /\ (countPublications evs <= 1)%nat
               /\ (exit = Returned ->
                   exists before session post ctype body,
                     evs = (before
                            ++ [EvCall (CallCreateRecord
                                          (ActionInputs_PDSURL args)
                                          (SessionResponse_AccessToken session)
                                          (SessionResponse_UserID session)
                                          post)])%list
                     /\ countPublications before = 0%nat
                     /\ respond env (List.length (trace w ++ before))
                          (CallCreateRecord (ActionInputs_PDSURL args)
                             (SessionResponse_AccessToken session)
                             (SessionResponse_UserID session) post)
                        = Response 200 ctype body
                     /\ Post_Type post = "app.bsky.feed.post"
                     /\ Post_Text post = ActionInputs_Text args
                     /\ Post_Langs post = ActionInputs_Lang args
                     /\ Post_Facets post
                        = parseRichTextFacets rt (ActionInputs_Text args))
               /\ (exit = PanicNilPointer -> countPublications evs = 0%nat)
               /\ (exit = Returned \/ exit = OsExit 1
                   \/ exit = PanicNilPointer)).
  { intros x Hx Heq. subst x. injection Heq as <- <-. exists [login].
    split; [reflexivity |]. split; [simpl; lia |].
    split; [intro Habs; discriminate Habs |].
    split; [intros _; reflexivity | tauto]. }
  assert (Hsession :
            forall r : result SessionResponse,
              (match r with
               | Ok session =>
                   let facets := parseRichTextFacets rt (ActionInputs_Text args) in
                   sel <- selectEmbed rt env fuel args session facets ;;
                   match sel with
                   | Ended how => ret how
                   | Selected embed =>
                       t <- timeNow ;;
                       (let post :=
                          {| Post_Type := "app.bsky.feed.post";
                             Post_Text := ActionInputs_Text args;
                             Post_CreatedAt := formatRFC3339 rt (unixNano env t);
                             Post_Langs := ActionInputs_Lang args;
                             Post_Facets := facets;
                             Post_Embed := embed |} in
                        p <- publishPost env (ActionInputs_PDSURL args) session
                               post ;;
                        match p with
                        | Some _ => ret (OsExit 1)
                        | None => ret Returned
                        end)
                   end
               | Err _ => ret (OsExit 1)
               end) w1 = Some (exit, w') ->
              exists evs,
                trace w' = (trace w ++ evs)%list
                /\ (countPublications evs <= 1)%nat
                /\ (exit = Returned ->
                    exists before session post ctype body,
                      evs = (before
                             ++ [EvCall (CallCreateRecord
                                           (ActionInputs_PDSURL args)
                                           (SessionResponse_AccessToken session)
                                           (SessionResponse_UserID session)
                                           post)])%list
                      /\ countPublications before = 0%nat
                      /\ respond env (List.length (trace w ++ before))
                           (CallCreateRecord (ActionInputs_PDSURL args)
                              (SessionResponse_AccessToken session)
                              (SessionResponse_UserID session) post)
                         = Response 200 ctype body
                      /\ Post_Type post = "app.bsky.feed.post"
                      /\ Post_Text post = ActionInputs_Text args
                      /\ Post_Langs post = ActionInputs_Lang args
                      /\ Post_Facets post
                         = parseRichTextFacets rt (ActionInputs_Text args))
                /\ (exit = PanicNilPointer -> countPublications evs = 0%nat)
                /\ (exit = Returned \/ exit = OsExit 1
                    \/ exit = PanicNilPointer)).
  { intros r Hr. destruct r as [session | err];
      [| exact (Hfail _ eq_refl Hr)].
    cbv zeta in Hr. unfold bind at 1 in Hr.
    destruct (selectEmbed rt env fuel args session
                (parseRichTextFacets rt (ActionInputs_Text args)) w1)
      as [[sel w2] |] eqn:Hsel; [| discriminate Hr].
    destruct (selectEmbed_run rt env fuel args session w1 w2 sel Hsel)
      as [(evs2 & Ht2 & Hp2) Hended].
    pose proof (no_publication_count evs2 Hp2) as Hc2.
    assert (Ht : trace w2 = (trace w ++ login :: evs2)%list).
    { rewrite Ht2. unfold w1. rewrite happen_trace, <- app_assoc. reflexivity. }
    destruct sel as [embed | how].
    - unfold bind, timeNow, publishPost, bind, httpDo in Hr.
      set (post := {| Post_Type := "app.bsky.feed.post";
                      Post_Text := ActionInputs_Text args;
                      Post_CreatedAt := formatRFC3339 rt (unixNano env (now w2));
                      Post_Langs := ActionInputs_Lang args;
                      Post_Facets :=
                        parseRichTextFacets rt (ActionInputs_Text args);
                      Post_Embed := embed |}) in *.
      set (record := CallCreateRecord (ActionInputs_PDSURL args)
                       (SessionResponse_AccessToken session)
                       (SessionResponse_UserID session) post) in *.
      assert (Hw' : w' = happen env (EvCall record) 0 w2).
      { destruct (respond env (List.length (trace w2)) record)
          as [msg | code ctype body] in Hr.
        - injection Hr as _ <-. reflexivity.
        - destruct (negb (code =? 200)); injection Hr as _ <-; reflexivity. }
      exists (login :: evs2 ++ [EvCall record])%list.
      split.
      { rewrite Hw', happen_trace, Ht, <- app_assoc. reflexivity. }
      split.
      { change (login :: evs2 ++ [EvCall record])%list
          with ([login] ++ evs2 ++ [EvCall record])%list.
        rewrite !countPublications_app, Hc2. simpl. lia. }
      split.
      { intro Hexit. subst exit.
        destruct (respond env (List.length (trace w2)) record)
          as [msg | code ctype body] eqn:Hresp; [discriminate Hr |].
        destruct (code =? 200) eqn:Hcode; [| discriminate Hr].
        apply Z.eqb_eq in Hcode. subst code.
        exists (login :: evs2), session, post, ctype, body.
        split; [reflexivity |].
        split.
        { change (login :: evs2) with ([login] ++ evs2)%list.
          rewrite countPublications_app, Hc2. reflexivity. }
        split; [rewrite <- Ht; exact Hresp |].
        repeat split. }
      split.
      { intro Hexit. subst exit. exfalso.
        destruct (respond env (List.length (trace w2)) record)
          as [msg | code ctype body]; [discriminate Hr |].
        destruct (negb (code =? 200)); discriminate Hr. }
      destruct (respond env (List.length (trace w2)) record)
        as [msg | code ctype body].
      + injection Hr as <- _. tauto.
      + destruct (negb (code =? 200)); injection Hr as <- _; tauto.
    - injection Hr as <- <-. exists (login :: evs2).
      split; [exact Ht |].
      assert (Hc : countPublications (login :: evs2) = 0%nat).
      { change (login :: evs2) with ([login] ++ evs2)%list.
        rewrite countPublications_app, Hc2. reflexivity. }
      split; [lia |].
      destruct (Hended how eq_refl) as [-> | ->].
      + split; [intro Habs; discriminate Habs |].
        split; [intros _; exact Hc | tauto].
      + split; [intro Habs; discriminate Habs |].
        split; [intros _; exact Hc | tauto]. }
  destruct (respond env (List.length (trace w)) _) as [msg | code ctype body]
    in H.
  - apply (Hsession (Err (LibraryError msg))). exact H.
  - destruct (negb (code =? 200)).
    + apply (Hsession (Err (CreateSessionRejected code))). exact H.
    + apply (Hsession (decodeSession rt body)). exact H.
Qed.

Lemma main_publishes_once_witness :
  exists w' evs,
    main sampleRuntime completeEnv 1
      (sampleArgs "hello" "" "clip.mp4" "Demo") world0 = Some (Returned, w')
    /\ trace w' = (trace world0 ++ evs)%list
    /\ (countPublications evs <= 1)%nat.
Proof.
  eassert (Hrun : main sampleRuntime completeEnv 1
                    (sampleArgs "hello" "" "clip.mp4" "Demo") world0
                  = Some (Returned, _)) by (vm_compute; reflexivity).
  destruct (main_publishes_once sampleRuntime completeEnv 1
              (sampleArgs "hello" "" "clip.mp4" "Demo") world0 _ _ Hrun)
    as (evs & Ht & Hc & _).
  eexists. exists evs. split; [exact Hrun | split; assumption].
Defined.

(** ** Link cards *)

Lemma len_append (a b : string) : Go.len (a ++ b) = Go.len a + Go.len b.
Proof.
  unfold Go.len. induction a as [| c a IH]; simpl String.length.
  - simpl. lia.
  - cbn [append String.length]. rewrite !Nat2Z.inj_succ. lia.
Qed.

Lemma substring_length (s : string) :
  forall n : nat,
    String.length (String.substring 0 n s) = Nat.min n (String.length s).
Proof.
  induction s as [| c s IH]; intro n; destruct n as [| n]; simpl;
    try reflexivity.
  rewrite IH. reflexivity.
Qed.

Lemma len_slicePrefix (s : string) (n : Z) :
  0 <= n <= Go.len s -> Go.len (Go.slicePrefix s n) = n.
Proof.
  intro H. unfold Go.len, Go.slicePrefix in *. rewrite substring_length. lia.
Qed.

Lemma truncate_bound (s : string) (limit : Z) :
  3 <= limit -> Go.len (truncate s limit) <= limit.
Proof.
  intro H. unfold truncate. destruct (Go.len s >? limit) eqn:E.
  - apply Z.gtb_lt in E. rewrite len_append, len_slicePrefix by lia.
    change (Go.len "...") with 3. lia.
  - rewrite Z.gtb_ltb in E. apply Z.ltb_ge in E. exact E.
Qed.

Lemma truncate_nonempty (s : string) (limit : Z) :
  s <> "" -> truncate s limit <> "".
Proof.
  intro H. unfold truncate. destruct (Go.len s >? limit); [| exact H].
  destruct (Go.slicePrefix s (limit - 3)); discriminate.
Qed.

(** A link card is the result of exactly one GET of the URL.  When there is
    a card it has the type of the lexicon, the URL fetched, a non-empty title
    of at most 100 bytes and a description of at most 200 bytes.  A transport
    failure or a content type that is not HTML gives no card; the fetch never
    fails the run. *)
Theorem fetchLinkMetadata_card (rt : Runtime) (env : Env) (url : string)
    (w : World) :
  exists r,
    fetchLinkMetadata rt env url w
    = Some (r, happen env (EvCall (CallGet url)) 0 w)
    /\ (forall card,
           r = Some card ->
           EmbedExternal_Type card = "app.bsky.embed.external"
           /\ EmbedExternalContent_URI (EmbedExternal_External card) = url
           /\ EmbedExternalContent_Title (EmbedExternal_External card) <> ""
           /\ Go.len (EmbedExternalContent_Title (EmbedExternal_External card))
              <= 100
           /\ Go.len
                (EmbedExternalContent_Description (EmbedExternal_External card))
              <= 200)
    /\ (forall msg,
           respond env (List.length (trace w)) (CallGet url)
           = TransportError msg ->
           r = None)
    /\ (forall code contentType body,
           respond env (List.length (trace w)) (CallGet url)
           = Response code contentType body ->
           Go.Contains (Go.ToLower (lowerRunes rt) contentType) "text/html"
           = false ->
           r = None).
Proof.
  unfold fetchLinkMetadata, bind, httpDo.
  destruct (respond env (List.length (trace w)) (CallGet url))
    as [msg | code contentType body].
  - exists None. split; [reflexivity |].
    split; [intros card Habs; discriminate Habs |].
    split; intros; reflexivity.
  - destruct (Go.Contains (Go.ToLower (lowerRunes rt) contentType) "text/html")
      eqn:Hhtml; simpl negb; cbv iota.
    2: { exists None. split; [reflexivity |].
         split; [intros card Habs; discriminate Habs |].
         split; intros; reflexivity. }
    cbv zeta.
    match goal with
    | |- context [if ?t == "" then ret None else _] =>
        set (title := t); destruct (title == "") eqn:Htitle
    end.
    + exists None. split; [reflexivity |].
      split; [intros card Habs; discriminate Habs |].
      split; [intros msg Habs; discriminate Habs |].
      intros code' ct' body' Heq Hno. injection Heq as _ <- _.
      rewrite Hhtml in Hno. discriminate Hno.
    + eexists. split; [reflexivity |]. split.
      * intros card Hcard. injection Hcard as <-. simpl.
        split; [reflexivity |]. split; [reflexivity |].
        apply String.eqb_neq in Htitle.
        split; [apply truncate_nonempty; exact Htitle |].
        split; apply truncate_bound; lia.
      * split; [intros msg Habs; discriminate Habs |].
        intros code' ct' body' Heq Hno. injection Heq as _ <- _.
        rewrite Hhtml in Hno. discriminate Hno.
Qed.

(** ** Link facets *)

Lemma string_app_assoc (a b c : string) : (a ++ b) ++ c = a ++ (b ++ c).
Proof.
  induction a as [| x a IH]; simpl; [reflexivity |]. rewrite IH. reflexivity.
Qed.

Lemma revOnto_app (s acc : string) :
  Go.revOnto s acc = Go.revOnto s "" ++ acc.
Proof.
  revert acc. induction s as [| c s IH]; intro acc; simpl; [reflexivity |].
  rewrite (IH (String c acc)), (IH (String c "")).
  rewrite string_app_assoc. reflexivity.
Qed.

Lemma len_revOnto (s acc : string) :
  Go.len (Go.revOnto s acc) = Go.len s + Go.len acc.
Proof.
  unfold Go.len. revert acc.
  induction s as [| c s IH]; intro acc; cbn [Go.revOnto String.length].
  - lia.
  - rewrite IH. cbn [String.length]. lia.
Qed.

Lemma len_reverse (s : string) : Go.len (Go.reverse s) = Go.len s.
Proof. unfold Go.reverse. rewrite len_revOnto. unfold Go.len. simpl. lia. Qed.

Lemma len_dropWhileIn (cutset : list ascii) (s : string) :
  Go.len (Go.dropWhileIn cutset s) <= Go.len s.
Proof.
  unfold Go.len. induction s as [| c s IH]; simpl; [lia |].
  destruct (existsb (Ascii.eqb c) cutset); simpl String.length; lia.
Qed.

Lemma len_TrimRight (s : string) (cutset : list ascii) :
  0 <= Go.len (Go.TrimRight s cutset) <= Go.len s.
Proof.
  unfold Go.TrimRight. rewrite len_reverse. split.
  - unfold Go.len. lia.
  - etransitivity; [apply len_dropWhileIn |]. rewrite len_reverse. lia.
Qed.

Lemma dropWhileIn_head (cutset : list ascii) (s : string) (c : ascii)
    (rest : string) :
  Go.dropWhileIn cutset s = String c rest -> existsb (Ascii.eqb c) cutset = false.
Proof.
  induction s as [| c0 s IH]; simpl; [discriminate |].
  destruct (existsb (Ascii.eqb c0) cutset) eqn:E; [exact IH |].
  intro H. injection H as <- _. exact E.
Qed.

Lemma append_last_inj (a b : string) (c d : ascii) :
  a ++ String c "" = b ++ String d "" -> c = d.
Proof.
  revert b. induction a as [| x a IH]; intros b H.
  - destruct b as [| y b]; simpl in H.
    + injection H as ->. reflexivity.
    + injection H as _ H. destruct b; discriminate H.
  - destruct b as [| y b]; simpl in H.
    + injection H as _ H. destruct a; discriminate H.
    + injection H as _ H. apply (IH b H).
Qed.

(** What is left by [strings.TrimRight] does not end with a byte of the
    cutset. *)
Lemma TrimRight_last (s : string) (cutset : list ascii) (rest : string)
    (c : ascii) :
  Go.TrimRight s cutset = rest ++ String c "" ->
  existsb (Ascii.eqb c) cutset = false.
Proof.
  unfold Go.TrimRight, Go.reverse.
  destruct (Go.dropWhileIn cutset (Go.revOnto s "")) as [| c0 d] eqn:E.
  - simpl. intro H. destruct rest; discriminate H.
  - simpl. rewrite revOnto_app. intro H.
    apply append_last_inj in H. subst c0.
    apply (dropWhileIn_head cutset _ _ _ E).
Qed.

Lemma fold_left_Forall {A B : Type} (f : list A -> B -> list A)
    (P : A -> Prop) (Q : B -> Prop) :
  (forall acc m, Forall P acc -> Q m -> Forall P (f acc m)) ->
  forall ms acc, Forall Q ms -> Forall P acc -> Forall P (fold_left f ms acc).
Proof.
  intros Hstep ms. induction ms as [| m ms IH]; intros acc HQ HP; simpl.
  - exact HP.
  - apply IH.
    + apply Forall_inv_tail in HQ. exact HQ.
    + apply Hstep; [exact HP |]. apply Forall_inv in HQ. exact HQ.
Qed.

Lemma fold_left_length {A B : Type} (f : list A -> B -> list A) :
  (forall acc m, (List.length (f acc m) <= S (List.length acc))%nat) ->
  forall ms acc,
    (List.length (fold_left f ms acc) <= List.length acc + List.length ms)%nat.
Proof.
  intros Hstep ms. induction ms as [| m ms IH]; intro acc; simpl; [lia |].
  specialize (IH (f acc m)). specialize (Hstep acc m). lia.
Qed.

(** The facets of a text: at most one for each match of the URL pattern,
    each with exactly one feature, of the link type, whose URI does not end
    with one of the bytes . , ! ? ; : .  When the matches are within the text
    (each match has the length of its index range), the byte range of a facet
    starts within the text and has exactly the length of its URI. *)
Theorem parseRichTextFacets_links (rt : Runtime) (text : string) :
  (List.length (parseRichTextFacets rt text)
   <= List.length (findAllURLs rt text))%nat
  /\ Forall
       (fun facet =>
          exists uri,
            RichTextFacet_Features facet
            = [ {| RichTextFeature_Type := "app.bsky.richtext.facet#link";
                   RichTextFeature_URI := uri |} ]
            /\ forall rest c,
                uri = rest ++ String c "" ->
                ~ In c ["."%char; ","%char; "!"%char; "?"%char; ";"%char;
                        ":"%char])
       (parseRichTextFacets rt text)
  /\ (Forall
        (fun m =>
           0 <= fst (snd m)
           /\ snd (snd m) = fst (snd m) + Go.len (fst m)
           /\ snd (snd m) <= Go.len text)
        (findAllURLs rt text) ->
      Forall
        (fun facet =>
           exists feature,
             RichTextFacet_Features facet = [feature]
             /\ 0 <= RichTextIndex_ByteStart (RichTextFacet_Index facet)
             /\ RichTextIndex_ByteEnd (RichTextFacet_Index facet)
                = RichTextIndex_ByteStart (RichTextFacet_Index facet)
                  + Go.len (RichTextFeature_URI feature)
             /\ RichTextIndex_ByteEnd (RichTextFacet_Index facet)
                <= Go.len text)
        (parseRichTextFacets rt text)).
Proof.
  unfold parseRichTextFacets. split; [| split].
  - etransitivity; [apply fold_left_length | simpl; lia].
    intros acc [matched [start originalEnd]].
    destruct (negb (urlParses rt _)); [lia |].
    rewrite length_app. simpl. lia.
  - apply (fold_left_Forall _ _ (fun _ => True)).
    + intros acc [matched [start originalEnd]] Hacc _.
      destruct (negb (urlParses rt _)); [exact Hacc |].
      apply Forall_app. split; [exact Hacc |].
      constructor; [| constructor]. eexists. split; [reflexivity |].
      intros rest c Huri Hin.
      apply TrimRight_last in Huri.
      assert (Hcut : existsb (Ascii.eqb c)
                       ["."%char; ","%char; "!"%char; "?"%char; ";"%char;
                        ":"%char] = true).
      { apply existsb_exists. exists c.
        split; [exact Hin | apply Ascii.eqb_refl]. }
      rewrite Hcut in Huri. discriminate Huri.
    + apply Forall_forall. intros m _. exact I.
    + constructor.
  - intro Hvalid. eapply fold_left_Forall; cycle 1.
    + exact Hvalid.
    + constructor.
    + intros acc [matched [start originalEnd]] Hacc (Hs & He & Hle).
      simpl in Hs, He, Hle.
      destruct (negb (urlParses rt _)); [exact Hacc |].
      apply Forall_app. split; [exact Hacc |].
      constructor; [| constructor]. eexists. split; [reflexivity |]. simpl.
      pose proof (len_TrimRight matched
                    ["."%char; ","%char; "!"%char; "?"%char; ";"%char;
                     ":"%char]) as Hclean.
      rewrite !len_slicePrefix by lia. lia.
Qed.

Lemma parseRichTextFacets_links_witness :
  Forall
    (fun facet =>
       exists feature,
         RichTextFacet_Features facet = [feature]
         /\ 0 <= RichTextIndex_ByteStart (RichTextFacet_Index facet)
         /\ RichTextIndex_ByteEnd (RichTextFacet_Index facet)
            = RichTextIndex_ByteStart (RichTextFacet_Index facet)
              + Go.len (RichTextFeature_URI feature)
         /\ RichTextIndex_ByteEnd (RichTextFacet_Index facet)
            <= Go.len "see https://example.com.")
    (parseRichTextFacets sampleRuntime "see https://example.com.").
Proof.
  destruct (parseRichTextFacets_links sampleRuntime "see https://example.com.")
    as (_ & _ & Hrange).
  apply Hrange. constructor; [| constructor].
  simpl. unfold Go.len. simpl. lia.
Defined.
